(** * The sqlite and postgresql adapters of upper.io/db.v2

    A shallow embedding of [sqlite/database.go] and [postgresql/database.go].
    Go strings are byte sequences ([string], a list of 8-bit [ascii]); the
    package variable [fileOpenCount] is an [int32] kept in a [Z] with its
    wrap-around written out; pointers are locations in finite maps; the
    native driver is an explicit part of the state.  Calls are taken one at
    a time: a call runs to its end before the next one starts. *)

From Stdlib Require Import ZArith NArith Bool List Ascii String Lia.
From Stdlib Require Import DecimalString.
From stdpp Require Import base option list gmap strings.

Local Open Scope string_scope.
Local Open Scope Z_scope.

(** ** The Go runtime pieces the adapters use *)

Module Go.

(** An [error] interface value holding a pointer: the allocation it points
    to and the text its [Error()] method returns.  [None] is Go's nil. *)
Record errorString := mkError { err_addr : positive; err_text : string }.

Definition error := option errorString.

(** [a == b] on two non-nil errors of pointer type compares the pointers. *)
Definition same_error (a b : errorString) : bool :=
  Pos.eqb (err_addr a) (err_addr b).

(** [strings.Contains]: some suffix of [s] starts with [substr]. *)
Fixpoint Contains (s substr : string) : bool :=
  String.prefix substr s
  || match s with
     | EmptyString => false
     | String _ rest => Contains rest substr
     end.

(** [strconv.Itoa]. *)
Definition Itoa (j : Z) : string := NilZero.string_of_int (Z.to_int j).

(** [string(b)] for [b] of type [byte]: the UTF-8 encoding of the code
    point whose number is [b]. *)
Definition string_of_byte (b : ascii) : string :=
  let x := N_of_ascii b in
  if (x <? 128)%N then String b EmptyString
  else String (ascii_of_N (N.lor 192 (N.shiftr x 6)))
         (String (ascii_of_N (N.lor 128 (N.land x 63))) EmptyString).

(** The continuation bytes of UTF-8, [locb <= b <= hicb]. *)
Definition is_cont (b : ascii) : bool :=
  let x := N_of_ascii b in ((128 <=? x) && (x <=? 191))%N.

(** [runtime.decoderune] at the head of [s], as a [for i := range s] loop
    calls it: the rune and the number of bytes it takes.  An invalid or
    truncated sequence is the replacement character on one byte. *)
Definition runeError : N := 65533.

Definition decoderune (s : string) : N * nat :=
  match s with
  | EmptyString => (runeError, 1%nat)
  | String c0 rest =>
    let b0 := N_of_ascii c0 in
    if (b0 <? 128)%N then (b0, 1%nat)
    else if ((192 <=? b0) && (b0 <? 224))%N then
      match rest with
      | String c1 _ =>
        let r := N.lor (N.shiftl (N.land b0 31) 6) (N.land (N_of_ascii c1) 63) in
        if is_cont c1 && (127 <? r)%N then (r, 2%nat) else (runeError, 1%nat)
      | _ => (runeError, 1%nat)
      end
    else if ((224 <=? b0) && (b0 <? 240))%N then
      match rest with
      | String c1 (String c2 _) =>
        let r := N.lor (N.lor (N.shiftl (N.land b0 15) 12)
                              (N.shiftl (N.land (N_of_ascii c1) 63) 6))
                       (N.land (N_of_ascii c2) 63) in
        if is_cont c1 && is_cont c2 && (2047 <? r)%N
           && negb ((55296 <=? r) && (r <=? 57343))%N
        then (r, 3%nat) else (runeError, 1%nat)
      | _ => (runeError, 1%nat)
      end
    else if ((240 <=? b0) && (b0 <? 248))%N then
      match rest with
      | String c1 (String c2 (String c3 _)) =>
        let r := N.lor (N.lor (N.lor (N.shiftl (N.land b0 7) 18)
                                     (N.shiftl (N.land (N_of_ascii c1) 63) 12))
                              (N.shiftl (N.land (N_of_ascii c2) 63) 6))
                       (N.land (N_of_ascii c3) 63) in
        if is_cont c1 && is_cont c2 && is_cont c3
           && (65535 <? r)%N && (r <=? 1114111)%N
        then (r, 4%nat) else (runeError, 1%nat)
      | _ => (runeError, 1%nat)
      end
    else (runeError, 1%nat)
  end.

(** The one-byte string holding a double quote. *)
Definition dquote : string := String (ascii_of_N 34) EmptyString.

(** Number of occurrences of the byte [c] in [s]. *)
Fixpoint count_byte (c : ascii) (s : string) : nat :=
  match s with
  | EmptyString => 0%nat
  | String b rest => ((if Ascii.eqb b c then 1 else 0) + count_byte c rest)%nat
  end.

(** Every byte of [s] is below 0x80. *)
Fixpoint is_ascii (s : string) : bool :=
  match s with
  | EmptyString => true
  | String b rest => (N_of_ascii b <? 128)%N && is_ascii rest
  end.

End Go.

(** ** Package [db]: the shared error vocabulary *)

Module Db.

(** Modelled from the spec: package [db] declares the shared error values
    outside the two adapter files.  The adapters only return them and
    compare them by identity; the texts are the spec's names of the
    kinds. *)
Definition ErrTooManyClients : Go.errorString :=
  Go.mkError 1 "too many clients".
Definition ErrCollectionDoesNotExist : Go.errorString :=
  Go.mkError 2 "collection does not exist".
Definition ErrMissingConnURL : Go.errorString :=
  Go.mkError 3 "missing connection URL".

End Db.

(** ** The state of a run: package variables, heap objects, the driver *)

Module Runtime.
Import Go.

(** Pointers are locations; [*sql.DB] and [*sql.Tx] handles are names the
    driver hands out. *)
Definition loc := positive.
Definition Handle := positive.
Definition TxHandle := positive.

(** What the Builder is asked to run: a select built from
    [Select/From/Where/OrderBy], or raw SQL text. *)
Record Selector := mkSelector {
  sel_columns : list string;
  sel_from : list string;
  sel_where : string;
  sel_args : list string;
  sel_order : list string
}.

Inductive Statement :=
| SelectStmt (q : Selector)
| RawSQL (text : string).

(** One row of a result set: the text column the adapters read
    ([tbl_name], [table_name], [pkey], [name]), the [pk] ordinal of a
    table-info row, and the error [Scan] returns on it (nil when the row
    decodes). *)
Record Row := mkRow { row_name : string; row_pk : Z; row_scan : error }.

(** What the backend answers to one statement: the error of the query
    itself (no row is delivered then), the rows, and the error the
    iteration ends with. *)
Record Cursor := mkCursor {
  cur_query_err : error;
  cur_rows : list Row;
  cur_iter_err : error
}.

(** Calls that reach the native driver. *)
Inductive Call :=
| SqlOpen (driver dsn : string)
| SqlBegin (h : Handle)
| SqlQuery (sess : option Handle) (s : Statement)
| SqlClose (h : Handle).

(** Modelled from the spec: the Table Schema of the Schema Cache.  The
    primary-key list is [None] while not yet discovered and [Some pk]
    afterwards, [Some []] for a table without a key. *)
Record TableSchema := mkTableSchema { ts_pk : option (list string) }.

(** Modelled from the spec: the Schema, database name and a map from
    table name to Table Schema. *)
Record Schema := mkSchema {
  sch_name : string;
  sch_tables : gmap string TableSchema
}.

(** Modelled from the spec: the Base Adapter Runtime
    ([sqladapter.BaseDatabase], outside the two adapter files): the
    dialect adapter it serves, the connection descriptor (an interface,
    nil when [None]; its [String()] is the text), the live handle, the
    transactional handle and the schema, shared by reference. *)
Record BaseDatabase := mkBase {
  b_partial : loc;
  b_connURL : option string;
  b_sess : option Handle;
  b_tx : option TxHandle;
  b_schema : option loc
}.

(** [type database struct]: the embedded [*sqladapter.BaseDatabase] and,
    for sqlite, the [columns] map (nil when [None]). *)
Record database := mkDatabase {
  db_BaseDatabase : option loc;
  db_columns : option (gmap string (list (string * Z)))
}.

Record World := mkWorld {
  fileOpenCount : Z;
  retries : nat;
  opens : list (Handle + errorString);
  begins : list (TxHandle + errorString);
  cursors : list Cursor;
  calls : list Call;
  dbs : gmap loc database;
  bases : gmap loc BaseDatabase;
  schemas : gmap loc Schema
}.

Definition set_fileOpenCount (z : Z) (w : World) : World :=
  mkWorld z (retries w) (opens w) (begins w) (cursors w) (calls w)
          (dbs w) (bases w) (schemas w).
Definition set_opens (o : list (Handle + errorString)) (w : World) : World :=
  mkWorld (fileOpenCount w) (retries w) o (begins w) (cursors w) (calls w)
          (dbs w) (bases w) (schemas w).
Definition set_begins (o : list (TxHandle + errorString)) (w : World) : World :=
  mkWorld (fileOpenCount w) (retries w) (opens w) o (cursors w) (calls w)
          (dbs w) (bases w) (schemas w).
Definition set_cursors (o : list Cursor) (w : World) : World :=
  mkWorld (fileOpenCount w) (retries w) (opens w) (begins w) o (calls w)
          (dbs w) (bases w) (schemas w).
Definition log_call (c : Call) (w : World) : World :=
  mkWorld (fileOpenCount w) (retries w) (opens w) (begins w) (cursors w)
          (c :: calls w) (dbs w) (bases w) (schemas w).
Definition set_dbs (m : gmap loc database) (w : World) : World :=
  mkWorld (fileOpenCount w) (retries w) (opens w) (begins w) (cursors w)
          (calls w) m (bases w) (schemas w).
Definition set_bases (m : gmap loc BaseDatabase) (w : World) : World :=
  mkWorld (fileOpenCount w) (retries w) (opens w) (begins w) (cursors w)
          (calls w) (dbs w) m (schemas w).
Definition set_schemas (m : gmap loc Schema) (w : World) : World :=
  mkWorld (fileOpenCount w) (retries w) (opens w) (begins w) (cursors w)
          (calls w) (dbs w) (bases w) m.

(** A Go call either returns or panics; it may change the state. *)
Inductive outcome (A : Type) :=
| Ret (a : A)
| Panic (msg : string).
Arguments Ret {A} a.
Arguments Panic {A} msg.

Definition M (A : Type) : Type := World -> outcome A * World.

Definition ret {A} (a : A) : M A := fun w => (Ret a, w).
Definition panic {A} (msg : string) : M A := fun w => (Panic msg, w).
Definition bind {A B} (m : M A) (k : A -> M B) : M B :=
  fun w => match m w with
           | (Ret a, w') => k a w'
           | (Panic msg, w') => (Panic msg, w')
           end.
Definition get : M World := fun w => (Ret w, w).
Definition modify (f : World -> World) : M unit := fun w => (Ret tt, f w).

(** [sqladapter.TxDatabase{Database, Tx}], the [db.Tx] a transaction
    returns. *)
Record TxDatabase := mkTx { tx_Database : loc; tx_Tx : option TxHandle }.

Definition nil_deref : string :=
  "invalid memory address or nil pointer dereference".

End Runtime.

Notation "'let*' x := m 'in' k" := (Runtime.bind m (fun x => k))
  (at level 10, x pattern, m at level 100, k at level 200, only parsing).

(** ** The standard packages and the shared adapter runtime *)

Module Sqladapter.
Import Go Runtime.

(** *** [sync/atomic] on the [int32] counter *)

Definition wrap32 (z : Z) : Z := (z + 2 ^ 31) mod 2 ^ 32 - 2 ^ 31.

Definition LoadInt32 : M Z := fun w => (Ret (fileOpenCount w), w).

Definition AddInt32 (delta : Z) : M Z :=
  fun w => let n := wrap32 (fileOpenCount w + delta) in
           (Ret n, set_fileOpenCount n w).

(** *** [database/sql]: the driver answers from the state *)

(** What a driver with nothing left to answer returns. *)
Definition driverDown : errorString := mkError 100 "driver: bad connection".

Definition sql_Open (driver dsn : string) : M (option Handle * error) :=
  fun w =>
    let w1 := log_call (SqlOpen driver dsn) w in
    match opens w with
    | [] => (Ret (None, Some driverDown), w1)
    | inl h :: rest => (Ret (Some h, None), set_opens rest w1)
    | inr e :: rest => (Ret (None, Some e), set_opens rest w1)
    end.

(** [sess.Begin()]; a nil [*sql.DB] panics. *)
Definition sql_Begin (sess : option Handle) : M (option TxHandle * error) :=
  match sess with
  | None => panic nil_deref
  | Some h =>
    fun w =>
      let w1 := log_call (SqlBegin h) w in
      match begins w with
      | [] => (Ret (None, Some driverDown), w1)
      | inl t :: rest => (Ret (Some t, None), set_begins rest w1)
      | inr e :: rest => (Ret (None, Some e), set_begins rest w1)
      end
  end.

(** Running a statement on a session: the call is logged and the backend's
    next answer is taken. *)
Definition run_query (sess : option Handle) (s : Statement) : M Cursor :=
  fun w =>
    let w1 := log_call (SqlQuery sess s) w in
    match cursors w with
    | [] => (Ret (mkCursor (Some driverDown) [] (Some driverDown)), w1)
    | c :: rest => (Ret c, set_cursors rest w1)
    end.

(** *** Heap access *)

Definition read_db (d : loc) : M database :=
  fun w => match dbs w !! d with
           | Some v => (Ret v, w)
           | None => (Panic nil_deref, w)
           end.

(** The adapter's embedded runtime; reaching through a nil one panics. *)
Definition base_of (d : loc) : M loc :=
  let* v := read_db d in
  match db_BaseDatabase v with
  | Some b => ret b
  | None => panic nil_deref
  end.

Definition read_base (b : loc) : M BaseDatabase :=
  fun w => match bases w !! b with
           | Some v => (Ret v, w)
           | None => (Panic nil_deref, w)
           end.

Definition write_base (b : loc) (v : BaseDatabase) : M unit :=
  modify (fun w => set_bases (<[b := v]> (bases w)) w).

Definition read_schema (s : loc) : M Schema :=
  fun w => match schemas w !! s with
           | Some v => (Ret v, w)
           | None => (Panic nil_deref, w)
           end.

(** [d.BaseDatabase = b]. *)
Definition set_BaseDatabase (d : loc) (b : loc) : M unit :=
  let* v := read_db d in
  modify (fun w => set_dbs (<[d := mkDatabase (Some b) (db_columns v)]> (dbs w)) w).

(** [&database{}]: a fresh adapter with a nil runtime. *)
Definition new_database : M loc :=
  fun w => let d := fresh (dom (dbs w)) in
           (Ret d, set_dbs (<[d := mkDatabase None None]> (dbs w)) w).

(** *** [sqladapter.BaseDatabase] *)

(** Modelled from the spec: [sqladapter.NewDatabase(partial, connURL,
    template)] builds the Base Adapter Runtime of an adapter: no live
    handle, no transaction, a Schema of its own. *)
Definition NewDatabase (partial : loc) (connURL : option string) : M loc :=
  fun w =>
    let s := fresh (dom (schemas w)) in
    let b := fresh (dom (bases w)) in
    (Ret b,
     set_bases (<[b := mkBase partial connURL None None (Some s)]> (bases w))
       (set_schemas (<[s := mkSchema EmptyString ∅]> (schemas w)) w)).

(** Modelled from the spec: [clone] "allocates a new Adapter sharing
    descriptor and dialect template, independent live handle (to be
    opened by the caller)"; the schema cache is shared by reference. *)
Definition Clone (b : loc) (partial : loc) : M loc :=
  let* v := read_base b in
  fun w =>
    let b' := fresh (dom (bases w)) in
    (Ret b',
     set_bases (<[b' := mkBase partial (b_connURL v) None None (b_schema v)]> (bases w)) w).

(** Modelled from the spec: [bind(handle)] "installs the low-level
    connection handle as the adapter's live handle". *)
Definition Bind (d : loc) (sess : option Handle) : M error :=
  let* b := base_of d in
  let* v := read_base b in
  let* _ := write_base b (mkBase (b_partial v) (b_connURL v) sess (b_tx v) (b_schema v)) in
  ret None.

(** Modelled from the spec: [bindTx(txHandle)] "installs a transactional
    handle, marking the adapter as transaction-scoped". *)
Definition BindTx (d : loc) (tx : option TxHandle) : M unit :=
  let* b := base_of d in
  let* v := read_base b in
  write_base b (mkBase (b_partial v) (b_connURL v) (b_sess v) tx (b_schema v)).

Definition Session (d : loc) : M (option Handle) :=
  let* b := base_of d in
  let* v := read_base b in
  ret (b_sess v).

Definition Tx (d : loc) : M (option TxHandle) :=
  let* b := base_of d in
  let* v := read_base b in
  ret (b_tx v).

(** [d.ConnectionURL().String()]; the method call on a nil interface
    panics. *)
Definition ConnectionURL_String (d : loc) : M string :=
  let* b := base_of d in
  let* v := read_base b in
  match b_connURL v with
  | Some url => ret url
  | None => panic nil_deref
  end.

(** Modelled from the spec: the runtime's [Close] "releases the live
    handle": the handle is closed in the driver.  The adapter's fields are
    left as they are. *)
Definition Close (d : loc) : M error :=
  let* b := base_of d in
  let* v := read_base b in
  match b_sess v with
  | Some h => let* _ := modify (log_call (SqlClose h)) in ret None
  | None => ret None
  end.

(** Modelled from the spec: [waitForConnection(openFn)] "invokes openFn
    under a configurable retry/backoff policy that specifically tolerates
    backend busy/too many clients conditions (as classified by the
    dialect's error translator) by retrying up to a policy limit, and
    propagates any other error immediately"; a transient condition is
    "only reported once the policy is exhausted".  [Err] is the dialect's
    translator, which is all the loop takes from its receiver, [n] the
    retries left, [s] the variable the closure captures. *)
Fixpoint wait_loop {S : Type} (Err : error -> error) (n : nat)
         (fn : S -> M (S * error)) (s : S) : M (S * error) :=
  let* r := fn s in
  match snd r with
  | None => ret r
  | Some e =>
    match Err (Some e) with
    | Some t =>
      if same_error t Db.ErrTooManyClients then
        match n with
        | O => ret r
        | Datatypes.S k => wait_loop Err k fn (fst r)
        end
      else ret r
    | None => ret r
    end
  end.

Definition WaitForConnection {S : Type} (Err : error -> error)
           (fn : S -> M (S * error)) (s : S) : M (S * error) :=
  let* w := get in
  wait_loop Err (retries w) fn s.

End Sqladapter.

(** ** The Builder collaborator *)

Module Builder.
Import Go Runtime Sqladapter.

(** A nil slice is [None]; [append] always gives a slice that is not nil. *)
Definition append (s : option (list string)) (x : string) : option (list string) :=
  Some (match s with None => [x] | Some l => (l ++ [x])%list end).

(** Modelled from the spec: the Builder "issues Select/Where/From/OrderBy
    style abstract statements and iterates results".  An iterator over a
    query that failed delivers no row ([Next()] is false at once) and keeps
    the failure as its [Err()]. *)
Definition Iterator (d : loc) (s : Statement) : M Cursor :=
  let* sess := Session d in
  run_query sess s.

Definition iter_rows (c : Cursor) : list Row :=
  match cur_query_err c with
  | None => cur_rows c
  | Some _ => []
  end.

Definition iter_Err (c : Cursor) : error :=
  match cur_query_err c with
  | None => cur_iter_err c
  | Some e => Some e
  end.

(** [d.Builder().Query(stmt)]: the rows and the query's error. *)
Definition Query (d : loc) (s : Statement) : M (Cursor * error) :=
  let* sess := Session d in
  let* c := run_query sess s in
  ret (c, cur_query_err c).

(** [builder.NewIterator(rows).All(&columns)]: every row decoded into a
    (name, pk) pair, or the first error met. *)
Fixpoint all_rows (rows : list Row) (end_err : error)
  : list (string * Z) + errorString :=
  match rows with
  | [] => match end_err with
          | None => inl []
          | Some e => inr e
          end
  | r :: rest =>
    match row_scan r with
    | Some e => inr e
    | None =>
      match all_rows rest end_err with
      | inl cols => inl ((row_name r, row_pk r) :: cols)
      | inr e => inr e
      end
    end
  end.

Definition All (c : Cursor) : list (string * Z) + errorString :=
  all_rows (cur_rows c) (cur_iter_err c).

(** [d.Schema()]; using a nil schema panics. *)
Definition Schema_loc (d : loc) : M loc :=
  let* b := base_of d in
  let* v := read_base b in
  match b_schema v with
  | Some s => ret s
  | None => panic nil_deref
  end.

(** [d.Schema().Name()]. *)
Definition Schema_Name (d : loc) : M string :=
  let* s := Schema_loc d in
  let* v := read_schema s in
  ret (sch_name v).

(** Modelled from the spec: [d.Schema().Table(name).PrimaryKeys()], the
    cached list of the table, nil until it is set. *)
Definition PrimaryKeys (d : loc) (tableName : string) : M (option (list string)) :=
  let* s := Schema_loc d in
  let* v := read_schema s in
  ret (match sch_tables v !! tableName with
       | Some t => ts_pk t
       | None => None
       end).

(** Modelled from the spec: [tableSchema.SetPrimaryKeys(pk)] records the
    list in the table's entry of the schema. *)
Definition SetPrimaryKeys (d : loc) (tableName : string)
           (pk : option (list string)) : M unit :=
  let* s := Schema_loc d in
  let* v := read_schema s in
  modify (fun w =>
    set_schemas
      (<[s := mkSchema (sch_name v) (<[tableName := mkTableSchema pk]> (sch_tables v))]>
         (schemas w)) w).

(** Modelled from the spec: [d.NewSchema()] gives the adapter the Schema it
    owns, "created during Open/PopulateSchema": a new, empty one replaces
    the one the runtime pointed to. *)
Definition NewSchema (d : loc) : M loc :=
  let* b := base_of d in
  let* v := read_base b in
  fun w =>
    let s := fresh (dom (schemas w)) in
    (Ret s,
     set_bases (<[b := mkBase (b_partial v) (b_connURL v) (b_sess v) (b_tx v) (Some s)]>
                  (bases w))
       (set_schemas (<[s := mkSchema EmptyString ∅]> (schemas w)) w)).

(** Modelled from the spec: [schema.SetName(name)] records the database
    name in the Schema. *)
Definition SetName (s : loc) (name : string) : M unit :=
  let* v := read_schema s in
  modify (fun w => set_schemas (<[s := mkSchema name (sch_tables v)]> (schemas w)) w).

End Builder.

(** ** [sqlite/database.go] *)

Module Sqlite.
Import Go Runtime Sqladapter Builder.

Record columnSchemaT := mkColumn { Name : string; PK : Z }.

Definition errTooManyOpenFiles : errorString :=
  mkError 10 "Too many open database files.".

(** The value of [errors.New(`Close() without Open()?`)]. *)
Definition errCloseWithoutOpen : errorString :=
  mkError 11 "Close() without Open()?".

Definition maxOpenFiles : Z := 100.

(** [CompileAndReplacePlaceholders], on [stmt.Compile(d.Template())]. *)
Definition CompileAndReplacePlaceholders (compiled : string) : string :=
  compiled.

Definition Err (err : error) : error :=
  match err with
  | Some e =>
    if same_error e errTooManyOpenFiles then Some Db.ErrTooManyClients
    else err
  | None => err
  end.

(** The closure [openFn] of [open]; [sess] is the variable it writes. *)
Definition openFn (d : loc) (sess : option Handle) : M (option Handle * error) :=
  let* openFiles := LoadInt32 in
  if openFiles <? maxOpenFiles then
    let* url := ConnectionURL_String d in
    let* r := sql_Open "sqlite3" url in
    match snd r with
    | None => let* _ := AddInt32 1 in ret r
    | Some _ => ret r
    end
  else ret (sess, Some errTooManyOpenFiles).

Definition open (d : loc) : M error :=
  let* r := WaitForConnection Err (openFn d) None in
  match snd r with
  | Some e => ret (Some e)
  | None => Bind d (fst r)
  end.

Definition Open (d : loc) (connURL : option string) : M error :=
  let* b := NewDatabase d connURL in
  let* _ := set_BaseDatabase d b in
  open d.

Definition Close (d : loc) : M error :=
  let* s := Session d in
  match s with
  | Some _ =>
    let* n := AddInt32 (-1) in
    if n <? 0 then ret (Some errCloseWithoutOpen)
    else Sqladapter.Close d
  | None => ret None
  end.

Definition clone (d : loc) : M (option loc * error) :=
  let* c := new_database in
  let* b := base_of d in
  let* b' := Clone b c in
  let* _ := set_BaseDatabase c b' in
  let* err := open c in
  match err with
  | Some e => ret (None, Some e)
  | None => ret (Some c, None)
  end.

(** The rows of a one-column iterator, scanned one by one. *)
Fixpoint scan_names (rows : list Row) (acc : option (list string))
  : option (list string) * error :=
  match rows with
  | [] => (acc, None)
  | r :: rest =>
    match row_scan r with
    | Some e => (None, Some e)
    | None => scan_names rest (append acc (row_name r))
    end
  end.

Definition Collections (d : loc) : M (option (list string) * error) :=
  let* iter := Iterator d
    (SelectStmt (mkSelector ["tbl_name"] ["sqlite_master"] "type = ?" ["table"] [])) in
  ret (scan_names (iter_rows iter) None).

(** The closure [connFn] of [Transaction]. *)
Definition connFn (c : loc) (sqlTx : option TxHandle) : M (option TxHandle * error) :=
  let* s := Session c in
  sql_Begin s.

Definition Transaction (d : loc) : M (option TxDatabase * error) :=
  let* r := clone d in
  match snd r with
  | Some e => ret (None, Some e)
  | None =>
    match fst r with
    | None => panic nil_deref
    | Some c =>
      let* t := WaitForConnection Err (connFn c) None in
      match snd t with
      | Some e => ret (None, Some e)
      | None =>
        let* _ := BindTx c (fst t) in
        let* tx := Tx c in
        ret (Some (mkTx c tx), None)
      end
    end
  end.

Definition TableExists (d : loc) (name : string) : M error :=
  let* iter := Iterator d
    (SelectStmt (mkSelector ["tbl_name"] ["sqlite_master"]
                            "type = 'table' AND tbl_name = ?" [name] [])) in
  match iter_rows iter with
  | r :: _ => ret (row_scan r)
  | [] => ret (Some Db.ErrCollectionDoesNotExist)
  end.

(** The first loop of [TablePrimaryKey]. *)
Definition max_pk (columns : list columnSchemaT) : Z :=
  fold_left (fun maxValue column =>
               if (0 <? PK column) && (maxValue <? PK column) then PK column
               else maxValue)
            columns (-1).

(** The second loop: the key columns are appended in the order of the
    rows. *)
Definition pk_columns (columns : list columnSchemaT) (pk : list string) : list string :=
  fold_left (fun pk column =>
               if 0 <? PK column then (pk ++ [Name column])%list else pk)
            columns pk.

(** [if d.columns == nil { d.columns = make(...) }]. *)
Definition init_columns (d : loc) : M unit :=
  let* v := read_db d in
  match db_columns v with
  | Some _ => ret tt
  | None =>
    modify (fun w =>
      set_dbs (<[d := mkDatabase (db_BaseDatabase v) (Some ∅)]> (dbs w)) w)
  end.

Definition TablePrimaryKey (d : loc) (tableName : string)
  : M (option (list string) * error) :=
  let* pk := PrimaryKeys d tableName in
  match pk with
  | Some _ => ret (pk, None)
  | None =>
    let stmt := RawSQL ("PRAGMA TABLE_INFO('" ++ tableName ++ "')") in
    let* q := Query d stmt in
    match snd q with
    | Some e => ret (None, Some e)
    | None =>
      let* _ := init_columns d in
      match All (fst q) with
      | inr e => ret (None, Some e)
      | inl cols =>
        let columns := map (fun c => mkColumn (fst c) (snd c)) cols in
        let maxValue := max_pk columns in
        let pk := if 0 <? maxValue then pk_columns columns [] else [] in
        let* _ := SetPrimaryKeys d tableName (Some pk) in
        ret (Some pk, None)
      end
    end
  end.

(** A [db.Database] interface value: nil, or a [*database] pointer, which
    may itself be nil. *)
Inductive Database :=
| nil_Database
| database_ptr (p : option loc).

(** [Clone]: the pair [d.clone()] returns, its pointer converted to the
    interface. *)
Definition Clone (d : loc) : M (Database * error) :=
  let* r := clone d in
  ret (database_ptr (fst r), snd r).

End Sqlite.

(** ** [postgresql/database.go] *)

Module Postgresql.
Import Go Runtime Sqladapter Builder.

(** The loop of [CompileAndReplacePlaceholders] over [buf]: the indices a
    [for i := range buf] visits are the first bytes of the runes of [buf];
    [skip] counts the bytes left of the rune being stepped over, [j] is
    the parameter counter and [query] the text built so far. *)
Fixpoint replace_loop (skip : nat) (j : Z) (query buf : string) : string :=
  match buf with
  | EmptyString => query
  | String b rest =>
    match skip with
    | S k => replace_loop k j query rest
    | O =>
      let width := snd (decoderune buf) in
      if Ascii.eqb b "?"%char
      then replace_loop (width - 1) (j + 1) (query ++ "$" ++ Itoa j) rest
      else replace_loop (width - 1) j (query ++ string_of_byte b) rest
    end
  end.

(** [CompileAndReplacePlaceholders], on [buf = stmt.Compile(d.Template())]. *)
Definition CompileAndReplacePlaceholders (buf : string) : string :=
  replace_loop 0 1 EmptyString buf.

Definition Err (err : error) : error :=
  match err with
  | Some e =>
    let s := err_text e in
    if Contains s "too many clients"
       || Contains s "remaining connection slots are reserved"
    then Some Db.ErrTooManyClients
    else err
  | None => err
  end.

(** The closure [connFn] of [open]. *)
Definition open_connFn (d : loc) (sess : option Handle) : M (option Handle * error) :=
  let* url := ConnectionURL_String d in
  sql_Open "postgres" url.

Definition open (d : loc) : M error :=
  let* r := WaitForConnection Err (open_connFn d) None in
  match snd r with
  | Some e => ret (Some e)
  | None => Bind d (fst r)
  end.

Definition Open (d : loc) (connURL : option string) : M error :=
  match connURL with
  | None => ret (Some Db.ErrMissingConnURL)
  | Some _ =>
    let* b := NewDatabase d connURL in
    let* _ := set_BaseDatabase d b in
    open d
  end.

Definition clone (d : loc) : M (option loc * error) :=
  let* c := new_database in
  let* b := base_of d in
  let* b' := Clone b c in
  let* _ := set_BaseDatabase c b' in
  let* err := open c in
  match err with
  | Some e => ret (None, Some e)
  | None => ret (Some c, None)
  end.

(** The rows of a one-column iterator, scanned one by one. *)
Fixpoint scan_names (rows : list Row) (acc : option (list string))
  : option (list string) * error :=
  match rows with
  | [] => (acc, None)
  | r :: rest =>
    match row_scan r with
    | Some e => (None, Some e)
    | None => scan_names rest (append acc (row_name r))
    end
  end.

Definition Collections (d : loc) : M (option (list string) * error) :=
  let* iter := Iterator d
    (SelectStmt (mkSelector ["table_name"] ["information_schema.tables"]
                            "table_schema = ?" ["public"] [])) in
  ret (scan_names (iter_rows iter) None).

(** The closure [connFn] of [Transaction]. *)
Definition connFn (c : loc) (sqlTx : option TxHandle) : M (option TxHandle * error) :=
  let* s := Session c in
  sql_Begin s.

Definition Transaction (d : loc) : M (option TxDatabase * error) :=
  let* r := clone d in
  match snd r with
  | Some e => ret (None, Some e)
  | None =>
    match fst r with
    | None => panic nil_deref
    | Some c =>
      let* t := WaitForConnection Err (connFn c) None in
      match snd t with
      | Some e => ret (None, Some e)
      | None =>
        let* _ := BindTx c (fst t) in
        let* tx := Tx c in
        ret (Some (mkTx c tx), None)
      end
    end
  end.

Definition TableExists (d : loc) (name : string) : M error :=
  let* catalog := Schema_Name d in
  let* iter := Iterator d
    (SelectStmt (mkSelector ["table_name"] ["information_schema.tables"]
                            "table_catalog = ? AND table_name = ?"
                            [catalog; name] [])) in
  match iter_rows iter with
  | r :: _ => ret (row_scan r)
  | [] => ret (Some Db.ErrCollectionDoesNotExist)
  end.

(** The [Where] text of the primary-key query, around the table name. *)
Definition pkey_where (tableName : string) : string :=
  "pg_class.oid = '" ++ dquote ++ tableName ++ dquote ++ "'::regclass AND indrelid = pg_class.oid AND pg_attribute.attrelid = pg_class.oid AND pg_attribute.attnum = ANY(pg_index.indkey) AND indisprimary".

(** The scanning loop of [TablePrimaryKey], from [pk = []string{}]. *)
Fixpoint scan_pk (rows : list Row) (pk : list string)
  : option (list string) * error :=
  match rows with
  | [] => (Some pk, None)
  | r :: rest =>
    match row_scan r with
    | Some e => (None, Some e)
    | None => scan_pk rest (pk ++ [row_name r])%list
    end
  end.

Definition TablePrimaryKey (d : loc) (tableName : string)
  : M (option (list string) * error) :=
  let* pk := PrimaryKeys d tableName in
  match pk with
  | Some _ => ret (pk, None)
  | None =>
    let* iter := Iterator d
      (SelectStmt (mkSelector ["pg_attribute.attname AS pkey"]
                              ["pg_index"; "pg_class"; "pg_attribute"]
                              (pkey_where tableName) [] ["pkey"])) in
    match scan_pk (iter_rows iter) [] with
    | (Some pk, None) =>
      let* _ := SetPrimaryKeys d tableName (Some pk) in
      ret (Some pk, None)
    | r => ret r
    end
  end.

Definition Clone (d : loc) : M (Sqlite.Database * error) :=
  let* r := clone d in
  ret (Sqlite.database_ptr (fst r), snd r).

(** The statement of [PopulateSchema]: [Select(db.Raw("CURRENT_DATABASE() AS
    name"))]. *)
Definition current_database_stmt : Statement :=
  SelectStmt (mkSelector ["CURRENT_DATABASE() AS name"] [] EmptyString [] []).

(** [PopulateSchema].  [name] is the variable [Scan] fills: the text of the
    row when the row decodes, the empty string otherwise. *)
Definition PopulateSchema (d : loc) : M error :=
  let* schema := NewSchema d in
  let* iter := Iterator d current_database_stmt in
  match iter_rows iter with
  | r :: _ =>
    let err := row_scan r in
    let name := match err with None => row_name r | Some _ => EmptyString end in
    let* _ := SetName schema name in
    ret err
  | [] => ret (iter_Err iter)
  end.

End Postgresql.

(** * Vocabulary of the properties *)

Import Go Runtime Sqladapter Builder.

(** The rewriting the placeholder contract describes: the i-th [?] becomes
    [$i], every other byte is kept. *)
Fixpoint rewrite_from (j : Z) (buf : string) : string :=
  match buf with
  | EmptyString => EmptyString
  | String b rest =>
    if Ascii.eqb b "?"%char then "$" ++ Itoa j ++ rewrite_from (j + 1) rest
    else String b (rewrite_from j rest)
  end.

(** The statement text [é?]: the two bytes of U+00E9, then a placeholder. *)
Definition e_acute_placeholder : string :=
  String (ascii_of_N 195) (String (ascii_of_N 169) "?").

(** The sqlite condition of connection exhaustion: the error is the
    [errTooManyOpenFiles] value. *)
Definition sqlite_exhaustion (err : error) : Prop :=
  exists e, err = Some e /\ err_addr e = err_addr Sqlite.errTooManyOpenFiles.

(** The postgresql condition: the text of the error contains one of the two
    phrases. *)
Definition pg_exhaustion (err : error) : Prop :=
  exists e pre post,
    err = Some e
    /\ (err_text e = pre ++ "too many clients" ++ post
        \/ err_text e = pre ++ "remaining connection slots are reserved" ++ post).

(** Adapter [d] is allocated, its runtime is [b], and [b] holds [bv]. *)
Definition adapter_at (w : World) (d b : loc) (bv : BaseDatabase) : Prop :=
  exists v, dbs w !! d = Some v /\ db_BaseDatabase v = Some b
            /\ bases w !! b = Some bv.

(** The values of an [int32]. *)
Definition int32 (z : Z) : Prop := - 2 ^ 31 <= z < 2 ^ 31.

(** Every run of [m] ends in a state related by [R] to the one it started
    in, whether it returns or panics. *)
Definition keeps (R : relation World) {A : Type} (m : M A) : Prop :=
  forall w, R w (snd (m w)).

(** The counter is where it was. *)
Definition same_count : relation World :=
  fun w w' => fileOpenCount w' = fileOpenCount w.

(** The counter, if it was within [0, maxOpenFiles], still is. *)
Definition within_cap (w : World) : Prop :=
  0 <= fileOpenCount w <= Sqlite.maxOpenFiles.

(** A call that starts with the counter within the cap ends with it within
    the cap. *)
Definition keeps_cap : relation World :=
  fun w w' => within_cap w -> within_cap w'.

(** A state at the cap: adapter 1 is open on handle 7, the counter is 100 and
    the driver will hand out handle 8 next. *)
Definition world_at_cap : World :=
  mkWorld 100 3 [inl 8%positive] [] [] []
          {[ 1%positive := mkDatabase (Some 1%positive) None ]}
          {[ 1%positive := mkBase 1%positive (Some "f.db") (Some 7%positive) None
                                  (Some 1%positive) ]}
          {[ 1%positive := mkSchema "f.db" ∅ ]}.

(** The operations of a client on the sqlite adapters. *)
Inductive Event :=
| EvOpen (d : loc) (connURL : option string)
| EvClose (d : loc)
| EvClone (d : loc)
| EvTransaction (d : loc).

(** One operation, with the error it returns. *)
Definition step (ev : Event) : M error :=
  match ev with
  | EvOpen d connURL => Sqlite.Open d connURL
  | EvClose d => Sqlite.Close d
  | EvClone d => let* r := Sqlite.clone d in ret (snd r)
  | EvTransaction d => let* r := Sqlite.Transaction d in ret (snd r)
  end.

(** The result and the state after each operation of a sequence; a panic
    ends the run. *)
Fixpoint run_events (evs : list Event) (w : World) : list (outcome error * World) :=
  match evs with
  | [] => []
  | ev :: rest =>
    let r := step ev w in
    r :: match fst r with
         | Ret _ => run_events rest (snd r)
         | Panic _ => []
         end
  end.

(** The call returned the error of [Close], "Close() without Open()?". *)
Definition violation (r : outcome error) : bool :=
  match r with
  | Ret (Some e) => same_error e Sqlite.errCloseWithoutOpen
  | _ => false
  end.

(** A fresh process: the counter is 0, adapter 1 is allocated and not yet
    opened, the driver will hand out handle 7. *)
Definition world_fresh : World :=
  mkWorld 0 3 [inl 7%positive] [] [] []
          {[ 1%positive := mkDatabase None None ]} ∅ ∅.

(** Adapter 1 holds handle 7 and the counter is 0: no open is left to match
    a close. *)
Definition world_unmatched : World :=
  mkWorld 0 3 [] [] [] [SqlClose 7%positive; SqlOpen "sqlite3" "f.db"]
          {[ 1%positive := mkDatabase (Some 1%positive) None ]}
          {[ 1%positive := mkBase 1%positive (Some "f.db") (Some 7%positive) None
                                  (Some 1%positive) ]}
          {[ 1%positive := mkSchema EmptyString ∅ ]}.

(** The state in which [Open] calls [open]: adapter [d] has a new runtime
    holding the descriptor, and nothing else has changed. *)
Definition with_runtime (w : World) (d : loc) (connURL : option string)
           (v : database) : World :=
  let s := fresh (dom (schemas w)) in
  let b := fresh (dom (bases w)) in
  set_dbs (<[d := mkDatabase (Some b) (db_columns v)]> (dbs w))
    (set_bases (<[b := mkBase d connURL None None (Some s)]> (bases w))
       (set_schemas (<[s := mkSchema EmptyString ∅]> (schemas w)) w)).

(** Adapter [d] has runtime [b] holding [bv], whose schema is [s] holding
    [sv]. *)
Definition schema_at (w : World) (d b : loc) (bv : BaseDatabase)
           (s : loc) (sv : Schema) : Prop :=
  adapter_at w d b bv /\ b_schema bv = Some s /\ schemas w !! s = Some sv.

(** The cached key list of table [t] in a schema. *)
Definition cached (sv : Schema) (t : string) : option (list string) :=
  match sch_tables sv !! t with
  | Some ts => ts_pk ts
  | None => None
  end.

(** The state after recording [pk] for table [t]. *)
Definition put_pk (w : World) (s : loc) (sv : Schema) (t : string)
           (pk : option (list string)) : World :=
  set_schemas
    (<[s := mkSchema (sch_name sv) (<[t := mkTableSchema pk]> (sch_tables sv))]>
       (schemas w)) w.

(** The backend's next answer. *)
Definition next_cursor (w : World) : Cursor :=
  match cursors w with
  | [] => mkCursor (Some driverDown) [] (Some driverDown)
  | c :: _ => c
  end.

(** The state once statement [stmt] has run on [sess]. *)
Definition after_query (sess : option Handle) (stmt : Statement) (w : World) : World :=
  snd (run_query sess stmt w).

(** The state once [init_columns] has run on adapter [d]. *)
Definition after_init (d : loc) (w : World) : World := snd (Sqlite.init_columns d w).

(** The statement the sqlite discovery runs. *)
Definition sqlite_pk_stmt (t : string) : Statement :=
  RawSQL ("PRAGMA TABLE_INFO('" ++ t ++ "')").

(** The list the two loops of the sqlite discovery build from the decoded
    rows. *)
Definition sqlite_discovered (cols : list (string * Z)) : list string :=
  let columns := map (fun c => Sqlite.mkColumn (fst c) (snd c)) cols in
  if 0 <? Sqlite.max_pk columns then Sqlite.pk_columns columns [] else [].

(** The statement the postgresql discovery runs. *)
Definition pg_pk_stmt (t : string) : Statement :=
  SelectStmt (mkSelector ["pg_attribute.attname AS pkey"]
                         ["pg_index"; "pg_class"; "pg_attribute"]
                         (Postgresql.pkey_where t) [] ["pkey"]).

(** Adapter 1 is open on handle 7; the backend's answers are [answers]. *)
Definition world_open (answers : list Cursor) : World :=
  mkWorld 1 3 [] [] answers []
          {[ 1%positive := mkDatabase (Some 1%positive) None ]}
          {[ 1%positive := mkBase 1%positive (Some "f.db") (Some 7%positive) None
                                  (Some 1%positive) ]}
          {[ 1%positive := mkSchema "f.db" ∅ ]}.

(** The error of a failed read. *)
Definition ioError : errorString := mkError 60 "disk I/O error".

(** The rows of a table-info answer that belong to the key. *)
Definition key_rows (cols : list (string * Z)) : list (string * Z) :=
  List.filter (fun c => 0 <? snd c) cols.

(** The order the ordering contract names for sqlite: the key columns by
    their [pk] ordinal. *)
Fixpoint insert_by_ordinal (c : string * Z) (l : list (string * Z))
  : list (string * Z) :=
  match l with
  | [] => [c]
  | x :: rest =>
    if snd c <=? snd x then c :: l else x :: insert_by_ordinal c rest
  end.

(** The key columns sorted by ordinal. *)
Definition pk_by_ordinal (cols : list (string * Z)) : list string :=
  map fst (foldr insert_by_ordinal [] (key_rows cols)).

(** The ordinals of the rows never decrease along the list. *)
Fixpoint ordinals_increase (l : list (string * Z)) : bool :=
  match l with
  | [] => true
  | x :: rest =>
    match rest with
    | [] => true
    | y :: _ => (snd x <=? snd y) && ordinals_increase rest
    end
  end.

(** Lexicographic order of names, byte by byte. *)
Fixpoint names_sorted (l : list string) : bool :=
  match l with
  | [] => true
  | x :: rest =>
    match rest with
    | [] => true
    | y :: _ => String.leb x y && names_sorted rest
    end
  end.

(** The statement the sqlite [Collections] sends. *)
Definition sqlite_collections_stmt : Statement :=
  SelectStmt (mkSelector ["tbl_name"] ["sqlite_master"] "type = ?" ["table"] []).

(** The statement the sqlite [TableExists] sends for [name]. *)
Definition sqlite_exists_stmt (name : string) : Statement :=
  SelectStmt (mkSelector ["tbl_name"] ["sqlite_master"]
                         "type = 'table' AND tbl_name = ?" [name] []).

(** The statement the postgresql [TableExists] sends for [name]. *)
Definition pg_exists_stmt (catalog name : string) : Statement :=
  SelectStmt (mkSelector ["table_name"] ["information_schema.tables"]
                         "table_catalog = ? AND table_name = ?" [catalog; name] []).

(** A row of SQLite's [sqlite_master] catalog. *)
Record MasterRow := mkMaster { m_type : string; m_name : string; m_tbl_name : string }.

(** SQLite's answer to [SELECT tbl_name FROM sqlite_master WHERE type = ?]:
    the [tbl_name] of every row of that type, in catalog order. *)
Definition sqlite_master_by_type (master : list MasterRow) (ty : string) : Cursor :=
  mkCursor None
           (map (fun r => mkRow (m_tbl_name r) 0 None)
                (List.filter (fun r => String.eqb (m_type r) ty) master))
           None.

(** Names starting with [sqlite_] are reserved by SQLite for its internal
    tables. *)
Definition sqlite_internal (name : string) : bool := String.prefix "sqlite_" name.

(** The catalog of a database holding one table created with an
    AUTOINCREMENT key: SQLite keeps its counters in [sqlite_sequence], which
    the catalog lists with type [table]. *)
Definition master_autoincrement : list MasterRow :=
  [mkMaster "table" "users" "users";
   mkMaster "table" "sqlite_sequence" "sqlite_sequence";
   mkMaster "index" "users_email" "users"].

(** The three heaps are what they were. *)
Definition heap_same : relation World :=
  fun w w' => dbs w' = dbs w /\ bases w' = bases w /\ schemas w' = schemas w.

(** A call on adapter [c], whose runtime [bc] is not [b], leaves every
    adapter's pointer to its runtime and the runtime [b] as they were, and
    [bc] allocated. *)
Definition spares (c b : loc) : relation World :=
  fun w w' =>
    forall bc,
      (exists v, dbs w !! c = Some v /\ db_BaseDatabase v = Some bc) ->
      bc <> b -> is_Some (bases w !! bc) ->
      dbs w' = dbs w /\ bases w' !! b = bases w !! b /\ is_Some (bases w' !! bc).

(** The state in which [clone] calls [open] on the new adapter: a new
    adapter, and a new runtime sharing the descriptor and the schema of
    [bv], with no handle of its own yet. *)
Definition cloned (w : World) (bv : BaseDatabase) : World :=
  let c := fresh (dom (dbs w)) in
  let b' := fresh (dom (bases w)) in
  mkWorld (fileOpenCount w) (retries w) (opens w) (begins w) (cursors w) (calls w)
          (<[c := mkDatabase (Some b') None]> (<[c := mkDatabase None None]> (dbs w)))
          (<[b' := mkBase c (b_connURL bv) None None (b_schema bv)]> (bases w))
          (schemas w).

(** What [clone] does after [open]. *)
Definition clone_result (c : loc) (err : error) : M (option loc * error) :=
  match err with
  | Some e => ret (None, Some e)
  | None => ret (Some c, None)
  end.

(** What [Transaction] does once the clone [c] is open. *)
Definition transaction_tail (Err : error -> error) (c : loc)
  : M (option TxDatabase * error) :=
  let* t := WaitForConnection Err (Sqlite.connFn c) None in
  match snd t with
  | Some e => ret (None, Some e)
  | None =>
    let* _ := BindTx c (fst t) in
    let* tx := Tx c in
    ret (Some (mkTx c tx), None)
  end.

(** [Transaction], over the dialect's translator and [clone]. *)
Definition transaction_of (Err : error -> error)
           (clone : loc -> M (option loc * error)) (d : loc)
  : M (option TxDatabase * error) :=
  let* r := clone d in
  match snd r with
  | Some e => ret (None, Some e)
  | None =>
    match fst r with
    | None => panic nil_deref
    | Some c => transaction_tail Err c
    end
  end.

(** Adapter 1 is open on handle 7; the driver will hand out handle 8 to the
    clone and transaction 9 to its [Begin]. *)
Definition world_before_tx : World :=
  mkWorld 1 3 [inl 8%positive] [inl 9%positive] [] []
          {[ 1%positive := mkDatabase (Some 1%positive) None ]}
          {[ 1%positive := mkBase 1%positive (Some "f.db") (Some 7%positive) None
                                  (Some 1%positive) ]}
          {[ 1%positive := mkSchema "f.db" ∅ ]}.

(** The first [k] bytes of [s] are there and are continuation bytes. *)
Fixpoint all_cont (k : nat) (s : string) : bool :=
  match k with
  | O => true
  | S k' =>
    match s with
    | EmptyString => false
    | String c rest => is_cont c && all_cont k' rest
    end
  end.

(** The state once [open] has succeeded on an adapter whose runtime [b]
    held [bv]: the driver was asked once, handed out [h], the counter went
    up by one and [b] holds the handle. *)
Definition opened (w : World) (b : loc) (bv : BaseDatabase) (url : string)
           (h : Handle) (rest : list (Handle + errorString)) : World :=
  mkWorld (fileOpenCount w + 1) (retries w) rest (begins w) (cursors w)
          (SqlOpen "sqlite3" url :: calls w) (dbs w)
          (<[b := mkBase (b_partial bv) (b_connURL bv) (Some h) (b_tx bv) (b_schema bv)]>
             (bases w))
          (schemas w).

(** The state once the sqlite [Transaction] has succeeded from a state [w]
    in which the adapter's runtime held [bv]: the clone opened on [h], and
    the transaction [t] begun on [h] is bound to the clone's runtime. *)
Definition tx_started (w : World) (bv : BaseDatabase) (url : string) (h : Handle)
           (rest : list (Handle + errorString)) (t : TxHandle)
           (rest' : list (TxHandle + errorString)) : World :=
  let c := fresh (dom (dbs w)) in
  let b' := fresh (dom (bases w)) in
  let w1 := opened (cloned w bv) b'
                   (mkBase c (b_connURL bv) None None (b_schema bv)) url h rest in
  set_bases (<[b' := mkBase c (b_connURL bv) (Some h) (Some t) (b_schema bv)]> (bases w1))
            (set_begins rest' (log_call (SqlBegin h) w1)).

(** * Properties *)

(** ** Strings *)

Lemma string_app_nil_l (t : string) : EmptyString ++ t = t.
Proof. reflexivity. Qed.

Lemma string_app_cons (a : ascii) (s t : string) :
  String a s ++ t = String a (s ++ t).
Proof. reflexivity. Qed.

Lemma string_app_nil_r (s : string) : s ++ EmptyString = s.
Proof.
  induction s as [|a s' IH]; [reflexivity |].
  now rewrite string_app_cons, IH.
Qed.

Lemma string_app_assoc (a b c : string) : (a ++ b) ++ c = a ++ (b ++ c).
Proof.
  induction a as [|x a' IH]; [reflexivity |].
  now rewrite !string_app_cons, IH.
Qed.

Lemma prefix_true_iff (p s : string) :
  String.prefix p s = true <-> exists post, s = p ++ post.
Proof.
  revert s. induction p as [|a p IH]; intros s.
  - split; [intros _; now exists s | intros _; now destruct s].
  - destruct s as [|b s]; simpl.
    + split; [discriminate | intros [post H]; discriminate].
    + destruct (ascii_dec a b) as [->|Hne].
      * rewrite IH. split; intros [post H]; exists post.
        -- now rewrite string_app_cons, H.
        -- rewrite string_app_cons in H. now inversion H.
      * split; [discriminate |].
        intros [post H]. rewrite string_app_cons in H. congruence.
Qed.

(** [Contains s substr] holds exactly when [substr] occurs in [s]. *)
Lemma Contains_true_iff (s substr : string) :
  Contains s substr = true <-> exists pre post, s = pre ++ substr ++ post.
Proof.
  induction s as [|a s IH].
  - change (Contains EmptyString substr)
      with (String.prefix substr EmptyString || false).
    rewrite orb_false_r, prefix_true_iff. split.
    + intros [post H]. now exists EmptyString, post.
    + intros [pre [post H]]. destruct pre; [now exists post | discriminate].
  - change (Contains (String a s) substr)
      with (String.prefix substr (String a s) || Contains s substr).
    rewrite orb_true_iff, prefix_true_iff, IH. split.
    + intros [[post H] | [pre [post H]]].
      * now exists EmptyString, post.
      * exists (String a pre), post. now rewrite string_app_cons, H.
    + intros [pre [post H]]. destruct pre as [|b pre].
      * left. now exists post.
      * right. rewrite string_app_cons in H. inversion H. now exists pre, post.
Qed.

(** ** Placeholders *)

Lemma replace_loop_ascii (buf : string) :
  forall j query,
    is_ascii buf = true ->
    Postgresql.replace_loop 0 j query buf = query ++ rewrite_from j buf.
Proof.
  induction buf as [|b rest IH]; intros j query Hasc; simpl.
  - now rewrite string_app_nil_r.
  - simpl in Hasc. apply andb_prop in Hasc as [Hb Hrest].
    rewrite Hb. simpl.
    destruct (Ascii.eqb b "?"%char).
    + rewrite IH by assumption. now rewrite !string_app_assoc.
    + rewrite IH by assumption. unfold string_of_byte. rewrite Hb.
      now rewrite string_app_assoc.
Qed.

(** X1. On text without bytes above 0x7F the postgresql rewriting is the
    contract's: the i-th placeholder becomes [$i], the rest is kept. *)
Lemma pg_placeholders_ascii (buf : string) :
  is_ascii buf = true ->
  Postgresql.CompileAndReplacePlaceholders buf = rewrite_from 1 buf.
Proof.
  intros H. unfold Postgresql.CompileAndReplacePlaceholders.
  now rewrite replace_loop_ascii.
Qed.

Lemma pg_placeholders_ascii_witness :
  is_ascii "a = ? AND b = ?" = true
  /\ Postgresql.CompileAndReplacePlaceholders "a = ? AND b = ?"
     = rewrite_from 1 "a = ? AND b = ?".
Proof.
  split; [reflexivity | apply (pg_placeholders_ascii "a = ? AND b = ?"); reflexivity].
Defined.

(** C4. The postgresql rewriting does not leave the other characters
    unchanged: on [é?] it produces the bytes C3 83 ([Ã]) followed by [$1],
    where the contract's rewriting keeps C3 A9.  The loop ranges over the
    runes of the text but copies [string(buf[i])], the encoding of the first
    byte of each rune taken as a code point.  The sqlite rewriting returns
    the text as it is. *)
Theorem pg_placeholders_non_ascii :
  Postgresql.CompileAndReplacePlaceholders e_acute_placeholder
  = String (ascii_of_N 195) (String (ascii_of_N 131) "$1")
  /\ rewrite_from 1 e_acute_placeholder
     = String (ascii_of_N 195) (String (ascii_of_N 169) "$1")
  /\ Postgresql.CompileAndReplacePlaceholders e_acute_placeholder
     <> rewrite_from 1 e_acute_placeholder
  /\ Sqlite.CompileAndReplacePlaceholders e_acute_placeholder
     = e_acute_placeholder.
Proof.
  repeat split; try reflexivity. vm_compute. discriminate.
Qed.

(** ** Error translation *)

Lemma sqlite_Err_exhaustion (err : error) :
  sqlite_exhaustion err -> Sqlite.Err err = Some Db.ErrTooManyClients.
Proof.
  intros [e [-> Haddr]]. unfold Sqlite.Err, same_error.
  rewrite Haddr. now rewrite Pos.eqb_refl.
Qed.

Lemma sqlite_Err_other (err : error) :
  ~ sqlite_exhaustion err -> Sqlite.Err err = err.
Proof.
  intros Hno. destruct err as [e|]; [|reflexivity].
  unfold Sqlite.Err, same_error.
  destruct (Pos.eqb_spec (err_addr e) (err_addr Sqlite.errTooManyOpenFiles)) as [Heq|Hne];
    [|reflexivity].
  exfalso. apply Hno. now exists e.
Qed.

Lemma pg_Err_exhaustion (err : error) :
  pg_exhaustion err -> Postgresql.Err err = Some Db.ErrTooManyClients.
Proof.
  intros [e [pre [post [-> Htext]]]]. unfold Postgresql.Err.
  assert (Contains (err_text e) "too many clients"
          || Contains (err_text e) "remaining connection slots are reserved" = true) as ->;
    [|reflexivity].
  apply orb_true_iff.
  destruct Htext as [H|H]; [left|right]; apply Contains_true_iff; eauto.
Qed.

Lemma pg_Err_other (err : error) :
  ~ pg_exhaustion err -> Postgresql.Err err = err.
Proof.
  intros Hno. destruct err as [e|]; [|reflexivity].
  unfold Postgresql.Err.
  destruct (Contains (err_text e) "too many clients"
            || Contains (err_text e) "remaining connection slots are reserved") eqn:Hc;
    [|reflexivity].
  exfalso. apply Hno. apply orb_true_iff in Hc.
  destruct Hc as [H|H]; apply Contains_true_iff in H as [pre [post H]];
    exists e, pre, post; eauto.
Qed.

(** C6. [Err] maps the connection-exhaustion conditions of each backend to
    [db.ErrTooManyClients] (sqlite: the [errTooManyOpenFiles] value;
    postgresql: a text containing "too many clients" or "remaining
    connection slots are reserved") and returns every other error, nil
    included, unchanged. *)
Theorem Err_maps_exhaustion_only (err : error) :
  (sqlite_exhaustion err -> Sqlite.Err err = Some Db.ErrTooManyClients)
  /\ (~ sqlite_exhaustion err -> Sqlite.Err err = err)
  /\ (pg_exhaustion err -> Postgresql.Err err = Some Db.ErrTooManyClients)
  /\ (~ pg_exhaustion err -> Postgresql.Err err = err)
  /\ ~ sqlite_exhaustion None /\ ~ pg_exhaustion None.
Proof.
  split; [apply sqlite_Err_exhaustion|].
  split; [apply sqlite_Err_other|].
  split; [apply pg_Err_exhaustion|].
  split; [apply pg_Err_other|].
  split; [intros [e [H _]]; discriminate | intros [e [pre [post [H _]]]]; discriminate].
Qed.

(** The translation at the sqlite value, at a postgresql text with the
    phrase inside, and at an unrelated error. *)
Lemma Err_maps_exhaustion_only_witness :
  Sqlite.Err (Some Sqlite.errTooManyOpenFiles) = Some Db.ErrTooManyClients
  /\ Postgresql.Err (Some (mkError 50 "pq: sorry, too many clients already"))
     = Some Db.ErrTooManyClients
  /\ Sqlite.Err (Some (mkError 51 "disk I/O error")) = Some (mkError 51 "disk I/O error").
Proof.
  split; [|split].
  - apply (proj1 (Err_maps_exhaustion_only (Some Sqlite.errTooManyOpenFiles))).
    exists Sqlite.errTooManyOpenFiles. split; reflexivity.
  - apply (proj1 (proj2 (proj2 (Err_maps_exhaustion_only
             (Some (mkError 50 "pq: sorry, too many clients already")))))).
    exists (mkError 50 "pq: sorry, too many clients already"), "pq: sorry, ", " already".
    split; [reflexivity | left; reflexivity].
  - apply (proj1 (proj2 (Err_maps_exhaustion_only (Some (mkError 51 "disk I/O error"))))).
    intros [e [He Haddr]]. injection He as <-. discriminate Haddr.
Defined.

(** ** Reading adapters in the heap *)

Lemma read_db_at w d v : dbs w !! d = Some v -> read_db d w = (Ret v, w).
Proof. intros H. unfold read_db. now rewrite H. Qed.

Lemma read_base_at w b bv : bases w !! b = Some bv -> read_base b w = (Ret bv, w).
Proof. intros H. unfold read_base. now rewrite H. Qed.

Lemma base_of_at w d b bv : adapter_at w d b bv -> base_of d w = (Ret b, w).
Proof.
  intros [v [Hd [Hb _]]]. unfold base_of, bind.
  rewrite (read_db_at _ _ _ Hd), Hb. reflexivity.
Qed.

Lemma Session_at w d b bv :
  adapter_at w d b bv -> Session d w = (Ret (b_sess bv), w).
Proof.
  intros H. unfold Session, bind. rewrite (base_of_at _ _ _ _ H).
  destruct H as [v [_ [_ Hb]]]. now rewrite (read_base_at _ _ _ Hb).
Qed.

Lemma Tx_at w d b bv :
  adapter_at w d b bv -> Tx d w = (Ret (b_tx bv), w).
Proof.
  intros H. unfold Tx, bind. rewrite (base_of_at _ _ _ _ H).
  destruct H as [v [_ [_ Hb]]]. now rewrite (read_base_at _ _ _ Hb).
Qed.

Lemma ConnectionURL_String_at w d b bv url :
  adapter_at w d b bv -> b_connURL bv = Some url ->
  ConnectionURL_String d w = (Ret url, w).
Proof.
  intros H Hurl. unfold ConnectionURL_String, bind. rewrite (base_of_at _ _ _ _ H).
  destruct H as [v [_ [_ Hb]]]. now rewrite (read_base_at _ _ _ Hb), Hurl.
Qed.

Lemma ConnectionURL_String_nil w d b bv :
  adapter_at w d b bv -> b_connURL bv = None ->
  ConnectionURL_String d w = (Panic nil_deref, w).
Proof.
  intros H Hurl. unfold ConnectionURL_String, bind. rewrite (base_of_at _ _ _ _ H).
  destruct H as [v [_ [_ Hb]]]. now rewrite (read_base_at _ _ _ Hb), Hurl.
Qed.

Lemma Close_runtime_at w d b bv h :
  adapter_at w d b bv -> b_sess bv = Some h ->
  Sqladapter.Close d w = (Ret None, log_call (SqlClose h) w).
Proof.
  intros H Hs. unfold Sqladapter.Close, bind. rewrite (base_of_at _ _ _ _ H).
  destruct H as [v [_ [_ Hb]]]. now rewrite (read_base_at _ _ _ Hb), Hs.
Qed.

(** ** The counter *)

Lemma wrap32_id (z : Z) : int32 z -> wrap32 z = z.
Proof.
  unfold int32, wrap32. intros H.
  rewrite Z.mod_small by lia. lia.
Qed.

(** At or above the cap [openFn] fails at once and nothing changes. *)
Lemma openFn_at_cap w d sess :
  Sqlite.maxOpenFiles <= fileOpenCount w ->
  Sqlite.openFn d sess w = (Ret (sess, Some Sqlite.errTooManyOpenFiles), w).
Proof.
  intros H. unfold Sqlite.openFn, bind, LoadInt32.
  apply Z.ltb_ge in H. now rewrite H.
Qed.

(** Below the cap, with a descriptor, [openFn] calls the driver; the counter
    moves, by one, exactly when the driver hands out a handle. *)
Lemma openFn_below_cap w d b bv url sess :
  fileOpenCount w < Sqlite.maxOpenFiles ->
  adapter_at w d b bv -> b_connURL bv = Some url ->
  let w1 := log_call (SqlOpen "sqlite3" url) w in
  Sqlite.openFn d sess w =
  match opens w with
  | [] => (Ret (None, Some driverDown), w1)
  | inl h :: rest =>
    (Ret (Some h, None),
     set_fileOpenCount (wrap32 (fileOpenCount w + 1)) (set_opens rest w1))
  | inr e :: rest => (Ret (None, Some e), set_opens rest w1)
  end.
Proof.
  intros Hlt Hat Hurl w1. unfold Sqlite.openFn, bind at 1. unfold LoadInt32.
  apply Z.ltb_lt in Hlt. rewrite Hlt. unfold bind at 1.
  rewrite (ConnectionURL_String_at _ _ _ _ _ Hat Hurl).
  unfold bind, sql_Open. fold w1.
  destruct (opens w) as [|[h|e] rest]; reflexivity.
Qed.

(** ** What a call leaves related: a small frame calculus *)

Section Keeps.
Context (R : relation World) `{!PreOrder R}.

Lemma keeps_ret {A} (a : A) : keeps R (ret a).
Proof. intros w. simpl. reflexivity. Qed.

Lemma keeps_panic {A} (msg : string) : keeps R (@panic A msg).
Proof. intros w. simpl. reflexivity. Qed.

Lemma keeps_get : keeps R get.
Proof. intros w. simpl. reflexivity. Qed.

Lemma keeps_bind {A B} (m : M A) (k : A -> M B) :
  keeps R m -> (forall a, keeps R (k a)) -> keeps R (bind m k).
Proof.
  intros Hm Hk w. unfold bind.
  specialize (Hm w). destruct (m w) as [[a|msg] w']; simpl in *.
  - transitivity w'; [exact Hm | apply Hk].
  - exact Hm.
Qed.

Lemma keeps_modify (f : World -> World) :
  (forall w, R w (f w)) -> keeps R (modify f).
Proof. intros H w. apply H. Qed.

Lemma keeps_wait_loop {S : Type} (Err : error -> error) (n : nat)
      (fn : S -> M (S * error)) :
  (forall s, keeps R (fn s)) -> forall s, keeps R (wait_loop Err n fn s).
Proof.
  intros Hfn. induction n as [|n IH]; intros s; simpl;
    (apply keeps_bind; [apply Hfn|]); intros r;
    repeat case_match; auto using @keeps_ret.
Qed.

Lemma keeps_WaitForConnection {S : Type} (Err : error -> error)
      (fn : S -> M (S * error)) (s : S) :
  (forall s, keeps R (fn s)) -> keeps R (WaitForConnection Err fn s).
Proof.
  intros Hfn. unfold WaitForConnection.
  apply keeps_bind; [apply keeps_get|]. intros w. now apply keeps_wait_loop.
Qed.
End Keeps.

#[local] Instance same_count_preorder : PreOrder same_count.
Proof.
  split; [intros w; reflexivity|].
  intros a b c Hab Hbc. unfold same_count in *. congruence.
Qed.

#[local] Instance keeps_cap_preorder : PreOrder keeps_cap.
Proof. split; [intros w H; exact H | intros a b c Hab Hbc H; auto]. Qed.

Lemma same_count_cap {A} (m : M A) : keeps same_count m -> keeps keeps_cap m.
Proof. intros H w Hw. unfold within_cap. specialize (H w). unfold same_count in H. now rewrite H. Qed.

(** The operations that do not touch the counter. *)
Ltac same_count_prim :=
  intros w; unfold same_count;
  repeat (unfold read_db, read_base, read_schema, write_base, modify, ret,
          panic, bind, get; simpl);
  repeat case_match; simplify_eq; reflexivity.

Lemma same_count_read_db d : keeps same_count (read_db d).
Proof. same_count_prim. Qed.

Lemma same_count_base_of d : keeps same_count (base_of d).
Proof. unfold base_of. same_count_prim. Qed.

Lemma same_count_read_base b : keeps same_count (read_base b).
Proof. same_count_prim. Qed.

Lemma same_count_write_base b v : keeps same_count (write_base b v).
Proof. same_count_prim. Qed.

Lemma same_count_Session d : keeps same_count (Session d).
Proof. unfold Session, base_of. same_count_prim. Qed.

Lemma same_count_Tx d : keeps same_count (Tx d).
Proof. unfold Tx, base_of. same_count_prim. Qed.

Lemma same_count_ConnectionURL_String d : keeps same_count (ConnectionURL_String d).
Proof. unfold ConnectionURL_String, base_of. same_count_prim. Qed.

Lemma same_count_Bind d s : keeps same_count (Bind d s).
Proof. unfold Bind, base_of. same_count_prim. Qed.

Lemma same_count_BindTx d t : keeps same_count (BindTx d t).
Proof. unfold BindTx, base_of. same_count_prim. Qed.

Lemma same_count_Close d : keeps same_count (Sqladapter.Close d).
Proof. unfold Sqladapter.Close, base_of. same_count_prim. Qed.

Lemma same_count_set_BaseDatabase d b : keeps same_count (set_BaseDatabase d b).
Proof. unfold set_BaseDatabase. same_count_prim. Qed.

Lemma same_count_new_database : keeps same_count new_database.
Proof. unfold new_database. same_count_prim. Qed.

Lemma same_count_NewDatabase d u : keeps same_count (NewDatabase d u).
Proof. unfold NewDatabase. same_count_prim. Qed.

Lemma same_count_Clone b p : keeps same_count (Clone b p).
Proof. unfold Clone. same_count_prim. Qed.

Lemma same_count_sql_Open drv dsn : keeps same_count (sql_Open drv dsn).
Proof. unfold sql_Open. same_count_prim. Qed.

Lemma same_count_sql_Begin s : keeps same_count (sql_Begin s).
Proof. unfold sql_Begin. destruct s; same_count_prim. Qed.

Lemma same_count_run_query s q : keeps same_count (run_query s q).
Proof. unfold run_query. same_count_prim. Qed.

Lemma ConnectionURL_String_pure d w : snd (ConnectionURL_String d w) = w.
Proof.
  unfold ConnectionURL_String, base_of, read_db, read_base, bind, ret, panic.
  repeat case_match; simplify_eq; reflexivity.
Qed.

(** Whatever the state, [openFn] either leaves the counter alone or adds
    one to it; it adds one exactly when it was below the cap and the driver
    handed out a handle, and it fails at once, without a driver call, at or
    above the cap. *)
Lemma openFn_counter w d sess :
  (fileOpenCount (snd (Sqlite.openFn d sess w)) = fileOpenCount w
   /\ forall h, fst (Sqlite.openFn d sess w) <> Ret (h, None))
  \/ (fileOpenCount w < Sqlite.maxOpenFiles
      /\ fileOpenCount (snd (Sqlite.openFn d sess w)) = wrap32 (fileOpenCount w + 1)
      /\ exists h url rest,
           fst (Sqlite.openFn d sess w) = Ret (Some h, None)
           /\ opens w = inl h :: rest
           /\ calls (snd (Sqlite.openFn d sess w)) = SqlOpen "sqlite3" url :: calls w).
Proof.
  remember (Sqlite.openFn d sess w) as r eqn:Hr.
  unfold Sqlite.openFn, bind, LoadInt32 in Hr.
  pose proof (ConnectionURL_String_pure d w) as Hpure.
  destruct (fileOpenCount w <? Sqlite.maxOpenFiles) eqn:Hlt.
  - destruct (ConnectionURL_String d w) as [[url|msg] w']; simpl in Hpure; subst w'.
    + unfold sql_Open in Hr.
      destruct (opens w) as [|[h|e] rest]; subst r; simpl.
      * left. split; [reflexivity | intros ?; discriminate].
      * right. apply Z.ltb_lt in Hlt. split; [exact Hlt|]. split; [reflexivity|].
        exists h, url, rest. auto.
      * left. split; [reflexivity | intros ?; discriminate].
    + subst r. left. split; [reflexivity | intros ?; discriminate].
  - subst r. left. split; [reflexivity | intros ?; discriminate].
Qed.

(** [Close] of an adapter with a live handle: the counter is decremented
    first; a negative result is reported and the runtime is not closed. *)
Lemma Close_live w d b bv h :
  adapter_at w d b bv -> b_sess bv = Some h ->
  Sqlite.Close d w =
  let n := wrap32 (fileOpenCount w - 1) in
  if n <? 0 then (Ret (Some Sqlite.errCloseWithoutOpen), set_fileOpenCount n w)
  else (Ret None, log_call (SqlClose h) (set_fileOpenCount n w)).
Proof.
  intros Hat Hs. unfold Sqlite.Close, bind at 1.
  rewrite (Session_at _ _ _ _ Hat), Hs.
  unfold bind, AddInt32, ret. simpl.
  replace (fileOpenCount w + -1) with (fileOpenCount w - 1) by lia.
  destruct (wrap32 (fileOpenCount w - 1) <? 0); [reflexivity|].
  now apply (Close_runtime_at _ d b bv h).
Qed.

(** C2. Admission control of the sqlite adapter.  With the counter at or
    above [maxOpenFiles], [openFn] returns [errTooManyOpenFiles] and leaves
    the state, the log of driver calls included, as it was.  In any state
    the counter moves only by the increment that follows a successful native
    open.  With the counter at the cap, closing an adapter that holds a
    live handle brings it to [maxOpenFiles - 1], and the next [openFn]
    calls the driver's [sql.Open]; when the driver hands out a handle the
    attempt succeeds and the counter is back at the cap. *)
Theorem sqlite_admission_control (w : World) (d : loc) (sess : option Handle) :
  (Sqlite.maxOpenFiles <= fileOpenCount w ->
   Sqlite.openFn d sess w = (Ret (sess, Some Sqlite.errTooManyOpenFiles), w))
  /\ ((fileOpenCount (snd (Sqlite.openFn d sess w)) = fileOpenCount w
       /\ forall h, fst (Sqlite.openFn d sess w) <> Ret (h, None))
      \/ (fileOpenCount w < Sqlite.maxOpenFiles
          /\ fileOpenCount (snd (Sqlite.openFn d sess w)) = wrap32 (fileOpenCount w + 1)
          /\ exists h url rest,
               fst (Sqlite.openFn d sess w) = Ret (Some h, None)
               /\ opens w = inl h :: rest
               /\ calls (snd (Sqlite.openFn d sess w))
                  = SqlOpen "sqlite3" url :: calls w))
  /\ (forall d1 b1 bv1 h1 b bv url,
        fileOpenCount w = Sqlite.maxOpenFiles ->
        adapter_at w d1 b1 bv1 -> b_sess bv1 = Some h1 ->
        adapter_at w d b bv -> b_connURL bv = Some url ->
        exists w1,
          Sqlite.Close d1 w = (Ret None, w1)
          /\ fileOpenCount w1 = Sqlite.maxOpenFiles - 1
          /\ calls (snd (Sqlite.openFn d sess w1))
             = SqlOpen "sqlite3" url :: calls w1
          /\ forall h rest,
               opens w = inl h :: rest ->
               fst (Sqlite.openFn d sess w1) = Ret (Some h, None)
               /\ fileOpenCount (snd (Sqlite.openFn d sess w1))
                  = Sqlite.maxOpenFiles).
Proof.
  split; [apply openFn_at_cap|]. split; [apply openFn_counter|].
  intros d1 b1 bv1 h1 b bv url Hcap Hat1 Hs1 Hat Hurl.
  rewrite (Close_live _ _ _ _ _ Hat1 Hs1), Hcap. simpl.
  eexists. split; [reflexivity|]. split; [reflexivity|].
  match goal with |- context [Sqlite.openFn d sess ?w1] =>
    assert (Sqlite.openFn d sess w1 =
            match opens w1 with
            | [] => (Ret (None, Some driverDown), log_call (SqlOpen "sqlite3" url) w1)
            | inl h :: rest =>
              (Ret (Some h, None),
               set_fileOpenCount (wrap32 (fileOpenCount w1 + 1))
                 (set_opens rest (log_call (SqlOpen "sqlite3" url) w1)))
            | inr e :: rest =>
              (Ret (None, Some e), set_opens rest (log_call (SqlOpen "sqlite3" url) w1))
            end) as ->
      by (apply (openFn_below_cap w1 d b bv url sess); [reflexivity | exact Hat | exact Hurl])
  end.
  simpl. split.
  - destruct (opens w) as [|[h|e] rest]; reflexivity.
  - intros h rest ->. split; reflexivity.
Qed.

Lemma sqlite_admission_control_witness :
  Sqlite.openFn 1%positive None world_at_cap
  = (Ret (None, Some Sqlite.errTooManyOpenFiles), world_at_cap)
  /\ exists w1,
       Sqlite.Close 1%positive world_at_cap = (Ret None, w1)
       /\ fileOpenCount w1 = Sqlite.maxOpenFiles - 1
       /\ calls (snd (Sqlite.openFn 1%positive None w1))
          = SqlOpen "sqlite3" "f.db" :: calls w1
       /\ forall h rest,
            opens world_at_cap = inl h :: rest ->
            fst (Sqlite.openFn 1%positive None w1) = Ret (Some h, None)
            /\ fileOpenCount (snd (Sqlite.openFn 1%positive None w1))
               = Sqlite.maxOpenFiles.
Proof.
  destruct (sqlite_admission_control world_at_cap 1%positive None) as [Hcap [_ Hnext]].
  split.
  - apply Hcap. vm_compute. discriminate.
  - apply (Hnext 1%positive 1%positive
             (mkBase 1%positive (Some "f.db") (Some 7%positive) None (Some 1%positive))
             7%positive 1%positive
             (mkBase 1%positive (Some "f.db") (Some 7%positive) None (Some 1%positive))
             "f.db").
    + reflexivity.
    + exists (mkDatabase (Some 1%positive) None). repeat split; reflexivity.
    + reflexivity.
    + exists (mkDatabase (Some 1%positive) None). repeat split; reflexivity.
    + reflexivity.
Defined.

(** ** The counter over sequences of opens and closes *)

Lemma keeps_cap_openFn d sess : keeps keeps_cap (Sqlite.openFn d sess).
Proof.
  intros w Hw. unfold within_cap, Sqlite.maxOpenFiles in *.
  destruct (openFn_counter w d sess) as [[H _]|[Hlt [H _]]]; rewrite H; [lia|].
  unfold Sqlite.maxOpenFiles in Hlt.
  rewrite wrap32_id by (unfold int32; lia). lia.
Qed.

Lemma keeps_cap_open d : keeps keeps_cap (Sqlite.open d).
Proof.
  unfold Sqlite.open. apply keeps_bind; [apply _| |].
  - apply keeps_WaitForConnection; [apply _|]. intros s. apply keeps_cap_openFn.
  - intros r. destruct (snd r); [apply keeps_ret; apply _|].
    apply same_count_cap, same_count_Bind.
Qed.

Lemma keeps_cap_Open d u : keeps keeps_cap (Sqlite.Open d u).
Proof.
  unfold Sqlite.Open.
  apply keeps_bind; [apply _ | apply same_count_cap, same_count_NewDatabase |].
  intros b. apply keeps_bind; [apply _ | apply same_count_cap, same_count_set_BaseDatabase |].
  intros _. apply keeps_cap_open.
Qed.

Lemma keeps_cap_clone d : keeps keeps_cap (Sqlite.clone d).
Proof.
  unfold Sqlite.clone.
  apply keeps_bind; [apply _ | apply same_count_cap, same_count_new_database |].
  intros c. apply keeps_bind; [apply _ | apply same_count_cap, same_count_base_of |].
  intros b. apply keeps_bind; [apply _ | apply same_count_cap, same_count_Clone |].
  intros b'. apply keeps_bind; [apply _ | apply same_count_cap, same_count_set_BaseDatabase |].
  intros _. apply keeps_bind; [apply _ | apply keeps_cap_open |].
  intros err. destruct err; apply keeps_ret; apply _.
Qed.

Lemma same_count_connFn c t : keeps same_count (Sqlite.connFn c t).
Proof.
  unfold Sqlite.connFn. apply keeps_bind; [apply _ | apply same_count_Session |].
  intros s. apply same_count_sql_Begin.
Qed.

Lemma keeps_cap_Transaction d : keeps keeps_cap (Sqlite.Transaction d).
Proof.
  unfold Sqlite.Transaction.
  apply keeps_bind; [apply _ | apply keeps_cap_clone |].
  intros r. destruct (snd r); [apply keeps_ret; apply _|].
  destruct (fst r) as [c|]; [|apply keeps_panic; apply _].
  apply keeps_bind; [apply _ | |].
  - apply keeps_WaitForConnection; [apply _|]. intros s.
    apply same_count_cap, same_count_connFn.
  - intros t. destruct (snd t); [apply keeps_ret; apply _|].
    apply keeps_bind; [apply _ | apply same_count_cap, same_count_BindTx |].
    intros _. apply keeps_bind; [apply _ | apply same_count_cap, same_count_Tx |].
    intros tx. apply keeps_ret; apply _.
Qed.

Lemma Session_pure d w : snd (Session d w) = w.
Proof.
  unfold Session, base_of, read_db, read_base, bind, ret, panic.
  repeat case_match; simplify_eq; reflexivity.
Qed.

Lemma Close_runtime_no_error d w e : fst (Sqladapter.Close d w) <> Ret (Some e).
Proof.
  unfold Sqladapter.Close, base_of, read_db, read_base, bind, ret, panic, modify.
  repeat case_match; simplify_eq; simpl; discriminate.
Qed.

(** [Close] in any state: with the counter within the cap, either the
    counter stays within the cap, or it was 0, the adapter held a handle,
    and the call returns the consistency error with the counter at -1. *)
Lemma Close_cases d w :
  within_cap w ->
  (within_cap (snd (Sqlite.Close d w))
   /\ forall e, fst (Sqlite.Close d w) <> Ret (Some e))
  \/ (Sqlite.Close d w
      = (Ret (Some Sqlite.errCloseWithoutOpen), set_fileOpenCount (-1) w)
      /\ fileOpenCount w = 0).
Proof.
  intros Hw. unfold within_cap, Sqlite.maxOpenFiles in Hw.
  remember (Sqlite.Close d w) as r eqn:Hr.
  unfold Sqlite.Close, bind at 1 in Hr.
  pose proof (Session_pure d w) as Hpure.
  destruct (Session d w) as [[[h|]|msg] w']; simpl in Hpure; subst w'.
  - unfold bind, AddInt32 in Hr.
    replace (fileOpenCount w + -1) with (fileOpenCount w - 1) in Hr by lia.
    rewrite wrap32_id in Hr by (unfold int32; lia).
    destruct (fileOpenCount w - 1 <? 0) eqn:Hneg.
    + right. apply Z.ltb_lt in Hneg. assert (fileOpenCount w = 0) as H0 by lia.
      rewrite H0 in Hr. subst r. split; [reflexivity | exact H0].
    + left. apply Z.ltb_ge in Hneg. subst r. split.
      * pose proof (same_count_Close d (set_fileOpenCount (fileOpenCount w - 1) w)) as Hc.
        unfold same_count in Hc. simpl in Hc.
        unfold within_cap, Sqlite.maxOpenFiles. rewrite Hc. lia.
      * intros e. apply Close_runtime_no_error.
  - left. subst r. split; [exact Hw | intros e; discriminate].
  - left. subst r. split; [exact Hw | intros e; discriminate].
Qed.

Lemma step_cases ev w :
  within_cap w ->
  within_cap (snd (step ev w))
  \/ (violation (fst (step ev w)) = true /\ fileOpenCount (snd (step ev w)) = -1).
Proof.
  intros Hw. destruct ev as [d u|d|d|d]; simpl.
  - left. now apply keeps_cap_Open.
  - destruct (Close_cases d w Hw) as [[H _]|[H _]]; [now left|].
    right. rewrite H. split; reflexivity.
  - left. apply (keeps_bind keeps_cap); auto.
    + apply keeps_cap_clone.
    + intros r. apply keeps_ret. apply _.
  - left. apply (keeps_bind keeps_cap); auto.
    + apply keeps_cap_Transaction.
    + intros r. apply keeps_ret. apply _.
Qed.

Lemma run_events_within_cap evs :
  forall w,
    within_cap w ->
    forallb (fun x => negb (violation (fst x))) (run_events evs w) = true ->
    Forall (fun x => within_cap (snd x)) (run_events evs w).
Proof.
  induction evs as [|ev rest IH]; intros w Hw Hno; simpl in *; [constructor|].
  apply andb_prop in Hno as [Hev Hrest].
  destruct (step_cases ev w Hw) as [Hcap|[Hv _]].
  - constructor; [exact Hcap|].
    destruct (fst (step ev w)); [now apply IH | constructor].
  - rewrite Hv in Hev. discriminate.
Qed.

(** C1 (amended). Starting with the counter between 0 and [maxOpenFiles],
    in every sequence of opens (Open, Clone, Transaction) and closes in which
    no call returns the error of [Close], the counter is between 0 and
    [maxOpenFiles] after every operation.  [Close] decrements before it
    checks: it either keeps the counter within the cap and returns no error
    of its own, or the counter was 0, the adapter held a handle, and the
    call returns "Close() without Open()?" leaving the counter at -1. *)
Theorem sqlite_counter_guard (evs : list Event) (w : World) :
  within_cap w ->
  (forallb (fun x => negb (violation (fst x))) (run_events evs w) = true ->
   Forall (fun x => within_cap (snd x)) (run_events evs w))
  /\ (forall d,
        (within_cap (snd (Sqlite.Close d w))
         /\ forall e, fst (Sqlite.Close d w) <> Ret (Some e))
        \/ (Sqlite.Close d w
            = (Ret (Some Sqlite.errCloseWithoutOpen), set_fileOpenCount (-1) w)
            /\ fileOpenCount w = 0))
  /\ (forall d b bv h,
        adapter_at w d b bv -> b_sess bv = Some h -> fileOpenCount w = 0 ->
        Sqlite.Close d w
        = (Ret (Some Sqlite.errCloseWithoutOpen), set_fileOpenCount (-1) w)).
Proof.
  intros Hw. split; [now apply run_events_within_cap|].
  split; [intros d; now apply Close_cases|].
  intros d b bv h Hat Hs H0.
  rewrite (Close_live _ _ _ _ _ Hat Hs), H0. reflexivity.
Qed.

Lemma sqlite_counter_guard_witness :
  Forall (fun x => within_cap (snd x))
         (run_events [EvOpen 1%positive (Some "f.db"); EvClose 1%positive] world_fresh).
Proof.
  apply (sqlite_counter_guard [EvOpen 1%positive (Some "f.db"); EvClose 1%positive]
                              world_fresh).
  - unfold within_cap. simpl. unfold Sqlite.maxOpenFiles. lia.
  - vm_compute. reflexivity.
Defined.

(** C1 as stated fails: the [Close] with no open left to match returns the
    consistency error and leaves the counter at -1. *)
Lemma sqlite_close_unmatched_goes_negative :
  fst (Sqlite.Close 1%positive world_unmatched)
  = Ret (Some Sqlite.errCloseWithoutOpen)
  /\ fileOpenCount (snd (Sqlite.Close 1%positive world_unmatched)) = -1
  /\ fileOpenCount (snd (Sqlite.Close 1%positive world_unmatched)) < 0.
Proof. vm_compute. repeat split. Qed.

(** That state is the one a second [Close] of the same adapter meets: over
    Open, Close, Close the counter goes 1, 0, -1. *)
Lemma sqlite_double_close :
  map (fun x => (fst x, fileOpenCount (snd x)))
      (run_events [EvOpen 1%positive (Some "f.db"); EvClose 1%positive;
                   EvClose 1%positive] world_fresh)
  = [(Ret None, 1); (Ret None, 0); (Ret (Some Sqlite.errCloseWithoutOpen), -1)]
  /\ snd (step (EvClose 1%positive)
               (snd (step (EvOpen 1%positive (Some "f.db")) world_fresh)))
     = world_unmatched.
Proof. split; vm_compute; reflexivity. Qed.

(** ** [Open] and the nil descriptor *)

Lemma with_runtime_adapter_at w d connURL v :
  adapter_at (with_runtime w d connURL v) d (fresh (dom (bases w)))
             (mkBase d connURL None None (Some (fresh (dom (schemas w))))).
Proof.
  exists (mkDatabase (Some (fresh (dom (bases w)))) (db_columns v)).
  unfold with_runtime. simpl. rewrite !lookup_insert_eq. auto.
Qed.

Lemma sqlite_Open_unfold w d connURL v :
  dbs w !! d = Some v ->
  Sqlite.Open d connURL w = Sqlite.open d (with_runtime w d connURL v).
Proof.
  intros Hd. unfold Sqlite.Open, bind at 1. unfold NewDatabase.
  unfold bind at 1. unfold set_BaseDatabase, bind at 1.
  unfold read_db. simpl. rewrite Hd. reflexivity.
Qed.

Lemma wait_loop_denied n d w :
  Sqlite.maxOpenFiles <= fileOpenCount w ->
  wait_loop Sqlite.Err n (Sqlite.openFn d) None w
  = (Ret (None, Some Sqlite.errTooManyOpenFiles), w).
Proof.
  intros Hcap. induction n as [|n IH]; simpl; unfold bind;
    rewrite (openFn_at_cap _ _ _ Hcap); simpl; [reflexivity | exact IH].
Qed.

Lemma wait_loop_nil_descriptor n d b bv w :
  fileOpenCount w < Sqlite.maxOpenFiles ->
  adapter_at w d b bv -> b_connURL bv = None ->
  wait_loop Sqlite.Err n (Sqlite.openFn d) None w = (Panic nil_deref, w).
Proof.
  intros Hlt Hat Hnil.
  assert (Sqlite.openFn d None w = (Panic nil_deref, w)) as Hfn.
  { unfold Sqlite.openFn, bind at 1. unfold LoadInt32.
    apply Z.ltb_lt in Hlt. rewrite Hlt. unfold bind at 1.
    now rewrite (ConnectionURL_String_nil _ _ _ _ Hat Hnil). }
  destruct n; simpl; unfold bind; now rewrite Hfn.
Qed.

(** C10. The postgresql [Open] answers a nil descriptor with
    [db.ErrMissingConnURL] and changes nothing: no runtime is built and the
    driver is not called.  The sqlite [Open] has no such check: it builds the
    runtime around the nil descriptor and goes on to [open], which panics on
    the nil descriptor when the counter is below the cap and reports
    [errTooManyOpenFiles] otherwise; it never returns
    [db.ErrMissingConnURL]. *)
Theorem Open_nil_descriptor (w : World) (d : loc) (v : database) :
  dbs w !! d = Some v ->
  Postgresql.Open d None w = (Ret (Some Db.ErrMissingConnURL), w)
  /\ Sqlite.Open d None w = Sqlite.open d (with_runtime w d None v)
  /\ adapter_at (with_runtime w d None v) d (fresh (dom (bases w)))
                (mkBase d None None None (Some (fresh (dom (schemas w)))))
  /\ Sqlite.Open d None w
     = (if fileOpenCount w <? Sqlite.maxOpenFiles
        then Panic nil_deref
        else Ret (Some Sqlite.errTooManyOpenFiles),
        with_runtime w d None v)
  /\ fst (Sqlite.Open d None w) <> Ret (Some Db.ErrMissingConnURL).
Proof.
  intros Hd. split; [reflexivity|].
  split; [now apply sqlite_Open_unfold|].
  split; [apply with_runtime_adapter_at|].
  assert (Sqlite.Open d None w
          = (if fileOpenCount w <? Sqlite.maxOpenFiles
             then Panic nil_deref
             else Ret (Some Sqlite.errTooManyOpenFiles),
             with_runtime w d None v)) as Hopen.
  { rewrite (sqlite_Open_unfold _ _ _ _ Hd).
    unfold Sqlite.open, bind at 1. unfold WaitForConnection, bind at 1. simpl.
    destruct (fileOpenCount w <? Sqlite.maxOpenFiles) eqn:Hlt.
    - apply Z.ltb_lt in Hlt.
      now rewrite (wait_loop_nil_descriptor (retries w) d _ _
                     (with_runtime w d None v) Hlt
                     (with_runtime_adapter_at w d None v) eq_refl).
    - apply Z.ltb_ge in Hlt.
      now rewrite (wait_loop_denied (retries w) d (with_runtime w d None v) Hlt). }
  split; [exact Hopen|].
  rewrite Hopen. simpl. destruct (fileOpenCount w <? Sqlite.maxOpenFiles); discriminate.
Qed.

Lemma Open_nil_descriptor_witness :
  Postgresql.Open 1%positive None world_fresh
  = (Ret (Some Db.ErrMissingConnURL), world_fresh)
  /\ fst (Sqlite.Open 1%positive None world_fresh) = Panic nil_deref
  /\ calls (snd (Sqlite.Open 1%positive None world_fresh)) = [].
Proof.
  destruct (Open_nil_descriptor world_fresh 1%positive (mkDatabase None None))
    as [Hpg [_ [_ [Hsq _]]]]; [reflexivity|].
  split; [exact Hpg|]. rewrite Hsq. split; reflexivity.
Defined.

(** ** The schema cache *)

Lemma Schema_loc_at w d b bv s sv :
  schema_at w d b bv s sv -> Schema_loc d w = (Ret s, w).
Proof.
  intros [Hat [Hs _]]. unfold Schema_loc, bind.
  rewrite (base_of_at _ _ _ _ Hat).
  destruct Hat as [v [_ [_ Hb]]]. now rewrite (read_base_at _ _ _ Hb), Hs.
Qed.

Lemma PrimaryKeys_at w d b bv s sv t :
  schema_at w d b bv s sv -> PrimaryKeys d t w = (Ret (cached sv t), w).
Proof.
  intros H. unfold PrimaryKeys, bind. rewrite (Schema_loc_at _ _ _ _ _ _ H).
  destruct H as [_ [_ Hsv]]. unfold read_schema. now rewrite Hsv.
Qed.

Lemma SetPrimaryKeys_at w d b bv s sv t pk :
  schema_at w d b bv s sv ->
  SetPrimaryKeys d t pk w = (Ret tt, put_pk w s sv t pk).
Proof.
  intros H. unfold SetPrimaryKeys, bind. rewrite (Schema_loc_at _ _ _ _ _ _ H).
  destruct H as [_ [_ Hsv]]. unfold read_schema. now rewrite Hsv.
Qed.

Lemma put_pk_schema_at w d b bv s sv t pk :
  schema_at w d b bv s sv ->
  schema_at (put_pk w s sv t pk) d b bv s
            (mkSchema (sch_name sv) (<[t := mkTableSchema pk]> (sch_tables sv))).
Proof.
  intros [Hat [Hs Hsv]]. split; [exact Hat|]. split; [exact Hs|].
  unfold put_pk. simpl. apply lookup_insert_eq.
Qed.

Lemma put_pk_cached sv t pk :
  cached (mkSchema (sch_name sv) (<[t := mkTableSchema pk]> (sch_tables sv))) t = pk.
Proof. unfold cached. simpl. now rewrite lookup_insert_eq. Qed.

(** A call of [PrimaryKeys] that returns has found the adapter's schema. *)
Lemma PrimaryKeys_inv w d t r w' :
  PrimaryKeys d t w = (Ret r, w') ->
  w' = w /\ exists b bv s sv, schema_at w d b bv s sv /\ r = cached sv t.
Proof.
  unfold PrimaryKeys, Schema_loc, base_of, read_db, read_base, read_schema,
    bind, ret, panic.
  intros H. repeat case_match; simplify_eq.
  all: split; [reflexivity|].
  all: unfold schema_at, adapter_at, cached.
  all: repeat eexists; eauto.
  all: match goal with H : sch_tables _ !! _ = _ |- _ => now rewrite H end.
Qed.

Lemma run_query_eq sess stmt w :
  run_query sess stmt w = (Ret (next_cursor w), after_query sess stmt w).
Proof.
  unfold after_query, next_cursor, run_query. destruct (cursors w); reflexivity.
Qed.

Lemma after_query_calls sess stmt w :
  calls (after_query sess stmt w) = SqlQuery sess stmt :: calls w.
Proof. unfold after_query, run_query. destruct (cursors w); reflexivity. Qed.

Lemma after_query_schema_at sess stmt w d b bv s sv :
  schema_at w d b bv s sv -> schema_at (after_query sess stmt w) d b bv s sv.
Proof. unfold after_query, run_query. destruct (cursors w); intros H; exact H. Qed.

Lemma Iterator_at w d b bv stmt :
  adapter_at w d b bv ->
  Iterator d stmt w = (Ret (next_cursor w), after_query (b_sess bv) stmt w).
Proof.
  intros H. unfold Iterator, bind. rewrite (Session_at _ _ _ _ H).
  apply run_query_eq.
Qed.

Lemma Query_at w d b bv stmt :
  adapter_at w d b bv ->
  Query d stmt w
  = (Ret (next_cursor w, cur_query_err (next_cursor w)),
     after_query (b_sess bv) stmt w).
Proof.
  intros H. unfold Query, bind. rewrite (Session_at _ _ _ _ H).
  now rewrite run_query_eq.
Qed.

Lemma init_columns_at w d b bv s sv :
  schema_at w d b bv s sv ->
  Sqlite.init_columns d w = (Ret tt, after_init d w)
  /\ schema_at (after_init d w) d b bv s sv
  /\ calls (after_init d w) = calls w.
Proof.
  intros [[v [Hd [Hb Hbv]]] [Hs Hsv]].
  unfold after_init, Sqlite.init_columns, bind.
  rewrite (read_db_at _ _ _ Hd).
  destruct (db_columns v) eqn:Hc; simpl.
  - repeat split; auto. exists v. auto.
  - repeat split; auto.
    exists (mkDatabase (db_BaseDatabase v) (Some ∅)). simpl.
    rewrite lookup_insert_eq. auto.
Qed.

(** ** [TablePrimaryKey] *)

Lemma sqlite_TablePrimaryKey_hit w d b bv s sv t pk :
  schema_at w d b bv s sv -> cached sv t = Some pk ->
  Sqlite.TablePrimaryKey d t w = (Ret (Some pk, None), w).
Proof.
  intros H Hc. unfold Sqlite.TablePrimaryKey, bind.
  now rewrite (PrimaryKeys_at _ _ _ _ _ _ t H), Hc.
Qed.

Lemma pg_TablePrimaryKey_hit w d b bv s sv t pk :
  schema_at w d b bv s sv -> cached sv t = Some pk ->
  Postgresql.TablePrimaryKey d t w = (Ret (Some pk, None), w).
Proof.
  intros H Hc. unfold Postgresql.TablePrimaryKey, bind.
  now rewrite (PrimaryKeys_at _ _ _ _ _ _ t H), Hc.
Qed.

(** The sqlite discovery, step by step: the query, the decoding of all
    rows, the two loops, the recording of the list. *)
Lemma sqlite_TablePrimaryKey_discover w d b bv s sv t :
  schema_at w d b bv s sv -> cached sv t = None ->
  Sqlite.TablePrimaryKey d t w =
  let c := next_cursor w in
  let wq := after_query (b_sess bv) (sqlite_pk_stmt t) w in
  match cur_query_err c with
  | Some e => (Ret (None, Some e), wq)
  | None =>
    match All c with
    | inr e => (Ret (None, Some e), after_init d wq)
    | inl cols =>
      (Ret (Some (sqlite_discovered cols), None),
       put_pk (after_init d wq) s sv t (Some (sqlite_discovered cols)))
    end
  end.
Proof.
  intros H Hc. unfold Sqlite.TablePrimaryKey, bind at 1.
  rewrite (PrimaryKeys_at _ _ _ _ _ _ t H), Hc.
  unfold bind at 1. fold (sqlite_pk_stmt t).
  rewrite (Query_at _ _ _ _ (sqlite_pk_stmt t) (proj1 H)). simpl.
  destruct (cur_query_err (next_cursor w)) as [e|]; [reflexivity|].
  pose proof (after_query_schema_at (b_sess bv) (sqlite_pk_stmt t) _ _ _ _ _ _ H) as Hq.
  destruct (init_columns_at _ _ _ _ _ _ Hq) as [Hinit [Hi _]].
  unfold bind at 1. rewrite Hinit.
  destruct (All (next_cursor w)) as [cols|e]; [|reflexivity].
  unfold bind. fold (sqlite_discovered cols).
  now rewrite (SetPrimaryKeys_at _ _ _ _ _ _ t (Some (sqlite_discovered cols)) Hi).
Qed.

(** The postgresql discovery: the query, the scanning loop, the recording
    of the list.  The iterator's own error is not looked at. *)
Lemma pg_TablePrimaryKey_discover w d b bv s sv t :
  schema_at w d b bv s sv -> cached sv t = None ->
  Postgresql.TablePrimaryKey d t w =
  let wq := after_query (b_sess bv) (pg_pk_stmt t) w in
  match Postgresql.scan_pk (iter_rows (next_cursor w)) [] with
  | (Some pk, None) => (Ret (Some pk, None), put_pk wq s sv t (Some pk))
  | r => (Ret r, wq)
  end.
Proof.
  intros H Hc. unfold Postgresql.TablePrimaryKey, bind at 1.
  rewrite (PrimaryKeys_at _ _ _ _ _ _ t H), Hc.
  unfold bind at 1. fold (pg_pk_stmt t).
  rewrite (Iterator_at _ _ _ _ (pg_pk_stmt t) (proj1 H)). simpl.
  pose proof (after_query_schema_at (b_sess bv) (pg_pk_stmt t) _ _ _ _ _ _ H) as Hq.
  destruct (Postgresql.scan_pk (iter_rows (next_cursor w)) []) as [[pk|] [e|]];
    try reflexivity.
  unfold bind. now rewrite (SetPrimaryKeys_at _ _ _ _ _ _ t (Some pk) Hq).
Qed.

Lemma sqlite_TablePrimaryKey_schema w d t x :
  fst (Sqlite.TablePrimaryKey d t w) = Ret x ->
  exists b bv s sv, schema_at w d b bv s sv.
Proof.
  unfold Sqlite.TablePrimaryKey, bind at 1.
  destruct (PrimaryKeys d t w) as [[r|msg] w'] eqn:Hpk; [|discriminate].
  intros _. apply PrimaryKeys_inv in Hpk as [_ (b & bv & s & sv & H & _)]. eauto.
Qed.

Lemma pg_TablePrimaryKey_schema w d t x :
  fst (Postgresql.TablePrimaryKey d t w) = Ret x ->
  exists b bv s sv, schema_at w d b bv s sv.
Proof.
  unfold Postgresql.TablePrimaryKey, bind at 1.
  destruct (PrimaryKeys d t w) as [[r|msg] w'] eqn:Hpk; [|discriminate].
  intros _. apply PrimaryKeys_inv in Hpk as [_ (b & bv & s & sv & H & _)]. eauto.
Qed.

(** The postgresql scanning loop ends with the list of all names, in the
    order of the rows, or with the first error of a [Scan]. *)
Lemma scan_pk_result rows :
  forall acc,
    (Postgresql.scan_pk rows acc = (Some (acc ++ map row_name rows)%list, None)
     /\ Forall (fun r => row_scan r = None) rows)
    \/ exists e, Postgresql.scan_pk rows acc = (None, Some e).
Proof.
  induction rows as [|r rows IH]; intros acc; simpl.
  - left. rewrite app_nil_r. auto.
  - destruct (row_scan r) as [e|] eqn:Hr; [right; eauto|].
    destruct (IH (acc ++ [row_name r])%list) as [[H Hall]|[e H]].
    + left. rewrite H, <- app_assoc. simpl. auto.
    + right. eauto.
Qed.




(** ** The order of a composite key *)

Lemma pk_columns_app columns :
  forall pk,
    Sqlite.pk_columns columns pk
    = (pk ++ map Sqlite.Name (List.filter (fun c => 0 <? Sqlite.PK c) columns))%list.
Proof.
  unfold Sqlite.pk_columns.
  induction columns as [|c columns IH]; intros pk; simpl.
  - now rewrite app_nil_r.
  - rewrite IH. destruct (0 <? Sqlite.PK c); simpl; [|reflexivity].
    now rewrite <- app_assoc.
Qed.

Lemma max_pk_bounds columns :
  forall m,
    m <= fold_left (fun maxValue column =>
                      if (0 <? Sqlite.PK column) && (maxValue <? Sqlite.PK column)
                      then Sqlite.PK column else maxValue) columns m
    /\ Forall (fun c => 0 < Sqlite.PK c ->
                        Sqlite.PK c <=
                        fold_left (fun maxValue column =>
                                     if (0 <? Sqlite.PK column)
                                        && (maxValue <? Sqlite.PK column)
                                     then Sqlite.PK column else maxValue) columns m)
              columns.
Proof.
  induction columns as [|c columns IH]; intros m; simpl; [split; [lia | constructor]|].
  set (m' := if (0 <? Sqlite.PK c) && (m <? Sqlite.PK c) then Sqlite.PK c else m).
  destruct (IH m') as [Hle Hall].
  assert (m <= m' /\ (0 < Sqlite.PK c -> Sqlite.PK c <= m')) as [Hm Hc].
  { subst m'. destruct (0 <? Sqlite.PK c) eqn:H0; destruct (m <? Sqlite.PK c) eqn:H1;
      simpl; try apply Z.ltb_lt in H0; try apply Z.ltb_ge in H0;
      try apply Z.ltb_lt in H1; try apply Z.ltb_ge in H1; lia. }
  split; [lia|]. constructor; [lia | exact Hall].
Qed.

Lemma no_key_when_max_not_positive columns :
  (0 <? Sqlite.max_pk columns) = false ->
  List.filter (fun c => 0 <? Sqlite.PK c) columns = [].
Proof.
  intros Hmax. apply Z.ltb_ge in Hmax.
  destruct (max_pk_bounds columns (-1)) as [_ Hall].
  fold (Sqlite.max_pk columns) in Hall.
  assert (Forall (fun c => ~ 0 < Sqlite.PK c) columns) as Hnone.
  { eapply Forall_impl; [exact Hall|]. simpl. intros a Ha Hpos. specialize (Ha Hpos). lia. }
  clear - Hnone. induction Hnone as [|x l Hx Hl IH]; [reflexivity|].
  simpl. destruct (0 <? Sqlite.PK x) eqn:H0; [apply Z.ltb_lt in H0; contradiction | exact IH].
Qed.

(** What the two loops of the sqlite [TablePrimaryKey] compute: the names
    of the key rows, in the order of the rows. *)
Lemma sqlite_discovered_row_order (cols : list (string * Z)) :
  sqlite_discovered cols = map fst (key_rows cols).
Proof.
  unfold sqlite_discovered, key_rows.
  set (columns := map (fun c => Sqlite.mkColumn (fst c) (snd c)) cols).
  assert (map Sqlite.Name (List.filter (fun c => 0 <? Sqlite.PK c) columns)
          = map fst (List.filter (fun c => 0 <? snd c) cols)) as Hmap.
  { subst columns. induction cols as [|c cols IH]; [reflexivity|].
    simpl. destruct (0 <? snd c); simpl; now rewrite IH. }
  destruct (0 <? Sqlite.max_pk columns) eqn:Hmax.
  - now rewrite pk_columns_app.
  - rewrite <- Hmap. now rewrite (no_key_when_max_not_positive _ Hmax).
Qed.

Lemma key_rows_increase cols :
  ordinals_increase cols = true -> ordinals_increase (key_rows cols) = true.
Proof.
  assert (forall l lo, ordinals_increase l = true ->
                       Forall (fun c => lo <= snd c) l ->
                       ordinals_increase (key_rows l) = true
                       /\ Forall (fun c => lo <= snd c) (key_rows l)) as Hgen.
  { induction l as [|x l IH]; intros lo Hinc Hlo; [split; [reflexivity | constructor]|].
    inversion Hlo as [|? ? Hx Hl]; subst.
    assert (ordinals_increase l = true /\ Forall (fun c => snd x <= snd c) l) as [Hinc' Hge].
    { clear IH Hlo Hl Hx. revert x Hinc. induction l as [|y l IHl]; intros x Hinc;
        [split; [reflexivity | constructor]|].
      simpl in Hinc. apply andb_prop in Hinc as [Hxy Hrest]. apply Z.leb_le in Hxy.
      split; [exact Hrest|]. constructor; [exact Hxy|].
      destruct (IHl y Hrest) as [_ Hy]. eapply Forall_impl; [exact Hy|].
      simpl. intros; lia. }
    destruct (IH (snd x) Hinc' Hge) as [Hk Hkge].
    unfold key_rows in *. simpl. destruct (0 <? snd x).
    - split.
      + simpl. destruct (List.filter (fun c => 0 <? snd c) l) as [|y k] eqn:Hf; [reflexivity|].
        inversion Hkge; subst. apply andb_true_intro. split; [now apply Z.leb_le | exact Hk].
      + constructor; [exact Hx|]. eapply Forall_impl; [exact Hkge|]. simpl. intros; lia.
    - split; [exact Hk|]. eapply Forall_impl; [exact Hkge|]. simpl. intros; lia. }
  intros Hinc. destruct cols as [|x l]; [reflexivity|].
  apply (Hgen (x :: l) (snd x) Hinc).
  constructor; [lia|].
  clear Hgen. revert x Hinc. induction l as [|y l IHl]; intros x Hinc; [constructor|].
  simpl in Hinc. apply andb_prop in Hinc as [Hxy Hrest]. apply Z.leb_le in Hxy.
  constructor; [exact Hxy|]. eapply Forall_impl; [exact (IHl y Hrest)|]. simpl. intros; lia.
Qed.

Lemma sort_increasing_id l :
  ordinals_increase l = true -> foldr insert_by_ordinal [] l = l.
Proof.
  induction l as [|x l IH]; intros Hinc; [reflexivity|].
  simpl. destruct l as [|y l]; [reflexivity|].
  simpl in Hinc. apply andb_prop in Hinc as [Hxy Hrest].
  rewrite (IH Hrest). simpl. now rewrite Hxy.
Qed.

Lemma ordinals_increase_cons x y l :
  ordinals_increase (x :: y :: l) = (snd x <=? snd y) && ordinals_increase (y :: l).
Proof. reflexivity. Qed.

Lemma insert_by_ordinal_increase c l :
  ordinals_increase l = true -> ordinals_increase (insert_by_ordinal c l) = true.
Proof.
  induction l as [|x l IH]; intros Hinc; [reflexivity|].
  cbn [insert_by_ordinal]. destruct (snd c <=? snd x) eqn:Hcx.
  - rewrite ordinals_increase_cons, Hcx. exact Hinc.
  - apply Z.leb_gt in Hcx. destruct l as [|y l].
    + cbn [insert_by_ordinal]. rewrite ordinals_increase_cons.
      apply andb_true_intro. split; [apply Z.leb_le; lia | reflexivity].
    + rewrite ordinals_increase_cons in Hinc. apply andb_prop in Hinc as [Hxy Hrest].
      specialize (IH Hrest). cbn [insert_by_ordinal] in IH |- *.
      destruct (snd c <=? snd y) eqn:Hcy.
      * rewrite ordinals_increase_cons.
        apply andb_true_intro. split; [apply Z.leb_le; lia | exact IH].
      * rewrite ordinals_increase_cons, Hxy. exact IH.
Qed.

(** Sorting by ordinal gives a list along which the ordinals never
    decrease, so it leaves a list as it is exactly when that list is one. *)
Lemma sort_by_ordinal_increase l :
  ordinals_increase (foldr insert_by_ordinal [] l) = true.
Proof.
  induction l as [|x l IH]; [reflexivity|].
  simpl. now apply insert_by_ordinal_increase.
Qed.

Lemma sort_fixed_iff_increasing l :
  foldr insert_by_ordinal [] l = l <-> ordinals_increase l = true.
Proof.
  split; [|apply sort_increasing_id].
  intros Hfix. rewrite <- Hfix. apply sort_by_ordinal_increase.
Qed.

(** C3 (amended). On a table whose key is not yet cached, the sqlite
    [TablePrimaryKey] returns the names of the rows of the table-info answer
    whose [pk] ordinal is positive, in the order of the rows.  That is the
    order of the ordinals when the ordinals of the key columns do not
    decrease along the rows, whatever the rows outside the key; and the key
    rows are in the order of their ordinals exactly then.
    The postgresql [TablePrimaryKey] runs a query that asks for the order
    [pkey] and returns the names in the order the rows are delivered, so
    sorted by name when they are delivered so.  In both the list is a
    function of the delivered rows. *)
Theorem TablePrimaryKey_order (w : World) (d b : loc) (bv : BaseDatabase)
        (s : loc) (sv : Schema) (t : string) :
  schema_at w d b bv s sv -> cached sv t = None ->
  (forall cols,
     cur_query_err (next_cursor w) = None -> All (next_cursor w) = inl cols ->
     fst (Sqlite.TablePrimaryKey d t w) = Ret (Some (map fst (key_rows cols)), None)
     /\ (ordinals_increase (key_rows cols) = true ->
         map fst (key_rows cols) = pk_by_ordinal cols)
     /\ (foldr insert_by_ordinal [] (key_rows cols) = key_rows cols
         <-> ordinals_increase (key_rows cols) = true))
  /\ (Forall (fun r => row_scan r = None) (iter_rows (next_cursor w)) ->
      fst (Postgresql.TablePrimaryKey d t w)
      = Ret (Some (map row_name (iter_rows (next_cursor w))), None)
      /\ calls (snd (Postgresql.TablePrimaryKey d t w))
         = SqlQuery (b_sess bv) (pg_pk_stmt t) :: calls w
      /\ (exists q, pg_pk_stmt t = SelectStmt q /\ sel_order q = ["pkey"])
      /\ (names_sorted (map row_name (iter_rows (next_cursor w))) = true ->
          exists pk, fst (Postgresql.TablePrimaryKey d t w) = Ret (Some pk, None)
                     /\ names_sorted pk = true)).
Proof.
  intros H Hc. split.
  - intros cols Hq Hall.
    rewrite (sqlite_TablePrimaryKey_discover _ _ _ _ _ _ _ H Hc). simpl.
    rewrite Hq, Hall. simpl. rewrite sqlite_discovered_row_order.
    split; [reflexivity|]. split; [|apply sort_fixed_iff_increasing].
    intros Hinc. unfold pk_by_ordinal.
    now rewrite (sort_increasing_id _ Hinc).
  - intros Hscan.
    rewrite (pg_TablePrimaryKey_discover _ _ _ _ _ _ _ H Hc). simpl.
    destruct (scan_pk_result (iter_rows (next_cursor w)) []) as [[Hpk _]|[e He]].
    + rewrite Hpk. simpl.
      split; [reflexivity|]. split; [apply after_query_calls|].
      split; [eexists; split; reflexivity|].
      intros Hs. eexists. split; [reflexivity | exact Hs].
    + exfalso. clear - Hscan He.
      revert He. generalize (@nil string).
      induction Hscan as [|r rows Hr Hrows IH]; intros acc He; simpl in He;
        [discriminate|].
      rewrite Hr in He. eapply IH, He.
Qed.

Lemma TablePrimaryKey_order_witness :
  (fst (Sqlite.TablePrimaryKey 1%positive "t" (world_open
          [mkCursor None [mkRow "a" 1 None; mkRow "b" 2 None; mkRow "c" 0 None] None]))
   = Ret (Some ["a"; "b"], None)
   /\ ["a"; "b"] = pk_by_ordinal [("a", 1); ("b", 2); ("c", 0)]
   /\ ordinals_increase [("a", 1); ("b", 2); ("c", 0)] = false)
  /\ fst (Postgresql.TablePrimaryKey 1%positive "t" (world_open
             [mkCursor None [mkRow "a" 1 None; mkRow "b" 2 None; mkRow "c" 0 None] None]))
     = Ret (Some ["a"; "b"; "c"], None).
Proof.
  pose proof (TablePrimaryKey_order
                (world_open
                   [mkCursor None [mkRow "a" 1 None; mkRow "b" 2 None; mkRow "c" 0 None]
                             None])
                1%positive 1%positive
                (mkBase 1%positive (Some "f.db") (Some 7%positive) None (Some 1%positive))
                1%positive (mkSchema "f.db" ∅) "t"
                (conj (ex_intro _ (mkDatabase (Some 1%positive) None)
                                (conj eq_refl (conj eq_refl eq_refl)))
                      (conj eq_refl eq_refl))
                eq_refl) as [Hsqlite Hpg].
  destruct (Hsqlite [("a", 1); ("b", 2); ("c", 0)] eq_refl eq_refl) as [Hres [Hord _]].
  split.
  - split; [exact Hres|]. split; [exact (Hord eq_refl) | reflexivity].
  - exact (proj1 (Hpg ltac:(repeat constructor))).
Defined.

(** C3 as stated fails for sqlite: for [PRIMARY KEY (b, a)] on a table
    declared with [a] before [b], the table-info rows are [a] with ordinal 2
    and [b] with ordinal 1; the adapter returns [a, b], the order of the
    ordinals is [b, a]. *)
Lemma sqlite_key_order_not_by_ordinal :
  fst (Sqlite.TablePrimaryKey 1%positive "t"
         (world_open [mkCursor None [mkRow "a" 2 None; mkRow "b" 1 None] None]))
  = Ret (Some ["a"; "b"], None)
  /\ pk_by_ordinal [("a", 2); ("b", 1)] = ["b"; "a"].
Proof. split; vm_compute; reflexivity. Qed.

(** ** Catalog queries *)

(** What [Collections] returns: every name the iterator delivers. *)
Lemma sqlite_Collections_at w d b bv :
  adapter_at w d b bv ->
  Sqlite.Collections d w
  = (Ret (Sqlite.scan_names (iter_rows (next_cursor w)) None),
     after_query (b_sess bv) sqlite_collections_stmt w).
Proof.
  intros H. unfold Sqlite.Collections, bind.
  fold sqlite_collections_stmt.
  now rewrite (Iterator_at _ _ _ _ sqlite_collections_stmt H).
Qed.

(** C7. The sqlite [Collections] asks the catalog for the rows of type
    [table] and returns every name delivered: on a database with an
    AUTOINCREMENT table it returns the internal table [sqlite_sequence]
    next to the user table. *)
Theorem sqlite_Collections_lists_internal_table :
  fst (Sqlite.Collections 1%positive
         (world_open [sqlite_master_by_type master_autoincrement "table"]))
  = Ret (Some ["users"; "sqlite_sequence"], None)
  /\ sqlite_internal "sqlite_sequence" = true
  /\ calls (snd (Sqlite.Collections 1%positive
                   (world_open [sqlite_master_by_type master_autoincrement "table"])))
     = [SqlQuery (Some 7%positive) sqlite_collections_stmt].
Proof. repeat split; vm_compute; reflexivity. Qed.

(** What [TableExists] returns: it looks at the first row only. *)
Lemma sqlite_TableExists_at w d b bv name :
  adapter_at w d b bv ->
  Sqlite.TableExists d name w
  = (Ret (match iter_rows (next_cursor w) with
          | r :: _ => row_scan r
          | [] => Some Db.ErrCollectionDoesNotExist
          end),
     after_query (b_sess bv) (sqlite_exists_stmt name) w).
Proof.
  intros H. unfold Sqlite.TableExists, bind. fold (sqlite_exists_stmt name).
  rewrite (Iterator_at _ _ _ _ (sqlite_exists_stmt name) H).
  destruct (iter_rows (next_cursor w)); reflexivity.
Qed.

Lemma pg_TableExists_at w d b bv s sv name :
  schema_at w d b bv s sv ->
  Postgresql.TableExists d name w
  = (Ret (match iter_rows (next_cursor w) with
          | r :: _ => row_scan r
          | [] => Some Db.ErrCollectionDoesNotExist
          end),
     after_query (b_sess bv) (pg_exists_stmt (sch_name sv) name) w).
Proof.
  intros H. unfold Postgresql.TableExists, bind at 1.
  unfold Schema_Name, bind at 1. rewrite (Schema_loc_at _ _ _ _ _ _ H).
  unfold bind at 1. unfold read_schema. rewrite (proj2 (proj2 H)). simpl.
  unfold bind. fold (pg_exists_stmt (sch_name sv) name).
  rewrite (Iterator_at _ _ _ _ (pg_exists_stmt (sch_name sv) name) (proj1 H)).
  destruct (iter_rows (next_cursor w)); reflexivity.
Qed.

(** C8. When the catalog query itself fails with [e], whatever [e] is,
    [TableExists] of both adapters returns [db.ErrCollectionDoesNotExist]:
    the failure is reported as "not found".  The name is sent as the bound
    argument of an equality. *)
Theorem TableExists_reports_failure_as_not_found (e : errorString) :
  fst (Sqlite.TableExists 1%positive "users"
         (world_open [mkCursor (Some e) [] (Some e)]))
  = Ret (Some Db.ErrCollectionDoesNotExist)
  /\ fst (Postgresql.TableExists 1%positive "users"
            (world_open [mkCursor (Some e) [] (Some e)]))
     = Ret (Some Db.ErrCollectionDoesNotExist)
  /\ calls (snd (Sqlite.TableExists 1%positive "users"
                   (world_open [mkCursor (Some e) [] (Some e)])))
     = [SqlQuery (Some 7%positive) (sqlite_exists_stmt "users")]
  /\ calls (snd (Postgresql.TableExists 1%positive "users"
                   (world_open [mkCursor (Some e) [] (Some e)])))
     = [SqlQuery (Some 7%positive) (pg_exists_stmt "f.db" "users")].
Proof. repeat split; reflexivity. Qed.

(** ** [Transaction] and the adapter it starts from *)

#[local] Instance heap_same_preorder : PreOrder heap_same.
Proof.
  split; [intros w; repeat split|].
  intros a b c (H1 & H2 & H3) (H4 & H5 & H6). unfold heap_same. repeat split; congruence.
Qed.

#[local] Instance spares_preorder c b : PreOrder (spares c b).
Proof.
  split; [intros w bc _ _ H; auto|].
  intros w1 w2 w3 H12 H23 bc Hc Hne Hsome.
  destruct (H12 bc Hc Hne Hsome) as (Hd & Hb & Hs).
  destruct (H23 bc) as (Hd' & Hb' & Hs'); [now rewrite Hd | exact Hne | exact Hs|].
  repeat split; [congruence | congruence | exact Hs'].
Qed.

Lemma heap_same_spares {A} (m : M A) c b : keeps heap_same m -> keeps (spares c b) m.
Proof.
  intros H w bc _ _ Hsome. destruct (H w) as (Hd & Hb & _).
  rewrite Hd, Hb. auto.
Qed.

Ltac heap_same_prim :=
  intros w; unfold heap_same;
  repeat (unfold read_db, read_base, read_schema, modify, ret, panic, bind, get; simpl);
  repeat case_match; simplify_eq; auto.

Lemma heap_same_Session d : keeps heap_same (Session d).
Proof. unfold Session, base_of. heap_same_prim. Qed.

Lemma heap_same_Tx d : keeps heap_same (Tx d).
Proof. unfold Tx, base_of. heap_same_prim. Qed.

Lemma heap_same_ConnectionURL_String d : keeps heap_same (ConnectionURL_String d).
Proof. unfold ConnectionURL_String, base_of. heap_same_prim. Qed.

Lemma heap_same_LoadInt32 : keeps heap_same LoadInt32.
Proof. unfold LoadInt32. heap_same_prim. Qed.

Lemma heap_same_AddInt32 z : keeps heap_same (AddInt32 z).
Proof. unfold AddInt32. heap_same_prim. Qed.

Lemma heap_same_sql_Open drv dsn : keeps heap_same (sql_Open drv dsn).
Proof. unfold sql_Open. heap_same_prim. Qed.

Lemma heap_same_sql_Begin s : keeps heap_same (sql_Begin s).
Proof. unfold sql_Begin. destruct s; heap_same_prim. Qed.

Lemma heap_same_sqlite_openFn d s : keeps heap_same (Sqlite.openFn d s).
Proof.
  unfold Sqlite.openFn.
  apply keeps_bind; [apply _ | apply heap_same_LoadInt32 |]. intros n.
  destruct (n <? Sqlite.maxOpenFiles); [|apply keeps_ret; apply _].
  apply keeps_bind; [apply _ | apply heap_same_ConnectionURL_String |]. intros url.
  apply keeps_bind; [apply _ | apply heap_same_sql_Open |]. intros r.
  destruct (snd r); [apply keeps_ret; apply _|].
  apply keeps_bind; [apply _ | apply heap_same_AddInt32 |]. intros _.
  apply keeps_ret; apply _.
Qed.

Lemma heap_same_pg_open_connFn d s : keeps heap_same (Postgresql.open_connFn d s).
Proof.
  unfold Postgresql.open_connFn.
  apply keeps_bind; [apply _ | apply heap_same_ConnectionURL_String |]. intros url.
  apply heap_same_sql_Open.
Qed.

Lemma heap_same_connFn c t : keeps heap_same (Sqlite.connFn c t).
Proof.
  unfold Sqlite.connFn.
  apply keeps_bind; [apply _ | apply heap_same_Session |]. intros s.
  apply heap_same_sql_Begin.
Qed.

(** [Bind] and [BindTx] write the runtime of their own adapter only. *)
Lemma spares_Bind c b s : keeps (spares c b) (Bind c s).
Proof.
  intros w bc (v & Hc & Hbc) Hne [x Hx].
  unfold Bind, base_of, read_db, read_base, write_base, bind, modify, ret, panic.
  rewrite Hc. simpl. rewrite Hbc. simpl. rewrite Hx. simpl.
  split; [reflexivity|]. split; [now apply lookup_insert_ne|].
  rewrite lookup_insert_eq. eauto.
Qed.

Lemma spares_BindTx c b t : keeps (spares c b) (BindTx c t).
Proof.
  intros w bc (v & Hc & Hbc) Hne [x Hx].
  unfold BindTx, base_of, read_db, read_base, write_base, bind, modify, ret, panic.
  rewrite Hc. simpl. rewrite Hbc. simpl. rewrite Hx. simpl.
  split; [reflexivity|]. split; [now apply lookup_insert_ne|].
  rewrite lookup_insert_eq. eauto.
Qed.

Lemma spares_sqlite_open c b : keeps (spares c b) (Sqlite.open c).
Proof.
  unfold Sqlite.open. apply keeps_bind; [apply _ | |].
  - apply keeps_WaitForConnection; [apply _|]. intros s.
    apply heap_same_spares, heap_same_sqlite_openFn.
  - intros r. destruct (snd r); [apply keeps_ret; apply _ | apply spares_Bind].
Qed.

Lemma spares_pg_open c b : keeps (spares c b) (Postgresql.open c).
Proof.
  unfold Postgresql.open. apply keeps_bind; [apply _ | |].
  - apply keeps_WaitForConnection; [apply _|]. intros s.
    apply heap_same_spares, heap_same_pg_open_connFn.
  - intros r. destruct (snd r); [apply keeps_ret; apply _ | apply spares_Bind].
Qed.

Lemma fresh_ne {V} (m : gmap loc V) (i : loc) (x : V) :
  m !! i = Some x -> fresh (dom m) <> i.
Proof.
  intros H Heq. apply (is_fresh (dom m)). rewrite Heq. by eapply elem_of_dom_2.
Qed.

Lemma clone_setup w d b bv (open : loc -> M error) :
  adapter_at w d b bv ->
  (let* c := new_database in
   let* b0 := base_of d in
   let* b' := Clone b0 c in
   let* _ := set_BaseDatabase c b' in
   let* err := open c in
   clone_result c err) w
  = (let* err := open (fresh (dom (dbs w))) in
     clone_result (fresh (dom (dbs w))) err) (cloned w bv).
Proof.
  intros (v & Hd & Hb & Hbv).
  unfold bind at 1. unfold new_database.
  set (c := fresh (dom (dbs w))).
  set (w1 := set_dbs (<[c := mkDatabase None None]> (dbs w)) w).
  assert (adapter_at w1 d b bv) as Hat1.
  { exists v. subst w1. simpl. rewrite lookup_insert_ne by (eapply fresh_ne; eauto). auto. }
  unfold bind at 1. rewrite (base_of_at _ _ _ _ Hat1).
  unfold bind at 1. unfold Clone, bind at 1.
  rewrite (read_base_at w1 b bv) by exact Hbv.
  unfold bind at 1. unfold set_BaseDatabase, bind at 1. unfold read_db. simpl.
  rewrite lookup_insert_eq. reflexivity.
Qed.

Lemma sqlite_clone_unfold w d b bv :
  adapter_at w d b bv ->
  Sqlite.clone d w
  = (let* err := Sqlite.open (fresh (dom (dbs w))) in
     clone_result (fresh (dom (dbs w))) err) (cloned w bv).
Proof. intros H. apply (clone_setup w d b bv Sqlite.open H). Qed.

Lemma pg_clone_unfold w d b bv :
  adapter_at w d b bv ->
  Postgresql.clone d w
  = (let* err := Postgresql.open (fresh (dom (dbs w))) in
     clone_result (fresh (dom (dbs w))) err) (cloned w bv).
Proof. intros H. apply (clone_setup w d b bv Postgresql.open H). Qed.

Lemma BindTx_at w c bc x t :
  adapter_at w c bc x ->
  BindTx c t w
  = (Ret tt,
     set_bases (<[bc := mkBase (b_partial x) (b_connURL x) (b_sess x) t (b_schema x)]>
                  (bases w)) w).
Proof.
  intros H. unfold BindTx, bind. rewrite (base_of_at _ _ _ _ H).
  destruct H as (v & _ & _ & Hx). now rewrite (read_base_at _ _ _ Hx).
Qed.

Lemma connFn_at w c bc x s :
  adapter_at w c bc x -> Sqlite.connFn c s w = sql_Begin (b_sess x) w.
Proof.
  intros H. unfold Sqlite.connFn, bind. now rewrite (Session_at _ _ _ _ H).
Qed.

(** When the retry loop around [connFn] ends without an error, its last
    call began a transaction on the handle of adapter [c]. *)
Lemma wait_loop_begun Err c bc x n :
  forall s w t w',
    adapter_at w c bc x ->
    wait_loop Err n (Sqlite.connFn c) s w = (Ret t, w') ->
    snd t = None ->
    exists h rest, b_sess x = Some h /\ calls w' = SqlBegin h :: rest.
Proof.
  induction n as [|n IH]; intros s w t w' Hat Hrun Hok; simpl in Hrun;
    unfold bind in Hrun; rewrite (connFn_at _ _ _ _ _ Hat) in Hrun;
    unfold sql_Begin in Hrun; destruct (b_sess x) as [h|] eqn:Hs;
    try discriminate Hrun.
  - destruct (begins w) as [|[t0|e] rest]; simpl in Hrun;
      repeat case_match; unfold ret in Hrun; simplify_eq; try discriminate Hok.
    exists h. eexists. split; reflexivity.
  - destruct (begins w) as [|[t0|e] rest]; simpl in Hrun;
      repeat case_match; unfold ret in Hrun; simplify_eq; try discriminate Hok;
      try (exists h; eexists; split; reflexivity).
    + eapply (IH _ _ _ _ _ Hrun Hok).
    + eapply (IH _ _ _ _ _ Hrun Hok).
  Unshelve.
  all: destruct Hat as (v & H1 & H2 & H3); exists v; auto.
Qed.

(** A successful tail returns the clone, with the transaction begun on the
    clone's handle and bound to the clone's runtime. *)
Lemma transaction_tail_success Err c bc x w txd w' :
  adapter_at w c bc x ->
  transaction_tail Err c w = (Ret (Some txd, None), w') ->
  tx_Database txd = c
  /\ exists y, adapter_at w' c bc y /\ b_tx y = tx_Tx txd /\ b_sess y = b_sess x
              /\ exists h rest, b_sess y = Some h /\ calls w' = SqlBegin h :: rest.
Proof.
  intros Hat Hrun. unfold transaction_tail, bind at 1 in Hrun.
  pose proof (keeps_WaitForConnection heap_same Err (Sqlite.connFn c) None
                (fun s => heap_same_connFn c s) w) as (Hd & Hb & _).
  destruct (WaitForConnection Err (Sqlite.connFn c) None w) as [[t|msg] w5] eqn:Hwait;
    [|discriminate]. simpl in Hd, Hb.
  assert (adapter_at w5 c bc x) as Hat5.
  { destruct Hat as (v & H1 & H2 & H3). exists v. rewrite Hd, Hb. auto. }
  destruct (snd t) eqn:Hok; [discriminate|].
  destruct (wait_loop_begun Err c bc x (retries w) None w t w5 Hat Hwait Hok)
    as (h & rest & Hh & Hcalls).
  unfold bind at 1 in Hrun. rewrite (BindTx_at _ _ _ _ (fst t) Hat5) in Hrun.
  unfold bind at 1 in Hrun.
  match type of Hrun with context [Tx c ?w6] =>
    assert (adapter_at w6 c bc
              (mkBase (b_partial x) (b_connURL x) (b_sess x) (fst t) (b_schema x))) as Hat6
  end.
  { destruct Hat5 as (v & H1 & H2 & H3). exists v. simpl. rewrite lookup_insert_eq. auto. }
  rewrite (Tx_at _ _ _ _ Hat6) in Hrun. unfold ret in Hrun. simpl in Hrun.
  simplify_eq.
  split; [reflexivity|]. eexists. split; [exact Hat6|].
  split; [reflexivity|]. split; [reflexivity|].
  exists h, rest. split; [exact Hh | exact Hcalls].
Qed.

Lemma spares_transaction_tail Err c b : keeps (spares c b) (transaction_tail Err c).
Proof.
  unfold transaction_tail. apply keeps_bind; [apply _ | |].
  - apply keeps_WaitForConnection; [apply _|]. intros s.
    apply heap_same_spares, heap_same_connFn.
  - intros t. destruct (snd t); [apply keeps_ret; apply _|].
    apply keeps_bind; [apply _ | apply spares_BindTx |]. intros _.
    apply keeps_bind; [apply _ | apply heap_same_spares, heap_same_Tx |]. intros tx.
    apply keeps_ret; apply _.
Qed.

Lemma sqlite_Transaction_eq d :
  Sqlite.Transaction d = transaction_of Sqlite.Err Sqlite.clone d.
Proof. reflexivity. Qed.

Lemma pg_Transaction_eq d :
  Postgresql.Transaction d = transaction_of Postgresql.Err Postgresql.clone d.
Proof. reflexivity. Qed.

Lemma transaction_frame Err (open : loc -> M error)
      (clone : loc -> M (option loc * error)) w d b bv v :
  (forall c b, keeps (spares c b) (open c)) ->
  (forall w d b bv,
     adapter_at w d b bv ->
     clone d w = (let* err := open (fresh (dom (dbs w))) in
                  clone_result (fresh (dom (dbs w))) err) (cloned w bv)) ->
  dbs w !! d = Some v -> db_BaseDatabase v = Some b -> bases w !! b = Some bv ->
  dbs (snd (transaction_of Err clone d w)) !! d = Some v
  /\ bases (snd (transaction_of Err clone d w)) !! b = Some bv
  /\ forall txd,
       fst (transaction_of Err clone d w) = Ret (Some txd, None) ->
       tx_Database txd = fresh (dom (dbs w))
       /\ tx_Database txd <> d
       /\ exists bc y,
            adapter_at (snd (transaction_of Err clone d w)) (tx_Database txd) bc y
            /\ bc <> b /\ b_tx y = tx_Tx txd
            /\ exists h rest,
                 b_sess y = Some h
                 /\ calls (snd (transaction_of Err clone d w)) = SqlBegin h :: rest.
Proof.
  intros Hopen Hclone Hd Hb Hbv.
  assert (adapter_at w d b bv) as Hat by (exists v; auto).
  pose proof (fresh_ne (dbs w) d v Hd) as Hcd.
  pose proof (fresh_ne (bases w) b bv Hbv) as Hbb.
  set (c := fresh (dom (dbs w))) in *.
  set (b' := fresh (dom (bases w))) in *.
  assert (dbs (cloned w bv) !! c = Some (mkDatabase (Some b') None)) as Hc3
      by (unfold cloned; simpl; apply lookup_insert_eq).
  assert (dbs (cloned w bv) !! d = Some v) as Hd3
      by (unfold cloned; simpl; now rewrite !lookup_insert_ne).
  assert (bases (cloned w bv) !! b = Some bv) as Hb3
      by (unfold cloned; simpl; now rewrite lookup_insert_ne).
  assert (is_Some (bases (cloned w bv) !! b')) as Hs3
      by (unfold cloned; simpl; rewrite lookup_insert_eq; eauto).
  destruct (Hopen c b (cloned w bv) b') as (Hd4 & Hb4 & Hs4);
    [eexists; split; [exact Hc3 | reflexivity] | exact Hbb | exact Hs3 |].
  remember (transaction_of Err clone d w) as res eqn:Hres.
  unfold transaction_of, bind at 1 in Hres.
  rewrite (Hclone w d b bv Hat) in Hres. fold c in Hres.
  unfold bind at 1 in Hres.
  destruct (open c (cloned w bv)) as [[err|msg] w4]; simpl in Hd4, Hb4, Hs4.
  - destruct err as [e|]; unfold clone_result, ret in Hres; simpl in Hres.
    + subst res. simpl.
      split; [now rewrite Hd4|]. split; [now rewrite Hb4|]. intros txd H. discriminate.
    + destruct Hs4 as [x Hx].
      assert (adapter_at w4 c b' x) as Hat4.
      { exists (mkDatabase (Some b') None). rewrite Hd4. auto. }
      destruct (spares_transaction_tail Err c b w4 b') as (Hd5 & Hb5 & _);
        [eexists; split; [rewrite Hd4; exact Hc3 | reflexivity] | exact Hbb | eauto |].
      subst res.
      split; [now rewrite Hd5, Hd4|]. split; [now rewrite Hb5, Hb4|].
      intros txd Hr.
      destruct (transaction_tail Err c w4) as [r5 w5] eqn:Htail. simpl in Hr. subst r5.
      destruct (transaction_tail_success Err c b' x w4 txd w5 Hat4 Htail)
        as (Hdb & y & Hy & Htx & _ & Hbegun).
      simpl. rewrite Hdb. split; [reflexivity|]. split; [exact Hcd|].
      exists b', y. auto.
  - subst res. simpl.
    split; [now rewrite Hd4|]. split; [now rewrite Hb4|]. intros txd H. discriminate.
Qed.



(** * Further properties *)

(** ** Placeholders in any text *)

Lemma count_byte_app c (a b : string) :
  count_byte c (a ++ b) = (count_byte c a + count_byte c b)%nat.
Proof.
  induction a as [|x a IH]; [reflexivity|].
  rewrite string_app_cons. simpl. rewrite IH. lia.
Qed.

(** The decimal digits printed for a number hold neither [?] nor [$]. *)
Lemma count_byte_uint c (d : Decimal.uint) :
  forallb (fun x => negb (Ascii.eqb x c))
          ["0"; "1"; "2"; "3"; "4"; "5"; "6"; "7"; "8"; "9"; "-"]%char = true ->
  count_byte c (NilEmpty.string_of_uint d) = 0%nat.
Proof.
  intros Hc. cbn [forallb] in Hc. rewrite !andb_true_iff, !negb_true_iff in Hc.
  destruct Hc as (H0 & H1 & H2 & H3 & H4 & H5 & H6 & H7 & H8 & H9 & _).
  induction d as [|d IH|d IH|d IH|d IH|d IH|d IH|d IH|d IH|d IH|d IH];
    cbn [count_byte NilEmpty.string_of_uint]; [reflexivity|..];
    rewrite IH, ?H0, ?H1, ?H2, ?H3, ?H4, ?H5, ?H6, ?H7, ?H8, ?H9; reflexivity.
Qed.

Lemma count_byte_Itoa c (j : Z) :
  forallb (fun x => negb (Ascii.eqb x c))
          ["0"; "1"; "2"; "3"; "4"; "5"; "6"; "7"; "8"; "9"; "-"]%char = true ->
  count_byte c (Itoa j) = 0%nat.
Proof.
  intros Hc. pose proof (fun d => count_byte_uint c d Hc) as Hd.
  cbn [forallb] in Hc. rewrite !andb_true_iff, !negb_true_iff in Hc.
  destruct Hc as (H0 & _ & _ & _ & _ & _ & _ & _ & _ & _ & Hm & _).
  assert (forall d, count_byte c (NilZero.string_of_uint d) = 0%nat) as Hz.
  { intros d. unfold NilZero.string_of_uint.
    destruct d; try apply Hd. cbn [count_byte]. now rewrite H0. }
  unfold Itoa, NilZero.string_of_int.
  destruct (Z.to_int j) as [d|d]; [apply Hz|].
  cbn [count_byte]. now rewrite Hm, Hz.
Qed.

(** [string(b)] holds a [?] only for the byte [?], a [$] only for [$]. *)
Lemma count_byte_string_of_byte (b : ascii) :
  count_byte "?"%char (string_of_byte b) = (if Ascii.eqb b "?"%char then 1 else 0)%nat
  /\ count_byte "$"%char (string_of_byte b) = (if Ascii.eqb b "$"%char then 1 else 0)%nat.
Proof. destruct b as [[] [] [] [] [] [] [] []]; split; reflexivity. Qed.

Lemma is_cont_not_ascii (b : ascii) :
  is_cont b = true -> Ascii.eqb b "?"%char = false /\ Ascii.eqb b "$"%char = false.
Proof. destruct b as [[] [] [] [] [] [] [] []]; intros H; try discriminate H; split; reflexivity. Qed.

(** The bytes a [range] loop steps over after the first byte of a rune are
    continuation bytes. *)
Lemma decoderune_all_cont (c0 : ascii) (rest : string) :
  all_cont (snd (decoderune (String c0 rest)) - 1) rest = true.
Proof.
  unfold decoderune.
  repeat case_match; simpl; try reflexivity; unfold is_cont in *;
    repeat match goal with
           | H : _ && _ = true |- _ => apply andb_prop in H as [? ?]
           end;
    repeat (apply andb_true_intro; split); auto.
Qed.

Lemma replace_loop_no_placeholder (buf : string) :
  forall skip j query,
    count_byte "?"%char (Postgresql.replace_loop skip j query buf)
    = count_byte "?"%char query.
Proof.
  induction buf as [|b rest IH]; intros skip j query; simpl; [reflexivity|].
  destruct skip as [|k]; [|apply IH].
  destruct (Ascii.eqb b "?"%char) eqn:Hb; rewrite IH, !count_byte_app.
  - rewrite count_byte_Itoa by reflexivity. simpl. lia.
  - rewrite (proj1 (count_byte_string_of_byte b)), Hb. lia.
Qed.

(** X2. Whatever the text, the postgresql rewriting leaves no [?] in its
    result: every placeholder is replaced, also next to bytes above 0x7F. *)
Theorem pg_placeholders_none_left (buf : string) :
  count_byte "?"%char (Postgresql.CompileAndReplacePlaceholders buf) = 0%nat.
Proof.
  unfold Postgresql.CompileAndReplacePlaceholders.
  now rewrite replace_loop_no_placeholder.
Qed.

Lemma replace_loop_dollars (buf : string) :
  forall skip j query,
    all_cont skip buf = true ->
    count_byte "$"%char (Postgresql.replace_loop skip j query buf)
    = (count_byte "$"%char query + count_byte "$"%char buf
       + count_byte "?"%char buf)%nat.
Proof.
  induction buf as [|b rest IH]; intros skip j query Hskip.
  - simpl. lia.
  - destruct skip as [|k].
    + cbn [Postgresql.replace_loop count_byte].
      pose proof (decoderune_all_cont b rest) as Hc.
      destruct (Ascii.eqb b "?"%char) eqn:Hb.
      * rewrite (IH _ _ _ Hc), !count_byte_app.
        rewrite count_byte_Itoa by reflexivity.
        apply Ascii.eqb_eq in Hb. subst b. simpl. lia.
      * rewrite (IH _ _ _ Hc), !count_byte_app.
        rewrite (proj2 (count_byte_string_of_byte b)). lia.
    + cbn [all_cont] in Hskip. apply andb_prop in Hskip as [Hb Hrest].
      destruct (is_cont_not_ascii b Hb) as [Hq Hd].
      cbn [Postgresql.replace_loop count_byte]. rewrite (IH _ _ _ Hrest), Hq, Hd. lia.
Qed.

(** X3. Whatever the text, the postgresql rewriting adds one [$] for each [?]
    of the text: every placeholder gets a parameter token and nothing else
    does. *)
Theorem pg_placeholders_one_token_each (buf : string) :
  count_byte "$"%char (Postgresql.CompileAndReplacePlaceholders buf)
  = (count_byte "$"%char buf + count_byte "?"%char buf)%nat.
Proof.
  unfold Postgresql.CompileAndReplacePlaceholders.
  now rewrite replace_loop_dollars.
Qed.

(** ** Opening, closing and cloning sqlite adapters *)

Lemma Bind_at w d b bv sess :
  adapter_at w d b bv ->
  Bind d sess w
  = (Ret None,
     set_bases (<[b := mkBase (b_partial bv) (b_connURL bv) sess (b_tx bv) (b_schema bv)]>
                  (bases w)) w).
Proof.
  intros H. unfold Bind, bind. rewrite (base_of_at _ _ _ _ H).
  destruct H as (v & _ & _ & Hx). now rewrite (read_base_at _ _ _ Hx).
Qed.

(** The retry loop stops at the first attempt that succeeds. *)
Lemma wait_loop_first_ok {S : Type} Err n (fn : S -> M (S * error)) s w r w' :
  fn s w = (Ret r, w') -> snd r = None ->
  wait_loop Err n fn s w = (Ret r, w').
Proof.
  intros Hfn Hok. destruct n; simpl; unfold bind; rewrite Hfn, Hok; reflexivity.
Qed.

(** The retry loop stops at the first error the translator does not turn
    into [db.ErrTooManyClients]. *)
Lemma wait_loop_first_fatal {S : Type} Err n (fn : S -> M (S * error)) s w r w' e :
  fn s w = (Ret r, w') -> snd r = Some e ->
  (forall t, Err (Some e) = Some t -> same_error t Db.ErrTooManyClients = false) ->
  wait_loop Err n fn s w = (Ret r, w').
Proof.
  intros Hfn He Hfatal.
  destruct n; simpl; unfold bind; rewrite Hfn, He;
    destruct (Err (Some e)) as [t|] eqn:Ht; try reflexivity;
    now rewrite (Hfatal t eq_refl).
Qed.

Lemma sqlite_open_success w d b bv url h rest :
  adapter_at w d b bv -> b_connURL bv = Some url ->
  0 <= fileOpenCount w < Sqlite.maxOpenFiles ->
  opens w = inl h :: rest ->
  Sqlite.open d w = (Ret None, opened w b bv url h rest).
Proof.
  intros Hat Hurl [H0 Hlt] Hopens.
  unfold Sqlite.open, bind at 1. unfold WaitForConnection, bind at 1. simpl.
  rewrite (wait_loop_first_ok Sqlite.Err (retries w) (Sqlite.openFn d) None w
             (Some h, None)
             (set_fileOpenCount (fileOpenCount w + 1)
                (set_opens rest (log_call (SqlOpen "sqlite3" url) w)))).
  - simpl. rewrite (Bind_at _ d b bv (Some h)) by exact Hat. reflexivity.
  - rewrite (openFn_below_cap w d b bv url None Hlt Hat Hurl), Hopens.
    rewrite wrap32_id; [reflexivity|].
    unfold int32, Sqlite.maxOpenFiles in *. lia.
  - reflexivity.
Qed.

Lemma opened_adapter_at w d b bv url h rest :
  adapter_at w d b bv ->
  adapter_at (opened w b bv url h rest) d b
             (mkBase (b_partial bv) (b_connURL bv) (Some h) (b_tx bv) (b_schema bv)).
Proof.
  intros (v & H1 & H2 & H3). exists v. unfold opened. simpl.
  rewrite lookup_insert_eq. auto.
Qed.

Lemma opened_other_adapter_at w d' b' bv' b bv url h rest :
  adapter_at w d' b' bv' -> b' <> b ->
  adapter_at (opened w b bv url h rest) d' b' bv'.
Proof.
  intros (v & H1 & H2 & H3) Hne. exists v. unfold opened. simpl.
  rewrite lookup_insert_ne by congruence. auto.
Qed.

Lemma sqlite_Open_success w d v url h rest :
  dbs w !! d = Some v ->
  0 <= fileOpenCount w < Sqlite.maxOpenFiles ->
  opens w = inl h :: rest ->
  Sqlite.Open d (Some url) w
  = (Ret None,
     opened (with_runtime w d (Some url) v) (fresh (dom (bases w)))
            (mkBase d (Some url) None None (Some (fresh (dom (schemas w)))))
            url h rest).
Proof.
  intros Hd Hcap Hopens. rewrite (sqlite_Open_unfold _ _ _ _ Hd).
  apply sqlite_open_success; auto. apply with_runtime_adapter_at.
Qed.

(** X4. Open, then Close: [Open] on a free slot binds the handle the driver
    hands out and takes one slot of the counter; the [Close] that follows
    gives the slot back and closes that handle. *)
Theorem sqlite_Open_Close_round_trip (w : World) (d : loc) (v : database)
        (url : string) (h : Handle) (rest : list (Handle + errorString)) :
  dbs w !! d = Some v ->
  0 <= fileOpenCount w < Sqlite.maxOpenFiles ->
  opens w = inl h :: rest ->
  exists w1 w2,
    Sqlite.Open d (Some url) w = (Ret None, w1)
    /\ Session d w1 = (Ret (Some h), w1)
    /\ fileOpenCount w1 = fileOpenCount w + 1
    /\ calls w1 = SqlOpen "sqlite3" url :: calls w
    /\ Sqlite.Close d w1 = (Ret None, w2)
    /\ fileOpenCount w2 = fileOpenCount w
    /\ calls w2 = SqlClose h :: SqlOpen "sqlite3" url :: calls w.
Proof.
  intros Hd Hcap Hopens.
  pose proof (opened_adapter_at _ d _ _ url h rest
                (with_runtime_adapter_at w d (Some url) v)) as Hat.
  eexists. eexists.
  split; [apply (sqlite_Open_success w d v url h rest Hd Hcap Hopens)|].
  split; [apply (Session_at _ _ _ _ Hat)|].
  split; [reflexivity|]. split; [reflexivity|].
  rewrite (Close_live _ _ _ _ h Hat eq_refl). simpl.
  replace (fileOpenCount w + 1 - 1) with (fileOpenCount w) by lia.
  rewrite wrap32_id by (unfold int32, Sqlite.maxOpenFiles in *; lia).
  destruct (fileOpenCount w <? 0) eqn:Hneg; [apply Z.ltb_lt in Hneg; lia|].
  split; [reflexivity|]. split; reflexivity.
Qed.

Lemma sqlite_Open_Close_round_trip_witness :
  exists w1 w2,
    Sqlite.Open 1%positive (Some "f.db") world_fresh = (Ret None, w1)
    /\ Session 1%positive w1 = (Ret (Some 7%positive), w1)
    /\ fileOpenCount w1 = fileOpenCount world_fresh + 1
    /\ calls w1 = SqlOpen "sqlite3" "f.db" :: calls world_fresh
    /\ Sqlite.Close 1%positive w1 = (Ret None, w2)
    /\ fileOpenCount w2 = fileOpenCount world_fresh
    /\ calls w2 = SqlClose 7%positive :: SqlOpen "sqlite3" "f.db" :: calls world_fresh.
Proof.
  apply (sqlite_Open_Close_round_trip world_fresh 1%positive (mkDatabase None None)
           "f.db" 7%positive []).
  - reflexivity.
  - simpl. unfold Sqlite.maxOpenFiles. lia.
  - reflexivity.
Defined.



(** X6. [Open] on an adapter that is already open does not close the handle it
    holds: after Open, Open, Close the counter is one above where it
    started and only the second handle has been closed. *)
Theorem sqlite_reopen_keeps_slot (w : World) (d : loc) (v : database)
        (url1 url2 : string) (h1 h2 : Handle) (rest : list (Handle + errorString)) :
  dbs w !! d = Some v ->
  0 <= fileOpenCount w -> fileOpenCount w + 1 < Sqlite.maxOpenFiles ->
  opens w = inl h1 :: inl h2 :: rest ->
  exists w1 w2 w3,
    Sqlite.Open d (Some url1) w = (Ret None, w1)
    /\ Sqlite.Open d (Some url2) w1 = (Ret None, w2)
    /\ Sqlite.Close d w2 = (Ret None, w3)
    /\ fileOpenCount w3 = fileOpenCount w + 1
    /\ calls w3 = SqlClose h2 :: SqlOpen "sqlite3" url2
                    :: SqlOpen "sqlite3" url1 :: calls w.
Proof.
  intros Hd H0 Hlt Hopens.
  pose proof (sqlite_Open_success w d v url1 h1 (inl h2 :: rest) Hd
                ltac:(unfold Sqlite.maxOpenFiles in *; lia) Hopens) as Hopen1.
  set (w1 := opened (with_runtime w d (Some url1) v) (fresh (dom (bases w)))
                    (mkBase d (Some url1) None None (Some (fresh (dom (schemas w)))))
                    url1 h1 (inl h2 :: rest)) in *.
  assert (dbs w1 !! d
          = Some (mkDatabase (Some (fresh (dom (bases w)))) (db_columns v))) as Hd1
      by (subst w1; unfold opened, with_runtime; simpl; apply lookup_insert_eq).
  pose proof (sqlite_Open_success w1 d _ url2 h2 rest Hd1
                ltac:(subst w1; simpl; unfold Sqlite.maxOpenFiles in *; lia)
                eq_refl) as Hopen2.
  pose proof (opened_adapter_at _ d _ _ url2 h2 rest
                (with_runtime_adapter_at w1 d (Some url2)
                   (mkDatabase (Some (fresh (dom (bases w)))) (db_columns v)))) as Hat2.
  exists w1. eexists. eexists.
  split; [exact Hopen1|]. split; [exact Hopen2|].
  rewrite (Close_live _ _ _ _ h2 Hat2 eq_refl). simpl.
  replace (fileOpenCount w + 1 + 1 - 1) with (fileOpenCount w + 1) by lia.
  rewrite wrap32_id by (unfold int32, Sqlite.maxOpenFiles in *; lia).
  destruct (fileOpenCount w + 1 <? 0) eqn:Hneg; [apply Z.ltb_lt in Hneg; lia|].
  split; [reflexivity|]. split; reflexivity.
Qed.

Lemma sqlite_reopen_keeps_slot_witness :
  exists w1 w2 w3,
    Sqlite.Open 1%positive (Some "f.db") (set_opens [inl 7%positive; inl 8%positive] world_fresh)
    = (Ret None, w1)
    /\ Sqlite.Open 1%positive (Some "g.db") w1 = (Ret None, w2)
    /\ Sqlite.Close 1%positive w2 = (Ret None, w3)
    /\ fileOpenCount w3
       = fileOpenCount (set_opens [inl 7%positive; inl 8%positive] world_fresh) + 1
    /\ calls w3 = SqlClose 8%positive :: SqlOpen "sqlite3" "g.db"
                    :: SqlOpen "sqlite3" "f.db"
                    :: calls (set_opens [inl 7%positive; inl 8%positive] world_fresh).
Proof.
  apply (sqlite_reopen_keeps_slot (set_opens [inl 7%positive; inl 8%positive] world_fresh)
           1%positive (mkDatabase None None) "f.db" "g.db" 7%positive 8%positive []).
  - reflexivity.
  - simpl. lia.
  - simpl. unfold Sqlite.maxOpenFiles. lia.
  - reflexivity.
Defined.

Lemma cloned_clone_at w bv :
  adapter_at (cloned w bv) (fresh (dom (dbs w))) (fresh (dom (bases w)))
             (mkBase (fresh (dom (dbs w))) (b_connURL bv) None None (b_schema bv)).
Proof.
  exists (mkDatabase (Some (fresh (dom (bases w)))) None).
  unfold cloned. simpl. rewrite !lookup_insert_eq. auto.
Qed.

Lemma cloned_original_at w d b bv bv' :
  adapter_at w d b bv -> adapter_at (cloned w bv') d b bv.
Proof.
  intros (v & H1 & H2 & H3). exists v. unfold cloned. simpl.
  rewrite !lookup_insert_ne by (eapply fresh_ne; eauto). auto.
Qed.

Lemma sqlite_clone_success w d b bv url h rest :
  adapter_at w d b bv -> b_connURL bv = Some url ->
  0 <= fileOpenCount w < Sqlite.maxOpenFiles ->
  opens w = inl h :: rest ->
  Sqlite.clone d w
  = (Ret (Some (fresh (dom (dbs w))), None),
     opened (cloned w bv) (fresh (dom (bases w)))
            (mkBase (fresh (dom (dbs w))) (b_connURL bv) None None (b_schema bv))
            url h rest).
Proof.
  intros Hat Hurl Hcap Hopens.
  rewrite (sqlite_clone_unfold _ _ _ _ Hat). unfold bind.
  rewrite (sqlite_open_success (cloned w bv) _ _ _ url h rest (cloned_clone_at w bv)
             Hurl Hcap Hopens).
  reflexivity.
Qed.

(** X7. [Clone], then [Close] of the clone: the clone is a new adapter with a
    handle of its own and one more slot taken; closing it gives the slot
    back and closes the clone's handle, and the adapter cloned from reads
    the same handle throughout. *)
Theorem sqlite_Clone_Close_round_trip (w : World) (d b : loc) (bv : BaseDatabase)
        (url : string) (h : Handle) (rest : list (Handle + errorString)) :
  adapter_at w d b bv -> b_connURL bv = Some url ->
  0 <= fileOpenCount w < Sqlite.maxOpenFiles ->
  opens w = inl h :: rest ->
  exists c w1 w2,
    Sqlite.Clone d w = (Ret (Sqlite.database_ptr (Some c), None), w1)
    /\ c <> d
    /\ Session c w1 = (Ret (Some h), w1)
    /\ Session d w1 = (Ret (b_sess bv), w1)
    /\ fileOpenCount w1 = fileOpenCount w + 1
    /\ Sqlite.Close c w1 = (Ret None, w2)
    /\ fileOpenCount w2 = fileOpenCount w
    /\ calls w2 = SqlClose h :: SqlOpen "sqlite3" url :: calls w
    /\ Session d w2 = (Ret (b_sess bv), w2).
Proof.
  intros Hat Hurl Hcap Hopens.
  pose proof (sqlite_clone_success w d b bv url h rest Hat Hurl Hcap Hopens) as Hclone.
  pose proof (opened_adapter_at _ _ _ _ url h rest (cloned_clone_at w bv)) as Hc1.
  assert (fresh (dom (bases w)) <> b) as Hbb
      by (destruct Hat as (v & _ & _ & Hb); eapply fresh_ne; eauto).
  assert (fresh (dom (dbs w)) <> d) as Hcd
      by (destruct Hat as (v & Hd & _); eapply fresh_ne; eauto).
  pose proof (opened_other_adapter_at (cloned w bv) d b bv (fresh (dom (bases w)))
                (mkBase (fresh (dom (dbs w))) (b_connURL bv) None None (b_schema bv))
                url h rest (cloned_original_at w d b bv bv Hat)
                (not_eq_sym Hbb)) as Hd1.
  exists (fresh (dom (dbs w))). eexists. eexists.
  split; [unfold Sqlite.Clone, bind; rewrite Hclone; reflexivity|].
  split; [exact Hcd|].
  split; [apply (Session_at _ _ _ _ Hc1)|].
  split; [apply (Session_at _ _ _ _ Hd1)|].
  split; [reflexivity|].
  rewrite (Close_live _ _ _ _ h Hc1 eq_refl). simpl.
  replace (fileOpenCount w + 1 - 1) with (fileOpenCount w) by lia.
  rewrite wrap32_id by (unfold int32, Sqlite.maxOpenFiles in *; lia).
  destruct (fileOpenCount w <? 0) eqn:Hneg; [apply Z.ltb_lt in Hneg; lia|].
  split; [reflexivity|]. split; [reflexivity|]. split; [reflexivity|].
  apply (Session_at _ d b bv).
  destruct Hd1 as (v & H1 & H2 & H3). exists v. auto.
Qed.

Lemma sqlite_Clone_Close_round_trip_witness :
  exists c w1 w2,
    Sqlite.Clone 1%positive world_before_tx
    = (Ret (Sqlite.database_ptr (Some c), None), w1)
    /\ c <> 1%positive
    /\ Session c w1 = (Ret (Some 8%positive), w1)
    /\ Session 1%positive w1 = (Ret (Some 7%positive), w1)
    /\ fileOpenCount w1 = fileOpenCount world_before_tx + 1
    /\ Sqlite.Close c w1 = (Ret None, w2)
    /\ fileOpenCount w2 = fileOpenCount world_before_tx
    /\ calls w2 = SqlClose 8%positive :: SqlOpen "sqlite3" "f.db" :: calls world_before_tx
    /\ Session 1%positive w2 = (Ret (Some 7%positive), w2).
Proof.
  apply (sqlite_Clone_Close_round_trip world_before_tx 1%positive 1%positive
           (mkBase 1%positive (Some "f.db") (Some 7%positive) None (Some 1%positive))
           "f.db" 8%positive []).
  - exists (mkDatabase (Some 1%positive) None). repeat split; reflexivity.
  - reflexivity.
  - simpl. unfold Sqlite.maxOpenFiles. lia.
  - reflexivity.
Defined.

(** X8. When the clone opens but [Begin] fails with an error that is not a
    connection exhaustion, [Transaction] returns that error and does not
    close the clone: the slot the clone took stays taken and no handle is
    closed. *)
Theorem sqlite_Transaction_failed_Begin_keeps_slot (w : World) (d b : loc)
        (bv : BaseDatabase) (url : string) (h : Handle)
        (rest : list (Handle + errorString)) (e : errorString)
        (rest' : list (TxHandle + errorString)) :
  adapter_at w d b bv -> b_connURL bv = Some url ->
  0 <= fileOpenCount w < Sqlite.maxOpenFiles ->
  opens w = inl h :: rest ->
  begins w = inr e :: rest' ->
  same_error e Sqlite.errTooManyOpenFiles = false ->
  same_error e Db.ErrTooManyClients = false ->
  fst (Sqlite.Transaction d w) = Ret (None, Some e)
  /\ fileOpenCount (snd (Sqlite.Transaction d w)) = fileOpenCount w + 1
  /\ calls (snd (Sqlite.Transaction d w))
     = SqlBegin h :: SqlOpen "sqlite3" url :: calls w.
Proof.
  intros Hat Hurl Hcap Hopens Hbegins Hne1 Hne2.
  pose proof (sqlite_clone_success w d b bv url h rest Hat Hurl Hcap Hopens) as Hclone.
  pose proof (opened_adapter_at _ _ _ _ url h rest (cloned_clone_at w bv)) as Hc1.
  set (c := fresh (dom (dbs w))) in *.
  match type of Hclone with _ = (_, ?x) => set (w1 := x) in * end.
  assert (Sqlite.Transaction d w
          = (Ret (None, Some e), set_begins rest' (log_call (SqlBegin h) w1))) as Hrun.
  { unfold Sqlite.Transaction, bind at 1. rewrite Hclone. simpl.
    unfold bind at 1. unfold WaitForConnection, bind at 1. simpl.
    rewrite (wait_loop_first_fatal Sqlite.Err (retries w) (Sqlite.connFn c) None w1
               (None, Some e) (set_begins rest' (log_call (SqlBegin h) w1)) e).
    - reflexivity.
    - rewrite (connFn_at _ _ _ _ None Hc1). simpl.
      subst w1. unfold opened. simpl. rewrite Hbegins. reflexivity.
    - reflexivity.
    - intros t Ht. unfold Sqlite.Err in Ht. rewrite Hne1 in Ht.
      injection Ht as <-. exact Hne2. }
  rewrite Hrun. simpl. auto.
Qed.

Lemma sqlite_Transaction_failed_Begin_keeps_slot_witness :
  fst (Sqlite.Transaction 1%positive (set_begins [inr ioError] world_before_tx))
  = Ret (None, Some ioError)
  /\ fileOpenCount (snd (Sqlite.Transaction 1%positive
                           (set_begins [inr ioError] world_before_tx)))
     = fileOpenCount (set_begins [inr ioError] world_before_tx) + 1
  /\ calls (snd (Sqlite.Transaction 1%positive
                   (set_begins [inr ioError] world_before_tx)))
     = SqlBegin 8%positive :: SqlOpen "sqlite3" "f.db"
         :: calls (set_begins [inr ioError] world_before_tx).
Proof.
  apply (sqlite_Transaction_failed_Begin_keeps_slot
           (set_begins [inr ioError] world_before_tx) 1%positive 1%positive
           (mkBase 1%positive (Some "f.db") (Some 7%positive) None (Some 1%positive))
           "f.db" 8%positive [] ioError []).
  - exists (mkDatabase (Some 1%positive) None). repeat split; reflexivity.
  - reflexivity.
  - simpl. unfold Sqlite.maxOpenFiles. lia.
  - reflexivity.
  - reflexivity.
  - reflexivity.
  - reflexivity.
Defined.

(** ** What the catalog functions return *)

Lemma pg_scan_names_eq : Postgresql.scan_names = Sqlite.scan_names.
Proof. reflexivity. Qed.

Lemma scan_names_all rows :
  forall acc,
    Forall (fun r => row_scan r = None) rows ->
    Sqlite.scan_names rows acc
    = (match rows with
       | [] => acc
       | _ => Some (default [] acc ++ map row_name rows)%list
       end, None).
Proof.
  induction rows as [|r rows IH]; intros acc Hall; [reflexivity|].
  inversion Hall as [|? ? Hr Hrows]; subst.
  simpl. rewrite Hr, (IH _ Hrows).
  destruct rows as [|r' rows]; simpl.
  - destruct acc; reflexivity.
  - destruct acc; simpl; [rewrite <- app_assoc|]; reflexivity.
Qed.

Lemma scan_names_first_error pre r post e :
  forall acc,
    Forall (fun r => row_scan r = None) pre -> row_scan r = Some e ->
    Sqlite.scan_names (pre ++ r :: post) acc = (None, Some e).
Proof.
  induction pre as [|p pre IH]; intros acc Hall He; simpl.
  - now rewrite He.
  - inversion Hall as [|? ? Hp Hpre]; subst. rewrite Hp. now apply IH.
Qed.

Lemma pg_Collections_at w d b bv :
  adapter_at w d b bv ->
  fst (Postgresql.Collections d w)
  = Ret (Sqlite.scan_names (iter_rows (next_cursor w)) None).
Proof.
  intros H. unfold Postgresql.Collections, bind.
  match goal with |- context [Iterator d ?q] =>
    rewrite (Iterator_at _ _ _ _ q H) end.
  now rewrite pg_scan_names_eq.
Qed.

(** X11. [Collections] of both adapters: a catalog query that fails gives the nil
    list with a nil error; rows that all decode give their names in the
    order delivered (the nil list when there is none); the first row that
    does not decode gives its error and the nil list. *)
Theorem Collections_result (w : World) (d b : loc) (bv : BaseDatabase) :
  adapter_at w d b bv ->
  (forall e,
     cur_query_err (next_cursor w) = Some e ->
     fst (Sqlite.Collections d w) = Ret (None, None)
     /\ fst (Postgresql.Collections d w) = Ret (None, None))
  /\ (cur_query_err (next_cursor w) = None ->
      Forall (fun r => row_scan r = None) (cur_rows (next_cursor w)) ->
      fst (Sqlite.Collections d w)
      = Ret (match cur_rows (next_cursor w) with
             | [] => None
             | rows => Some (map row_name rows)
             end, None)
      /\ fst (Postgresql.Collections d w) = fst (Sqlite.Collections d w))
  /\ (forall pre r post e,
        cur_query_err (next_cursor w) = None ->
        cur_rows (next_cursor w) = (pre ++ r :: post)%list ->
        Forall (fun r => row_scan r = None) pre -> row_scan r = Some e ->
        fst (Sqlite.Collections d w) = Ret (None, Some e)
        /\ fst (Postgresql.Collections d w) = Ret (None, Some e)).
Proof.
  intros Hat.
  rewrite (pg_Collections_at _ _ _ _ Hat), (sqlite_Collections_at _ _ _ _ Hat).
  unfold iter_rows. simpl.
  split; [intros e ->; split; reflexivity|].
  split.
  - intros -> Hall. rewrite (scan_names_all _ None Hall).
    split; [|reflexivity]. destruct (cur_rows (next_cursor w)); reflexivity.
  - intros pre r post e -> -> Hall He.
    rewrite (scan_names_first_error pre r post e None Hall He). split; reflexivity.
Qed.

Lemma Collections_result_witness :
  fst (Sqlite.Collections 1%positive (world_open [mkCursor (Some ioError) [] None]))
  = Ret (None, None)
  /\ fst (Postgresql.Collections 1%positive
            (world_open [mkCursor (Some ioError) [] None]))
     = Ret (None, None).
Proof.
  apply (proj1 (Collections_result (world_open [mkCursor (Some ioError) [] None])
                  1%positive 1%positive
                  (mkBase 1%positive (Some "f.db") (Some 7%positive) None (Some 1%positive))
                  ltac:(exists (mkDatabase (Some 1%positive) None); repeat split; reflexivity))
               ioError).
  reflexivity.
Defined.

(** X13. The postgresql [TablePrimaryKey] does not look at the iterator's error:
    when the discovery query fails it returns the empty list without an
    error and caches it, so every later call answers "no primary key"
    without asking again. *)
Theorem pg_TablePrimaryKey_failed_query_cached (w : World) (d b : loc)
        (bv : BaseDatabase) (s : loc) (sv : Schema) (t : string) (e : errorString) :
  schema_at w d b bv s sv -> cached sv t = None ->
  cur_query_err (next_cursor w) = Some e ->
  exists w1,
    Postgresql.TablePrimaryKey d t w = (Ret (Some [], None), w1)
    /\ calls w1 = SqlQuery (b_sess bv) (pg_pk_stmt t) :: calls w
    /\ Postgresql.TablePrimaryKey d t w1 = (Ret (Some [], None), w1).
Proof.
  intros H Hc Hq.
  rewrite (pg_TablePrimaryKey_discover _ _ _ _ _ _ _ H Hc).
  unfold iter_rows. rewrite Hq. simpl.
  eexists. split; [reflexivity|]. split; [apply after_query_calls|].
  pose proof (after_query_schema_at (b_sess bv) (pg_pk_stmt t) _ _ _ _ _ _ H) as Hq'.
  apply (pg_TablePrimaryKey_hit _ d b bv s _ t _
           (put_pk_schema_at _ _ _ _ _ _ _ _ Hq')).
  apply put_pk_cached.
Qed.

Lemma pg_TablePrimaryKey_failed_query_cached_witness :
  exists w1,
    Postgresql.TablePrimaryKey 1%positive "t"
      (world_open [mkCursor (Some ioError) [] (Some ioError)])
    = (Ret (Some [], None), w1)
    /\ calls w1
       = SqlQuery (Some 7%positive) (pg_pk_stmt "t")
           :: calls (world_open [mkCursor (Some ioError) [] (Some ioError)])
    /\ Postgresql.TablePrimaryKey 1%positive "t" w1 = (Ret (Some [], None), w1).
Proof.
  apply (pg_TablePrimaryKey_failed_query_cached
           (world_open [mkCursor (Some ioError) [] (Some ioError)])
           1%positive 1%positive
           (mkBase 1%positive (Some "f.db") (Some 7%positive) None (Some 1%positive))
           1%positive (mkSchema "f.db" ∅) "t" ioError).
  - split; [|split; reflexivity].
    exists (mkDatabase (Some 1%positive) None). repeat split; reflexivity.
  - reflexivity.
  - reflexivity.
Defined.

(** X14. The sqlite [TablePrimaryKey] returns the error of a discovery that
    fails, be it the query or the decoding of a row, with a nil list, and
    caches nothing: the table is still undiscovered afterwards. *)
Theorem sqlite_TablePrimaryKey_failure_not_cached (w : World) (d b : loc)
        (bv : BaseDatabase) (s : loc) (sv : Schema) (t : string) (e : errorString) :
  schema_at w d b bv s sv -> cached sv t = None ->
  cur_query_err (next_cursor w) = Some e
  \/ (cur_query_err (next_cursor w) = None /\ All (next_cursor w) = inr e) ->
  fst (Sqlite.TablePrimaryKey d t w) = Ret (None, Some e)
  /\ PrimaryKeys d t (snd (Sqlite.TablePrimaryKey d t w))
     = (Ret None, snd (Sqlite.TablePrimaryKey d t w)).
Proof.
  intros H Hc Hfail.
  rewrite (sqlite_TablePrimaryKey_discover _ _ _ _ _ _ _ H Hc). simpl.
  pose proof (after_query_schema_at (b_sess bv) (sqlite_pk_stmt t) _ _ _ _ _ _ H) as Hq.
  destruct (init_columns_at _ _ _ _ _ _ Hq) as [_ [Hi _]].
  destruct Hfail as [Hq1|[Hq1 Hall]]; rewrite Hq1; [|rewrite Hall]; simpl;
    (split; [reflexivity|]).
  - rewrite (PrimaryKeys_at _ _ _ _ _ _ t Hq). now rewrite Hc.
  - rewrite (PrimaryKeys_at _ _ _ _ _ _ t Hi). now rewrite Hc.
Qed.

Lemma sqlite_TablePrimaryKey_failure_not_cached_witness :
  fst (Sqlite.TablePrimaryKey 1%positive "t"
         (world_open [mkCursor None [mkRow "id" 1 (Some ioError)] None]))
  = Ret (None, Some ioError)
  /\ PrimaryKeys 1%positive "t"
       (snd (Sqlite.TablePrimaryKey 1%positive "t"
               (world_open [mkCursor None [mkRow "id" 1 (Some ioError)] None])))
     = (Ret None,
        snd (Sqlite.TablePrimaryKey 1%positive "t"
               (world_open [mkCursor None [mkRow "id" 1 (Some ioError)] None]))).
Proof.
  apply (sqlite_TablePrimaryKey_failure_not_cached
           (world_open [mkCursor None [mkRow "id" 1 (Some ioError)] None])
           1%positive 1%positive
           (mkBase 1%positive (Some "f.db") (Some 7%positive) None (Some 1%positive))
           1%positive (mkSchema "f.db" ∅) "t" ioError).
  - split; [|split; reflexivity].
    exists (mkDatabase (Some 1%positive) None). repeat split; reflexivity.
  - reflexivity.
  - right. split; reflexivity.
Defined.

(** ** Error translation, again *)

(** X15. [Err] of both adapters never turns an error into nil, and translating
    twice is translating once: the shared kind [db.ErrTooManyClients] is
    itself left as it is. *)
Theorem Err_idempotent (err : error) :
  Sqlite.Err (Sqlite.Err err) = Sqlite.Err err
  /\ Postgresql.Err (Postgresql.Err err) = Postgresql.Err err
  /\ (Sqlite.Err err = None <-> err = None)
  /\ (Postgresql.Err err = None <-> err = None).
Proof.
  destruct err as [e|]; [|repeat split; reflexivity].
  unfold Sqlite.Err at 2 3 4, Postgresql.Err at 2 3 4.
  destruct (same_error e Sqlite.errTooManyOpenFiles) eqn:Hs;
    destruct (Contains (err_text e) "too many clients"
              || Contains (err_text e) "remaining connection slots are reserved") eqn:Hp;
    repeat split; try discriminate; try reflexivity;
    unfold Sqlite.Err, Postgresql.Err; rewrite ?Hs, ?Hp; reflexivity.
Qed.

(** ** [PopulateSchema] of the postgresql adapter *)

Lemma NewSchema_at w d b bv :
  adapter_at w d b bv ->
  NewSchema d w
  = (Ret (fresh (dom (schemas w))),
     set_bases (<[b := mkBase (b_partial bv) (b_connURL bv) (b_sess bv) (b_tx bv)
                              (Some (fresh (dom (schemas w))))]> (bases w))
       (set_schemas (<[fresh (dom (schemas w)) := mkSchema EmptyString ∅]> (schemas w)) w)).
Proof.
  intros H. unfold NewSchema, bind. rewrite (base_of_at _ _ _ _ H).
  destruct H as (v & _ & _ & Hx). now rewrite (read_base_at _ _ _ Hx).
Qed.

(** X16. The postgresql [PopulateSchema]: with no row delivered it returns the
    iterator's error, so a failed query is reported and an empty answer is
    not; with a row it returns what [Scan] returns, and when the row decodes
    the schema carries its text as the database name, which [TableExists]
    then sends as the catalog to look in. *)
Theorem pg_PopulateSchema_result (w : World) (d b : loc) (bv : BaseDatabase) :
  adapter_at w d b bv ->
  (iter_rows (next_cursor w) = [] ->
   fst (Postgresql.PopulateSchema d w) = Ret (iter_Err (next_cursor w)))
  /\ (forall r rows,
        iter_rows (next_cursor w) = r :: rows ->
        fst (Postgresql.PopulateSchema d w) = Ret (row_scan r)
        /\ (row_scan r = None ->
            Schema_Name d (snd (Postgresql.PopulateSchema d w))
            = (Ret (row_name r), snd (Postgresql.PopulateSchema d w))
            /\ forall name,
                 calls (snd (Postgresql.TableExists d name
                               (snd (Postgresql.PopulateSchema d w))))
                 = SqlQuery (b_sess bv) (pg_exists_stmt (row_name r) name)
                     :: calls (snd (Postgresql.PopulateSchema d w)))).
Proof.
  intros Hat.
  set (s := fresh (dom (schemas w))).
  set (bv' := mkBase (b_partial bv) (b_connURL bv) (b_sess bv) (b_tx bv) (Some s)).
  set (w1 := set_bases (<[b := bv']> (bases w))
               (set_schemas (<[s := mkSchema EmptyString ∅]> (schemas w)) w)).
  assert (adapter_at w1 d b bv') as Hat1.
  { destruct Hat as (v & H1 & H2 & H3). exists v. subst w1. simpl.
    rewrite lookup_insert_eq. auto. }
  assert (Postgresql.PopulateSchema d w
          = match iter_rows (next_cursor w) with
            | r :: _ =>
              (Ret (row_scan r),
               set_schemas
                 (<[s := mkSchema (match row_scan r with
                                   | None => row_name r
                                   | Some _ => EmptyString
                                   end) ∅]>
                    (schemas (after_query (b_sess bv) Postgresql.current_database_stmt w1)))
                 (after_query (b_sess bv) Postgresql.current_database_stmt w1))
            | [] => (Ret (iter_Err (next_cursor w)),
                     after_query (b_sess bv) Postgresql.current_database_stmt w1)
            end) as Hrun.
  { unfold Postgresql.PopulateSchema, bind at 1.
    rewrite (NewSchema_at _ _ _ _ Hat). fold s bv' w1.
    unfold bind at 1.
    rewrite (Iterator_at _ _ _ _ Postgresql.current_database_stmt Hat1).
    change (next_cursor w1) with (next_cursor w). simpl.
    destruct (iter_rows (next_cursor w)) as [|r rows]; [reflexivity|].
    unfold bind, SetName, bind, read_schema.
    assert (schemas (after_query (b_sess bv) Postgresql.current_database_stmt w1) !! s
            = Some (mkSchema EmptyString ∅)) as ->.
    { unfold after_query, run_query. destruct (cursors w1); simpl; apply lookup_insert_eq. }
    reflexivity. }
  rewrite Hrun. split; [intros ->; reflexivity|].
  intros r rows ->. simpl. split; [reflexivity|].
  intros Hok. rewrite Hok.
  match goal with |- Schema_Name d ?w2 = _ /\ _ =>
    assert (schema_at w2 d b bv' s (mkSchema (row_name r) ∅)) as Hs2
  end.
  { split; [|split; [reflexivity | simpl; apply lookup_insert_eq]].
    destruct Hat1 as (v & H1 & H2 & H3). exists v.
    unfold after_query, run_query. destruct (cursors w1); simpl; auto. }
  split.
  - unfold Schema_Name, bind. rewrite (Schema_loc_at _ _ _ _ _ _ Hs2).
    unfold read_schema. now rewrite (proj2 (proj2 Hs2)).
  - intros name. rewrite (pg_TableExists_at _ _ _ _ _ _ name Hs2).
    cbn [snd]. rewrite after_query_calls. reflexivity.
Qed.

Lemma pg_PopulateSchema_result_witness :
  fst (Postgresql.PopulateSchema 1%positive
         (world_open [mkCursor (Some ioError) [] (Some ioError)]))
  = Ret (Some ioError).
Proof.
  apply (proj1 (pg_PopulateSchema_result
                  (world_open [mkCursor (Some ioError) [] (Some ioError)])
                  1%positive 1%positive
                  (mkBase 1%positive (Some "f.db") (Some 7%positive) None (Some 1%positive))
                  ltac:(exists (mkDatabase (Some 1%positive) None);
                        repeat split; reflexivity))).
  reflexivity.
Defined.

(** ** Opening a postgresql adapter *)

Lemma bound_adapter_at w d b bv sess :
  adapter_at w d b bv ->
  adapter_at
    (set_bases (<[b := mkBase (b_partial bv) (b_connURL bv) sess (b_tx bv) (b_schema bv)]>
                  (bases w)) w)
    d b (mkBase (b_partial bv) (b_connURL bv) sess (b_tx bv) (b_schema bv)).
Proof.
  intros (v & H1 & H2 & H3). exists v. simpl. rewrite lookup_insert_eq. auto.
Qed.

Lemma pg_open_connFn_at w d b bv url sess :
  adapter_at w d b bv -> b_connURL bv = Some url ->
  Postgresql.open_connFn d sess w = sql_Open "postgres" url w.
Proof.
  intros Hat Hurl. unfold Postgresql.open_connFn, bind.
  now rewrite (ConnectionURL_String_at _ _ _ _ _ Hat Hurl).
Qed.

(** X17. The postgresql [Open] with a descriptor.  A handle from the driver is
    bound to the adapter.  An error that [Err] does not read as "too many
    clients" is returned as it is after a single call of the driver, and no
    handle is bound.  An error that [Err] reads as "too many clients" is
    tried again when the policy allows a retry, and the handle of the second
    call is bound. *)
Theorem pg_Open_result (w : World) (d : loc) (v : database) (url : string) :
  dbs w !! d = Some v ->
  (forall h rest,
     opens w = inl h :: rest ->
     exists w1,
       Postgresql.Open d (Some url) w = (Ret None, w1)
       /\ Session d w1 = (Ret (Some h), w1)
       /\ calls w1 = SqlOpen "postgres" url :: calls w)
  /\ (forall e rest,
        opens w = inr e :: rest ->
        Postgresql.Err (Some e) = Some e ->
        same_error e Db.ErrTooManyClients = false ->
        exists w1,
          Postgresql.Open d (Some url) w = (Ret (Some e), w1)
          /\ Session d w1 = (Ret None, w1)
          /\ calls w1 = SqlOpen "postgres" url :: calls w)
  /\ (forall e h rest n,
        opens w = inr e :: inl h :: rest ->
        Postgresql.Err (Some e) = Some Db.ErrTooManyClients ->
        retries w = S n ->
        exists w1,
          Postgresql.Open d (Some url) w = (Ret None, w1)
          /\ Session d w1 = (Ret (Some h), w1)
          /\ calls w1 = SqlOpen "postgres" url :: SqlOpen "postgres" url :: calls w).
Proof.
  intros Hd.
  pose proof (with_runtime_adapter_at w d (Some url) v) as Hat.
  set (w0 := with_runtime w d (Some url) v) in *.
  assert (Postgresql.Open d (Some url) w = Postgresql.open d w0) as Hopen.
  { unfold Postgresql.Open, bind at 1. unfold NewDatabase.
    unfold bind at 1. unfold set_BaseDatabase, bind at 1.
    unfold read_db. simpl. rewrite Hd. reflexivity. }
  assert (forall sess u, Postgresql.open_connFn d sess (set_opens u (log_call (SqlOpen "postgres" url) w0))
                         = sql_Open "postgres" url (set_opens u (log_call (SqlOpen "postgres" url) w0)))
    as Hfn2
      by (intros sess u;
          exact (pg_open_connFn_at (set_opens u (log_call (SqlOpen "postgres" url) w0))
                   d _ _ url sess Hat eq_refl)).
  pose proof (fun sess => pg_open_connFn_at w0 d _ _ url sess Hat eq_refl) as Hfn.
  split; [|split].
  - intros h rest Hopens. rewrite Hopen.
    eexists. split.
    + unfold Postgresql.open, bind at 1. unfold WaitForConnection, bind at 1. simpl.
      rewrite (wait_loop_first_ok Postgresql.Err (retries w) (Postgresql.open_connFn d)
                 None w0 (Some h, None)
                 (set_opens rest (log_call (SqlOpen "postgres" url) w0))).
      * simpl.
        rewrite (Bind_at (set_opens rest (log_call (SqlOpen "postgres" url) w0))
                   d _ _ (Some h) Hat).
        reflexivity.
      * rewrite Hfn. unfold sql_Open.
        change (opens w0) with (opens w). now rewrite Hopens.
      * reflexivity.
    + split; [|reflexivity].
      exact (Session_at _ _ _ _
               (bound_adapter_at
                  (set_opens rest (log_call (SqlOpen "postgres" url) w0))
                  d _ _ (Some h) Hat)).
  - intros e rest Hopens Herr Hne. rewrite Hopen.
    eexists. split.
    + unfold Postgresql.open, bind at 1. unfold WaitForConnection, bind at 1. simpl.
      rewrite (wait_loop_first_fatal Postgresql.Err (retries w) (Postgresql.open_connFn d)
                 None w0 (None, Some e)
                 (set_opens rest (log_call (SqlOpen "postgres" url) w0)) e).
      * reflexivity.
      * rewrite Hfn. unfold sql_Open.
        change (opens w0) with (opens w). now rewrite Hopens.
      * reflexivity.
      * intros t Ht. rewrite Herr in Ht. now injection Ht as <-.
    + split; [|reflexivity].
      exact (Session_at (set_opens rest (log_call (SqlOpen "postgres" url) w0))
               _ _ _ Hat).
  - intros e h rest n Hopens Herr Hn. rewrite Hopen.
    eexists. split.
    + unfold Postgresql.open, bind at 1. unfold WaitForConnection, bind at 1. simpl.
      change (retries w0) with (retries w). rewrite Hn.
      cbn [wait_loop]. unfold bind at 1. rewrite Hfn. unfold sql_Open at 1.
      change (opens w0) with (opens w). rewrite Hopens.
      cbn [snd fst]. rewrite Herr.
      change (same_error Db.ErrTooManyClients Db.ErrTooManyClients) with true.
      cbv iota.
      rewrite (wait_loop_first_ok Postgresql.Err n (Postgresql.open_connFn d)
                 None (set_opens (inl h :: rest) (log_call (SqlOpen "postgres" url) w0))
                 (Some h, None)
                 (set_opens rest
                    (log_call (SqlOpen "postgres" url)
                       (set_opens (inl h :: rest)
                          (log_call (SqlOpen "postgres" url) w0))))).
      * simpl.
        rewrite (Bind_at (set_opens rest
                            (log_call (SqlOpen "postgres" url)
                               (set_opens (inl h :: rest)
                                  (log_call (SqlOpen "postgres" url) w0))))
                   d _ _ (Some h) Hat).
        reflexivity.
      * rewrite Hfn2. reflexivity.
      * reflexivity.
    + split; [|reflexivity].
      exact (Session_at _ _ _ _
               (bound_adapter_at
                  (set_opens rest
                     (log_call (SqlOpen "postgres" url)
                        (set_opens (inl h :: rest)
                           (log_call (SqlOpen "postgres" url) w0))))
                  d _ _ (Some h) Hat)).
Qed.

Lemma pg_Open_result_witness :
  exists w1,
    Postgresql.Open 1%positive (Some "postgres://db")
      (set_opens [inr (mkError 50 "pq: sorry, too many clients already"); inl 7%positive]
                 world_fresh)
    = (Ret None, w1)
    /\ Session 1%positive w1 = (Ret (Some 7%positive), w1)
    /\ calls w1
       = SqlOpen "postgres" "postgres://db" :: SqlOpen "postgres" "postgres://db"
           :: calls (set_opens [inr (mkError 50 "pq: sorry, too many clients already");
                                inl 7%positive] world_fresh).
Proof.
  apply (proj2 (proj2 (pg_Open_result
           (set_opens [inr (mkError 50 "pq: sorry, too many clients already");
                       inl 7%positive] world_fresh)
           1%positive (mkDatabase None None) "postgres://db" eq_refl))
           (mkError 50 "pq: sorry, too many clients already") 7%positive [] 2%nat);
    reflexivity.
Defined.

(** ** Transactions from one adapter *)

Lemma sqlite_Transaction_success w d b bv url h rest t rest' :
  adapter_at w d b bv -> b_connURL bv = Some url ->
  0 <= fileOpenCount w < Sqlite.maxOpenFiles ->
  opens w = inl h :: rest ->
  begins w = inl t :: rest' ->
  Sqlite.Transaction d w
  = (Ret (Some (mkTx (fresh (dom (dbs w))) (Some t)), None),
     tx_started w bv url h rest t rest').
Proof.
  intros Hat Hurl Hcap Hopens Hbegins.
  pose proof (sqlite_clone_success w d b bv url h rest Hat Hurl Hcap Hopens) as Hclone.
  pose proof (opened_adapter_at _ _ _ _ url h rest (cloned_clone_at w bv)) as Hc1.
  set (c := fresh (dom (dbs w))) in *.
  set (b' := fresh (dom (bases w))) in *.
  match type of Hclone with _ = (_, ?x) => set (w1 := x) in * end.
  unfold Sqlite.Transaction, bind at 1. rewrite Hclone. simpl.
  unfold bind at 1. unfold WaitForConnection, bind at 1. simpl.
  rewrite (wait_loop_first_ok Sqlite.Err (retries w) (Sqlite.connFn c) None w1
             (Some t, None) (set_begins rest' (log_call (SqlBegin h) w1))).
  - simpl. unfold bind at 1.
    rewrite (BindTx_at (set_begins rest' (log_call (SqlBegin h) w1)) c b' _ (Some t) Hc1).
    unfold bind at 1.
    match goal with |- context [Tx c ?w6] =>
      assert (Tx c w6 = (Ret (Some t), w6)) as ->
    end.
    { apply (Tx_at _ c b'
               (mkBase c (b_connURL bv) (Some h) (Some t) (b_schema bv))).
      destruct Hc1 as (v & H1 & H2 & H3). exists v.
      split; [exact H1|]. split; [exact H2|]. apply lookup_insert_eq. }
    reflexivity.
  - rewrite (connFn_at _ _ _ _ None Hc1). simpl.
    subst w1. unfold opened. simpl. rewrite Hbegins. reflexivity.
  - reflexivity.
Qed.

(** Every adapter of the state [Transaction] starts from is still there,
    with its runtime as it was. *)
Lemma tx_started_other_at w bv url h rest t rest' x bx xv :
  adapter_at w x bx xv ->
  adapter_at (tx_started w bv url h rest t rest') x bx xv.
Proof.
  intros (v & H1 & H2 & H3). exists v. unfold tx_started, opened, cloned. simpl.
  rewrite !lookup_insert_ne by (eapply fresh_ne; eauto). auto.
Qed.

Lemma tx_started_clone_at w bv url h rest t rest' :
  adapter_at (tx_started w bv url h rest t rest')
             (fresh (dom (dbs w))) (fresh (dom (bases w)))
             (mkBase (fresh (dom (dbs w))) (b_connURL bv) (Some h) (Some t) (b_schema bv)).
Proof.
  exists (mkDatabase (Some (fresh (dom (bases w)))) None).
  unfold tx_started, opened, cloned. simpl. rewrite !lookup_insert_eq. auto.
Qed.

(** X9. Two transactions started from the same sqlite adapter run on two
    different clones, each with the handle and the transaction the driver
    gave it; starting the second leaves the first as it was, the adapter
    they start from keeps its handle and stays outside any transaction, and
    two slots of the counter are taken. *)
Theorem sqlite_two_transactions (w : World) (d b : loc) (bv : BaseDatabase)
        (url : string) (h1 h2 : Handle) (rest : list (Handle + errorString))
        (t1 t2 : TxHandle) (rest' : list (TxHandle + errorString)) :
  adapter_at w d b bv -> b_connURL bv = Some url ->
  0 <= fileOpenCount w -> fileOpenCount w + 1 < Sqlite.maxOpenFiles ->
  opens w = inl h1 :: inl h2 :: rest ->
  begins w = inl t1 :: inl t2 :: rest' ->
  exists c1 c2 w1 w2,
    Sqlite.Transaction d w = (Ret (Some (mkTx c1 (Some t1)), None), w1)
    /\ Sqlite.Transaction d w1 = (Ret (Some (mkTx c2 (Some t2)), None), w2)
    /\ c1 <> c2 /\ c1 <> d /\ c2 <> d
    /\ Session c1 w2 = (Ret (Some h1), w2) /\ Tx c1 w2 = (Ret (Some t1), w2)
    /\ Session c2 w2 = (Ret (Some h2), w2) /\ Tx c2 w2 = (Ret (Some t2), w2)
    /\ Session d w2 = (Ret (b_sess bv), w2) /\ Tx d w2 = (Ret (b_tx bv), w2)
    /\ fileOpenCount w2 = fileOpenCount w + 2.
Proof.
  intros Hat Hurl H0 Hlt Hopens Hbegins.
  pose proof (sqlite_Transaction_success w d b bv url h1 (inl h2 :: rest) t1
                (inl t2 :: rest') Hat Hurl
                ltac:(unfold Sqlite.maxOpenFiles in *; lia) Hopens Hbegins) as Htx1.
  set (w1 := tx_started w bv url h1 (inl h2 :: rest) t1 (inl t2 :: rest')) in *.
  pose proof (tx_started_other_at w bv url h1 (inl h2 :: rest) t1 (inl t2 :: rest')
                d b bv Hat) as Hd1.
  pose proof (tx_started_clone_at w bv url h1 (inl h2 :: rest) t1 (inl t2 :: rest'))
    as Hc1.
  fold w1 in Hd1, Hc1.
  pose proof (sqlite_Transaction_success w1 d b bv url h2 rest t2 rest' Hd1 Hurl
                ltac:(subst w1; simpl; unfold Sqlite.maxOpenFiles in *; lia)
                eq_refl eq_refl) as Htx2.
  set (w2 := tx_started w1 bv url h2 rest t2 rest') in *.
  pose proof (tx_started_other_at w1 bv url h2 rest t2 rest' _ _ _ Hd1) as Hd2.
  pose proof (tx_started_other_at w1 bv url h2 rest t2 rest' _ _ _ Hc1) as Hc12.
  pose proof (tx_started_clone_at w1 bv url h2 rest t2 rest') as Hc2.
  fold w2 in Hd2, Hc12, Hc2.
  exists (fresh (dom (dbs w))), (fresh (dom (dbs w1))), w1, w2.
  split; [exact Htx1|]. split; [exact Htx2|].
  split.
  { destruct Hc1 as (v & H1 & _). intros Heq.
    apply (fresh_ne (dbs w1) _ v H1). now symmetry. }
  split; [destruct Hat as (v & H1 & _); eapply fresh_ne; eauto|].
  split; [destruct Hd1 as (v & H1 & _); eapply fresh_ne; eauto|].
  split; [exact (Session_at _ _ _ _ Hc12)|].
  split; [exact (Tx_at _ _ _ _ Hc12)|].
  split; [exact (Session_at _ _ _ _ Hc2)|].
  split; [exact (Tx_at _ _ _ _ Hc2)|].
  split; [exact (Session_at _ _ _ _ Hd2)|].
  split; [exact (Tx_at _ _ _ _ Hd2)|].
  subst w2 w1. simpl. lia.
Qed.

Lemma sqlite_two_transactions_witness :
  exists c1 c2 w1 w2,
    Sqlite.Transaction 1%positive
      (set_begins [inl 9%positive; inl 10%positive]
         (set_opens [inl 8%positive; inl 11%positive] world_before_tx))
    = (Ret (Some (mkTx c1 (Some 9%positive)), None), w1)
    /\ Sqlite.Transaction 1%positive w1
       = (Ret (Some (mkTx c2 (Some 10%positive)), None), w2)
    /\ c1 <> c2 /\ c1 <> 1%positive /\ c2 <> 1%positive
    /\ Session c1 w2 = (Ret (Some 8%positive), w2)
    /\ Tx c1 w2 = (Ret (Some 9%positive), w2)
    /\ Session c2 w2 = (Ret (Some 11%positive), w2)
    /\ Tx c2 w2 = (Ret (Some 10%positive), w2)
    /\ Session 1%positive w2 = (Ret (Some 7%positive), w2)
    /\ Tx 1%positive w2 = (Ret None, w2)
    /\ fileOpenCount w2
       = fileOpenCount (set_begins [inl 9%positive; inl 10%positive]
                          (set_opens [inl 8%positive; inl 11%positive] world_before_tx))
         + 2.
Proof.
  apply (sqlite_two_transactions
           (set_begins [inl 9%positive; inl 10%positive]
              (set_opens [inl 8%positive; inl 11%positive] world_before_tx))
           1%positive 1%positive
           (mkBase 1%positive (Some "f.db") (Some 7%positive) None (Some 1%positive))
           "f.db" 8%positive 11%positive [] 9%positive 10%positive []).
  - exists (mkDatabase (Some 1%positive) None). repeat split; reflexivity.
  - reflexivity.
  - simpl. lia.
  - simpl. unfold Sqlite.maxOpenFiles. lia.
  - reflexivity.
  - reflexivity.
Defined.

(** ** What [TableExists] returns *)

(** X12. [TableExists] of both adapters looks at the first row delivered only:
    no row gives [db.ErrCollectionDoesNotExist]; a first row gives what
    [Scan] returns on it, nil when it decodes, whatever name it carries.
    The name asked for is the bound argument of the statement sent. *)
Theorem TableExists_result (w : World) (d b : loc) (bv : BaseDatabase)
        (s : loc) (sv : Schema) (name : string) :
  schema_at w d b bv s sv ->
  (iter_rows (next_cursor w) = [] ->
   fst (Sqlite.TableExists d name w) = Ret (Some Db.ErrCollectionDoesNotExist)
   /\ fst (Postgresql.TableExists d name w) = Ret (Some Db.ErrCollectionDoesNotExist))
  /\ (forall r rows,
        iter_rows (next_cursor w) = r :: rows ->
        fst (Sqlite.TableExists d name w) = Ret (row_scan r)
        /\ fst (Postgresql.TableExists d name w) = Ret (row_scan r))
  /\ calls (snd (Sqlite.TableExists d name w))
     = SqlQuery (b_sess bv) (sqlite_exists_stmt name) :: calls w
  /\ calls (snd (Postgresql.TableExists d name w))
     = SqlQuery (b_sess bv) (pg_exists_stmt (sch_name sv) name) :: calls w.
Proof.
  intros H.
  rewrite (sqlite_TableExists_at _ _ _ _ name (proj1 H)).
  rewrite (pg_TableExists_at _ _ _ _ _ _ name H). cbn [fst snd].
  split; [intros ->; split; reflexivity|].
  split; [intros r rows ->; split; reflexivity|].
  split; apply after_query_calls.
Qed.

Lemma TableExists_result_witness :
  fst (Sqlite.TableExists 1%positive "users"
         (world_open [mkCursor None [mkRow "users" 0 None] None]))
  = Ret None
  /\ fst (Postgresql.TableExists 1%positive "users"
            (world_open [mkCursor None [mkRow "users" 0 None] None]))
     = Ret None.
Proof.
  apply (proj1 (proj2 (TableExists_result
           (world_open [mkCursor None [mkRow "users" 0 None] None])
           1%positive 1%positive
           (mkBase 1%positive (Some "f.db") (Some 7%positive) None (Some 1%positive))
           1%positive (mkSchema "f.db" ∅) "users"
           ltac:(split; [exists (mkDatabase (Some 1%positive) None); repeat split; reflexivity
                        | split; reflexivity])))
           (mkRow "users" 0 None) []).
  reflexivity.
Defined.

(** ** Cloning and transactions when the driver refuses *)

Lemma pg_open_success w d b bv url h rest :
  adapter_at w d b bv -> b_connURL bv = Some url ->
  opens w = inl h :: rest ->
  Postgresql.open d w
  = (Ret None,
     set_bases (<[b := mkBase (b_partial bv) (b_connURL bv) (Some h) (b_tx bv) (b_schema bv)]>
                  (bases w))
       (set_opens rest (log_call (SqlOpen "postgres" url) w))).
Proof.
  intros Hat Hurl Hopens.
  unfold Postgresql.open, bind at 1. unfold WaitForConnection, bind at 1. simpl.
  rewrite (wait_loop_first_ok Postgresql.Err (retries w) (Postgresql.open_connFn d)
             None w (Some h, None)
             (set_opens rest (log_call (SqlOpen "postgres" url) w))).
  - simpl.
    rewrite (Bind_at (set_opens rest (log_call (SqlOpen "postgres" url) w))
               d b bv (Some h) Hat).
    reflexivity.
  - rewrite (pg_open_connFn_at w d b bv url None Hat Hurl). unfold sql_Open.
    now rewrite Hopens.
  - reflexivity.
Qed.

Lemma pg_open_fatal w d b bv url e rest :
  adapter_at w d b bv -> b_connURL bv = Some url ->
  opens w = inr e :: rest ->
  Postgresql.Err (Some e) = Some e ->
  same_error e Db.ErrTooManyClients = false ->
  Postgresql.open d w
  = (Ret (Some e), set_opens rest (log_call (SqlOpen "postgres" url) w)).
Proof.
  intros Hat Hurl Hopens Herr Hne.
  unfold Postgresql.open, bind at 1. unfold WaitForConnection, bind at 1. simpl.
  rewrite (wait_loop_first_fatal Postgresql.Err (retries w) (Postgresql.open_connFn d)
             None w (None, Some e)
             (set_opens rest (log_call (SqlOpen "postgres" url) w)) e).
  - reflexivity.
  - rewrite (pg_open_connFn_at w d b bv url None Hat Hurl). unfold sql_Open.
    now rewrite Hopens.
  - reflexivity.
  - intros t Ht. rewrite Herr in Ht. now injection Ht as <-.
Qed.

Lemma sqlite_open_fatal w d b bv url e rest :
  adapter_at w d b bv -> b_connURL bv = Some url ->
  fileOpenCount w < Sqlite.maxOpenFiles ->
  opens w = inr e :: rest ->
  same_error e Sqlite.errTooManyOpenFiles = false ->
  same_error e Db.ErrTooManyClients = false ->
  Sqlite.open d w
  = (Ret (Some e), set_opens rest (log_call (SqlOpen "sqlite3" url) w)).
Proof.
  intros Hat Hurl Hlt Hopens Hne1 Hne2.
  unfold Sqlite.open, bind at 1. unfold WaitForConnection, bind at 1. simpl.
  rewrite (wait_loop_first_fatal Sqlite.Err (retries w) (Sqlite.openFn d)
             None w (None, Some e)
             (set_opens rest (log_call (SqlOpen "sqlite3" url) w)) e).
  - reflexivity.
  - rewrite (openFn_below_cap w d b bv url None Hlt Hat Hurl), Hopens. reflexivity.
  - reflexivity.
  - intros t Ht. unfold Sqlite.Err in Ht. rewrite Hne1 in Ht.
    injection Ht as <-. exact Hne2.
Qed.

(** X10. When the driver refuses to open the clone's connection with an error
    that is not a connection exhaustion, [Clone] of both adapters returns
    that error together with a [db.Database] that is not the nil interface:
    it is the nil [*database] that [clone] returned, converted to the
    interface.  The sqlite counter is where it was and the adapter cloned
    from reads the handle it had. *)
Theorem Clone_failure_typed_nil (w : World) (d b : loc) (bv : BaseDatabase)
        (url : string) (e : errorString) (rest : list (Handle + errorString)) :
  adapter_at w d b bv -> b_connURL bv = Some url ->
  fileOpenCount w < Sqlite.maxOpenFiles ->
  opens w = inr e :: rest ->
  same_error e Sqlite.errTooManyOpenFiles = false ->
  same_error e Db.ErrTooManyClients = false ->
  Postgresql.Err (Some e) = Some e ->
  exists x ws wp,
    Sqlite.Clone d w = (Ret (x, Some e), ws)
    /\ Postgresql.Clone d w = (Ret (x, Some e), wp)
    /\ x = Sqlite.database_ptr None
    /\ x <> Sqlite.nil_Database
    /\ fileOpenCount ws = fileOpenCount w
    /\ Session d ws = (Ret (b_sess bv), ws)
    /\ Session d wp = (Ret (b_sess bv), wp).
Proof.
  intros Hat Hurl Hlt Hopens Hne1 Hne2 Herr.
  pose proof (cloned_clone_at w bv) as Hc.
  pose proof (cloned_original_at w d b bv bv Hat) as Hd.
  exists (Sqlite.database_ptr None). eexists. eexists.
  split.
  { unfold Sqlite.Clone, bind at 1. rewrite (sqlite_clone_unfold _ _ _ _ Hat).
    unfold bind at 1.
    rewrite (sqlite_open_fatal (cloned w bv) _ _ _ url e rest Hc Hurl Hlt Hopens Hne1 Hne2).
    reflexivity. }
  split.
  { unfold Postgresql.Clone, bind at 1. rewrite (pg_clone_unfold _ _ _ _ Hat).
    unfold bind at 1.
    rewrite (pg_open_fatal (cloned w bv) _ _ _ url e rest Hc Hurl Hopens Herr Hne2).
    reflexivity. }
  split; [reflexivity|]. split; [discriminate|]. split; [reflexivity|].
  split.
  - exact (Session_at (set_opens rest (log_call (SqlOpen "sqlite3" url) (cloned w bv)))
             d b bv Hd).
  - exact (Session_at (set_opens rest (log_call (SqlOpen "postgres" url) (cloned w bv)))
             d b bv Hd).
Qed.

Lemma Clone_failure_typed_nil_witness :
  exists x ws wp,
    Sqlite.Clone 1%positive (set_opens [inr ioError] world_before_tx)
    = (Ret (x, Some ioError), ws)
    /\ Postgresql.Clone 1%positive (set_opens [inr ioError] world_before_tx)
       = (Ret (x, Some ioError), wp)
    /\ x = Sqlite.database_ptr None
    /\ x <> Sqlite.nil_Database
    /\ fileOpenCount ws = fileOpenCount (set_opens [inr ioError] world_before_tx)
    /\ Session 1%positive ws = (Ret (Some 7%positive), ws)
    /\ Session 1%positive wp = (Ret (Some 7%positive), wp).
Proof.
  apply (Clone_failure_typed_nil (set_opens [inr ioError] world_before_tx)
           1%positive 1%positive
           (mkBase 1%positive (Some "f.db") (Some 7%positive) None (Some 1%positive))
           "f.db" ioError []).
  - exists (mkDatabase (Some 1%positive) None). repeat split; reflexivity.
  - reflexivity.
  - simpl. unfold Sqlite.maxOpenFiles. lia.
  - reflexivity.
  - reflexivity.
  - reflexivity.
  - reflexivity.
Defined.

(** ** [Transaction] of the postgresql adapter *)

Lemma bound_tx_at w d b bv t :
  adapter_at w d b bv ->
  adapter_at
    (set_bases (<[b := mkBase (b_partial bv) (b_connURL bv) (b_sess bv) t (b_schema bv)]>
                  (bases w)) w)
    d b (mkBase (b_partial bv) (b_connURL bv) (b_sess bv) t (b_schema bv)).
Proof.
  intros (v & H1 & H2 & H3). exists v. simpl. rewrite lookup_insert_eq. auto.
Qed.

Lemma pg_clone_success w d b bv url h rest :
  adapter_at w d b bv -> b_connURL bv = Some url ->
  opens w = inl h :: rest ->
  Postgresql.clone d w
  = (Ret (Some (fresh (dom (dbs w))), None),
     set_bases (<[fresh (dom (bases w)) :=
                    mkBase (fresh (dom (dbs w))) (b_connURL bv) (Some h) None (b_schema bv)]>
                  (bases (cloned w bv)))
       (set_opens rest (log_call (SqlOpen "postgres" url) (cloned w bv)))).
Proof.
  intros Hat Hurl Hopens.
  rewrite (pg_clone_unfold _ _ _ _ Hat). unfold bind.
  rewrite (pg_open_success (cloned w bv) _ _ _ url h rest (cloned_clone_at w bv)
             Hurl Hopens).
  reflexivity.
Qed.

(** X18. The postgresql [Transaction] on an adapter with a descriptor.  When the
    driver opens the clone's connection and begins a transaction on it, the
    result is the clone, a new adapter bound to that connection and that
    transaction, and the adapter it was started from reads the handle and
    the transaction it had.  When the driver refuses the connection with an
    error that is not a connection exhaustion, that error is returned and
    [Begin] is never called.  When [Begin] fails with such an error, the
    error is returned and the clone's connection, opened for it, is not
    closed. *)
Theorem pg_Transaction_result (w : World) (d b : loc) (bv : BaseDatabase)
        (url : string) :
  adapter_at w d b bv -> b_connURL bv = Some url ->
  (forall h rest t rest',
     opens w = inl h :: rest -> begins w = inl t :: rest' ->
     exists c w1,
       Postgresql.Transaction d w = (Ret (Some (mkTx c (Some t)), None), w1)
       /\ c <> d
       /\ Session c w1 = (Ret (Some h), w1) /\ Tx c w1 = (Ret (Some t), w1)
       /\ Session d w1 = (Ret (b_sess bv), w1) /\ Tx d w1 = (Ret (b_tx bv), w1)
       /\ calls w1 = SqlBegin h :: SqlOpen "postgres" url :: calls w)
  /\ (forall e rest,
        opens w = inr e :: rest ->
        Postgresql.Err (Some e) = Some e ->
        same_error e Db.ErrTooManyClients = false ->
        fst (Postgresql.Transaction d w) = Ret (None, Some e)
        /\ calls (snd (Postgresql.Transaction d w))
           = SqlOpen "postgres" url :: calls w)
  /\ (forall h rest e rest',
        opens w = inl h :: rest -> begins w = inr e :: rest' ->
        Postgresql.Err (Some e) = Some e ->
        same_error e Db.ErrTooManyClients = false ->
        fst (Postgresql.Transaction d w) = Ret (None, Some e)
        /\ calls (snd (Postgresql.Transaction d w))
           = SqlBegin h :: SqlOpen "postgres" url :: calls w).
Proof.
  intros Hat Hurl.
  pose proof (cloned_clone_at w bv) as Hc.
  pose proof (cloned_original_at w d b bv bv Hat) as Hd.
  assert (fresh (dom (bases w)) <> b) as Hbb
      by (destruct Hat as (v & _ & _ & Hb); eapply fresh_ne; eauto).
  assert (fresh (dom (dbs w)) <> d) as Hcd
      by (destruct Hat as (v & Hd' & _); eapply fresh_ne; eauto).
  set (c := fresh (dom (dbs w))) in *.
  set (b' := fresh (dom (bases w))) in *.
  split; [|split].
  - intros h rest t rest' Hopens Hbegins.
    pose proof (pg_clone_success w d b bv url h rest Hat Hurl Hopens) as Hclone.
    fold c b' in Hclone.
    match type of Hclone with _ = (_, ?x) => set (w1 := x) in * end.
    assert (adapter_at w1 c b' (mkBase c (b_connURL bv) (Some h) None (b_schema bv)))
      as Hc1.
    { exact (bound_adapter_at
               (set_opens rest (log_call (SqlOpen "postgres" url) (cloned w bv)))
               c b' _ (Some h) Hc). }
    set (w2 := set_begins rest' (log_call (SqlBegin h) w1)).
    set (w3 := set_bases (<[b' := mkBase c (b_connURL bv) (Some h) (Some t) (b_schema bv)]>
                            (bases w2)) w2).
    assert (adapter_at w3 c b' (mkBase c (b_connURL bv) (Some h) (Some t) (b_schema bv)))
      as Hc3.
    { exact (bound_tx_at w2 c b' _ (Some t) Hc1). }
    assert (adapter_at w3 d b bv) as Hd3.
    { destruct Hd as (v & H1 & H2 & H3). exists v.
      split; [exact H1|]. split; [exact H2|].
      subst w3 w2 w1. simpl. rewrite !lookup_insert_ne by exact Hbb.
      destruct Hat as (v' & _ & _ & H3'). exact H3'. }
    exists c, w3. split.
    + unfold Postgresql.Transaction, bind at 1. rewrite Hclone. cbn [snd fst].
      unfold bind at 1. unfold WaitForConnection, bind at 1. simpl.
      rewrite (wait_loop_first_ok Postgresql.Err (retries w) (Postgresql.connFn c) None w1
                 (Some t, None) w2).
      * simpl. unfold bind at 1.
        rewrite (BindTx_at w2 c b' _ (Some t) Hc1).
        unfold bind at 1.
        match goal with |- context [Tx c ?w6] => change w6 with w3 end.
        rewrite (Tx_at _ _ _ _ Hc3). reflexivity.
      * change (Postgresql.connFn c None w1) with (Sqlite.connFn c None w1).
        rewrite (connFn_at _ _ _ _ None Hc1). simpl.
        change (begins w1) with (begins w). rewrite Hbegins. reflexivity.
      * reflexivity.
    + split; [exact Hcd|].
      split; [exact (Session_at _ _ _ _ Hc3)|].
      split; [exact (Tx_at _ _ _ _ Hc3)|].
      split; [exact (Session_at _ _ _ _ Hd3)|].
      split; [exact (Tx_at _ _ _ _ Hd3)|].
      reflexivity.
  - intros e rest Hopens Herr Hne.
    assert (Postgresql.Transaction d w
            = (Ret (None, Some e),
               set_opens rest (log_call (SqlOpen "postgres" url) (cloned w bv)))) as Hrun.
    { unfold Postgresql.Transaction, bind at 1.
      rewrite (pg_clone_unfold _ _ _ _ Hat). unfold bind at 1. fold c.
      rewrite (pg_open_fatal (cloned w bv) _ _ _ url e rest Hc Hurl Hopens Herr Hne).
      reflexivity. }
    rewrite Hrun. split; reflexivity.
  - intros h rest e rest' Hopens Hbegins Herr Hne.
    pose proof (pg_clone_success w d b bv url h rest Hat Hurl Hopens) as Hclone.
    fold c b' in Hclone.
    match type of Hclone with _ = (_, ?x) => set (w1 := x) in * end.
    assert (adapter_at w1 c b' (mkBase c (b_connURL bv) (Some h) None (b_schema bv)))
      as Hc1.
    { exact (bound_adapter_at
               (set_opens rest (log_call (SqlOpen "postgres" url) (cloned w bv)))
               c b' _ (Some h) Hc). }
    assert (Postgresql.Transaction d w
            = (Ret (None, Some e), set_begins rest' (log_call (SqlBegin h) w1))) as Hrun.
    { unfold Postgresql.Transaction, bind at 1. rewrite Hclone. cbn [snd fst].
      unfold bind at 1. unfold WaitForConnection, bind at 1. simpl.
      rewrite (wait_loop_first_fatal Postgresql.Err (retries w) (Postgresql.connFn c)
                 None w1 (None, Some e) (set_begins rest' (log_call (SqlBegin h) w1)) e).
      - reflexivity.
      - change (Postgresql.connFn c None w1) with (Sqlite.connFn c None w1).
        rewrite (connFn_at _ _ _ _ None Hc1). simpl.
        change (begins w1) with (begins w). rewrite Hbegins. reflexivity.
      - reflexivity.
      - intros t Ht. rewrite Herr in Ht. now injection Ht as <-. }
    rewrite Hrun. split; reflexivity.
Qed.

Lemma pg_Transaction_result_witness :
  exists c w1,
    Postgresql.Transaction 1%positive world_before_tx
    = (Ret (Some (mkTx c (Some 9%positive)), None), w1)
    /\ c <> 1%positive
    /\ Session c w1 = (Ret (Some 8%positive), w1)
    /\ Tx c w1 = (Ret (Some 9%positive), w1)
    /\ Session 1%positive w1 = (Ret (Some 7%positive), w1)
    /\ Tx 1%positive w1 = (Ret None, w1)
    /\ calls w1 = SqlBegin 8%positive :: SqlOpen "postgres" "f.db" :: calls world_before_tx.
Proof.
  apply (proj1 (pg_Transaction_result world_before_tx 1%positive 1%positive
           (mkBase 1%positive (Some "f.db") (Some 7%positive) None (Some 1%positive))
           "f.db"
           ltac:(exists (mkDatabase (Some 1%positive) None); repeat split; reflexivity)
           eq_refl)
           8%positive [] 9%positive []);
    reflexivity.
Defined.
